(** * Worksection client: request signing, encoding, transport and
    attachment resolution

  A shallow embedding of [src/worksectionClient.ts] (class
  [WorksectionClient]), of the tools of [src/index.ts] ([post_task] first,
  then the others and [completeProjectIds]) and of [src/config.ts], with
  the properties stated about them.

  Conventions of the embedding.
  - A JavaScript string is a Rocq [string]: the sequence of the bytes of
    its UTF-8 encoding.  Every string operation of the client
    (concatenation, template literals, the form-urlencoded serializer,
    the digest input) commutes with UTF-8 encoding of well-formed
    strings, so nothing is lost.
  - A JavaScript number is given by what [Number::toString] of ECMA-262
    reads of it ([Js.Number]): [NaN], an infinity, zero, or a sign with the
    digits and the exponent of its shortest decimal.  The client only ever
    prints numbers, and [Js.Number_toString] prints them as JavaScript
    does, fractions and exponent forms included.
  - The platform primitives the client calls are modelled next to it:
    [URLSearchParams] (WHATWG form-urlencoded serializer), the MD5
    digest of [crypto.createHash('md5')] (RFC 1321), [Object.entries]
    (own-property order of ECMA-262), [String.prototype.trim].
  - What the platform decides at run time is a parameter of the model:
    the network answering [fetch].  A [Response] is what the client
    observes of it: status, status text, and the results of [text()],
    [json()] and [arrayBuffer()], each of which may fail; a body that
    parses is any JSON value, [null] included, and its fields are any
    JSON values.  The handlers take the base64 decoder behind
    [Buffer.from(s, 'base64')] as a parameter; [Buffer.from_base64] is the
    decoder of Node, which throws on no string.
  - [new Blob] keeps its type in lower case, and keeps none when the type
    has a character outside U+0020..U+007E ([Blob.make]).
  - Console logging reads the request and the response and changes
    neither, and is not modelled, but for the one log that can throw: the
    development log of the response status ([logResponseStatus]).  The
    client is taken as it runs in production ([NODE_ENV] is [production],
    which the Dockerfile sets), where that log is not evaluated.
  - The client is given twice: over values ([call]), where most properties
    are stated, and over a store of objects ([StoreClient.call]), where
    every assignment of the source is a write to a location; the second
    is proved to compute what the first computes.
  - The source files also hold earlier revisions: of the class, without
    attachments, after the current one (its [buildParamState] is
    [Earlier.buildParamState]); of the tool, with inline attachments only,
    before the current one.  The embedding follows the revision with
    remote attachments. *)

From Stdlib Require Import ZArith List String Ascii Lia Bool DecimalString Sorted.
From stdpp Require Import base option list strings gmap.
Import ListNotations.

Local Open Scope string_scope.
Local Open Scope list_scope.
Local Open Scope Z_scope.

(** ** Bytes and strings *)

Module Bytes.

Definition byte_of_ascii (c : ascii) : Z := Z.of_N (N_of_ascii c).
Definition ascii_of_byte (b : Z) : ascii := ascii_of_N (Z.to_N (b mod 256)).

Definition of_string (s : string) : list Z :=
  List.map byte_of_ascii (list_ascii_of_string s).

Definition hex_digit (uppercase : bool) (d : Z) : ascii :=
  if d <? 10 then ascii_of_byte (48 + d)
  else ascii_of_byte ((if uppercase then 55 else 87) + d).

(** Two hexadecimal digits of one byte, high nibble first. *)
Definition hex_byte (uppercase : bool) (b : Z) : string :=
  String (hex_digit uppercase (Z.shiftr b 4))
    (String (hex_digit uppercase (Z.land b 15)) EmptyString).

Fixpoint hex (bs : list Z) : string :=
  match bs with
  | [] => EmptyString
  | b :: bs' => hex_byte false b +:+ hex bs'
  end.

End Bytes.

(** ** [crypto.createHash('md5')]: the MD5 digest of RFC 1321 *)

Module MD5.

Definition mask32 : Z := 0xffffffff.
Definition add32 (x y : Z) : Z := Z.land (x + y) mask32.
Definition not32 (x : Z) : Z := Z.lxor x mask32.
Definition rotl32 (x : Z) (n : Z) : Z :=
  Z.land (Z.lor (Z.shiftl x n) (Z.shiftr x (32 - n))) mask32.

(** [K[i] = floor(2^32 * |sin(i + 1)|)]. *)
Definition K : list Z :=
  [ 0xd76aa478; 0xe8c7b756; 0x242070db; 0xc1bdceee;
    0xf57c0faf; 0x4787c62a; 0xa8304613; 0xfd469501;
    0x698098d8; 0x8b44f7af; 0xffff5bb1; 0x895cd7be;
    0x6b901122; 0xfd987193; 0xa679438e; 0x49b40821;
    0xf61e2562; 0xc040b340; 0x265e5a51; 0xe9b6c7aa;
    0xd62f105d; 0x02441453; 0xd8a1e681; 0xe7d3fbc8;
    0x21e1cde6; 0xc33707d6; 0xf4d50d87; 0x455a14ed;
    0xa9e3e905; 0xfcefa3f8; 0x676f02d9; 0x8d2a4c8a;
    0xfffa3942; 0x8771f681; 0x6d9d6122; 0xfde5380c;
    0xa4beea44; 0x4bdecfa9; 0xf6bb4b60; 0xbebfbc70;
    0x289b7ec6; 0xeaa127fa; 0xd4ef3085; 0x04881d05;
    0xd9d4d039; 0xe6db99e5; 0x1fa27cf8; 0xc4ac5665;
    0xf4292244; 0x432aff97; 0xab9423a7; 0xfc93a039;
    0x655b59c3; 0x8f0ccc92; 0xffeff47d; 0x85845dd1;
    0x6fa87e4f; 0xfe2ce6e0; 0xa3014314; 0x4e0811a1;
    0xf7537e82; 0xbd3af235; 0x2ad7d2bb; 0xeb86d391 ].

(** Per-round left rotation amounts. *)
Definition S : list Z :=
  [ 7; 12; 17; 22; 7; 12; 17; 22; 7; 12; 17; 22; 7; 12; 17; 22;
    5;  9; 14; 20; 5;  9; 14; 20; 5;  9; 14; 20; 5;  9; 14; 20;
    4; 11; 16; 23; 4; 11; 16; 23; 4; 11; 16; 23; 4; 11; 16; 23;
    6; 10; 15; 21; 6; 10; 15; 21; 6; 10; 15; 21; 6; 10; 15; 21 ].

Record state := State { sa : Z; sb : Z; sc : Z; sd : Z }.

Definition init : state :=
  State 0x67452301 0xefcdab89 0x98badcfe 0x10325476.

(** Little-endian 32-bit words of a byte sequence (trailing bytes that do
    not fill a word are dropped; padded input has none). *)
Fixpoint words (bs : list Z) : list Z :=
  match bs with
  | b0 :: b1 :: b2 :: b3 :: rest =>
      (b0 + Z.shiftl b1 8 + Z.shiftl b2 16 + Z.shiftl b3 24) :: words rest
  | _ => []
  end.

Definition le_bytes32 (w : Z) : list Z :=
  [ Z.land w 255; Z.land (Z.shiftr w 8) 255;
    Z.land (Z.shiftr w 16) 255; Z.land (Z.shiftr w 24) 255 ].

Definition le_bytes64 (w : Z) : list Z :=
  le_bytes32 (Z.land w mask32) ++ le_bytes32 (Z.land (Z.shiftr w 32) mask32).

(** Padding: one [0x80] byte, zeros up to 56 modulo 64, then the bit
    length of the message on 64 bits. *)
Definition pad (msg : list Z) : list Z :=
  let len := Z.of_nat (List.length msg) in
  let zeros := Z.to_nat ((55 - len) mod 64) in
  msg ++ [128] ++ List.repeat 0 zeros ++ le_bytes64 (Z.land (8 * len) (2 ^ 64 - 1)).

Definition step (m : list Z) (st : state) (i : nat) : state :=
  let '(State a b c d) := st in
  let iz := Z.of_nat i in
  let '(f, g) :=
    if iz <? 16 then (Z.lor (Z.land b c) (Z.land (not32 b) d), iz)
    else if iz <? 32 then
      (Z.lor (Z.land d b) (Z.land (not32 d) c), (5 * iz + 1) mod 16)
    else if iz <? 48 then (Z.lxor b (Z.lxor c d), (3 * iz + 5) mod 16)
    else (Z.lxor c (Z.lor b (not32 d)), (7 * iz) mod 16) in
  let f' := add32 (add32 (add32 f a) (nth i K 0)) (nth (Z.to_nat g) m 0) in
  State d (add32 b (rotl32 f' (nth i S 0))) b c.

Definition process_block (st : state) (block : list Z) : state :=
  let m := words block in
  let '(State a b c d) := List.fold_left (step m) (List.seq 0 64) st in
  State (add32 (sa st) a) (add32 (sb st) b) (add32 (sc st) c) (add32 (sd st) d).

Fixpoint blocks (n : nat) (bs : list Z) : list (list Z) :=
  match n with
  | O => []
  | Datatypes.S n' =>
      match bs with
      | [] => []
      | _ => List.firstn 64 bs :: blocks n' (List.skipn 64 bs)
      end
  end.

Definition digest (msg : list Z) : list Z :=
  let p := pad msg in
  let '(State a b c d) :=
    List.fold_left process_block (blocks (List.length p) p) init in
  le_bytes32 a ++ le_bytes32 b ++ le_bytes32 c ++ le_bytes32 d.

(** [createHash('md5').update(s).digest('hex')]. *)
Definition hexdigest (s : string) : string :=
  Bytes.hex (digest (Bytes.of_string s)).

End MD5.


(** ** JavaScript built-ins used by the client *)

Module Js.

(** *** Numbers

    A number is what identifies it in [Number::toString] of ECMA-262:
    [NaN], an infinity, zero, or a sign with the decimal digits [s] and the
    exponent [n] of the shortest decimal that reads back as the number,
    whose value is [s * 10 ^ (n - k)] for [k] the number of digits of [s],
    which does not end in 0.  So [1.5] is [Finite false 15 1], and [1e21]
    is [Finite false 1 22].  Both zeros print alike and are one here. *)
Inductive Number :=
| NaN
| Infinite (negative : bool)
| Zero
| Finite (negative : bool) (s : positive) (n : Z).

Definition digits_of (s : positive) : string :=
  NilZero.string_of_uint (Pos.to_uint s).

Fixpoint zeros (count : nat) : string :=
  match count with
  | O => EmptyString
  | S count' => String "0" (zeros count')
  end.

(** [String(x)] and [`${x}`] for a number: [Number::toString] with radix
    10.  The digits followed by zeros, or with a point inside, or after
    [0.] and zeros, when [-5 <= n <= 21]; the exponent form otherwise. *)
Definition Number_toString (x : Number) : string :=
  match x with
  | NaN => "NaN"
  | Infinite negative => if negative then "-Infinity" else "Infinity"
  | Zero => "0"
  | Finite negative s n =>
      let digits := digits_of s in
      let k := Z.of_nat (String.length digits) in
      let sign := if negative then "-" else EmptyString in
      sign
      +:+ (if (-5 <=? n) && (n <=? 21) then
             if k <=? n then digits +:+ zeros (Z.to_nat (n - k))
             else if 0 <? n then
               String.substring 0 (Z.to_nat n) digits +:+ "."
               +:+ String.substring (Z.to_nat n) (Z.to_nat (k - n)) digits
             else "0." +:+ zeros (Z.to_nat (- n)) +:+ digits
           else
             let e := n - 1 in
             let exponent :=
               (if e <? 0 then "-" else "+")
               +:+ NilZero.string_of_uint (N.to_uint (Z.to_N (Z.abs e))) in
             if k =? 1 then digits +:+ "e" +:+ exponent
             else String.substring 0 1 digits +:+ "."
                  +:+ String.substring 1 (Z.to_nat (k - 1)) digits
                  +:+ "e" +:+ exponent)
  end.

(** The number that is an integer, for the integers the program makes
    itself (a status, a length, an index, a flag), which a double holds
    exactly: its digits without the trailing zeros, and their count as the
    exponent. *)
Fixpoint strip_zeros (fuel : nat) (s : Z) : Z :=
  match fuel with
  | O => s
  | S fuel' => if s mod 10 =? 0 then strip_zeros fuel' (s / 10) else s
  end.

Definition Number_of_Z (z : Z) : Number :=
  if z =? 0 then Zero
  else
    let count := String.length (NilZero.string_of_uint (N.to_uint (Z.to_N (Z.abs z)))) in
    Finite (z <? 0) (Z.to_pos (strip_zeros count (Z.abs z))) (Z.of_nat count).

(** [`${index}`] for an array index. *)
Definition index_toString (i : nat) : string :=
  Number_toString (Number_of_Z (Z.of_nat i)).

(** The message of the [TypeError] raised by reading a property of [null],
    and by converting to a string an object that cannot be. *)
Definition null_read (property : string) : string :=
  "Cannot read properties of null (reading '" +:+ property +:+ "')".

Definition not_primitive : string :=
  "Cannot convert object to primitive value".

(** The double-quote character, for message templates. *)
Definition quote : string := String (ascii_of_nat 34) EmptyString.

(** Truthiness of an optional object such as a [Buffer]: only [undefined]
    is falsy. *)
Definition present {A} (x : option A) : bool :=
  match x with Some _ => true | None => false end.

(** Truthiness of an optional string: [undefined], [null] and the empty
    string are falsy. *)
Definition truthy (s : option string) : bool :=
  match s with
  | Some (String _ _) => true
  | _ => false
  end.

(** [hay.includes(needle)]. *)
Fixpoint includes (needle hay : string) : bool :=
  String.prefix needle hay
  || match hay with
     | EmptyString => false
     | String _ hay' => includes needle hay'
     end.

(** *** [String.prototype.trim] *)

(** [strip_ws bs] removes one leading white-space or line-terminator code
    point (ECMA-262 WhiteSpace and LineTerminator, in UTF-8), if any. *)
Definition strip_ws (bs : list Z) : option (list Z) :=
  match bs with
  | 9 :: r | 10 :: r | 11 :: r | 12 :: r | 13 :: r | 32 :: r => Some r
  | 194 :: 160 :: r => Some r                          (* U+00A0 *)
  | 225 :: 154 :: 128 :: r => Some r                   (* U+1680 *)
  | 226 :: 128 :: b :: r =>                            (* U+2000..U+200A, *)
      if (128 <=? b) && (b <=? 138) || (b =? 168)      (* U+2028, U+2029, *)
         || (b =? 169) || (b =? 175)                   (* U+202F *)
      then Some r else None
  | 226 :: 129 :: 159 :: r => Some r                   (* U+205F *)
  | 227 :: 128 :: 128 :: r => Some r                   (* U+3000 *)
  | 239 :: 187 :: 191 :: r => Some r                   (* U+FEFF *)
  | _ => None
  end.

(** The same code points read backwards, for the end of the string. *)
Definition strip_ws_rev (bs : list Z) : option (list Z) :=
  match bs with
  | 9 :: r | 10 :: r | 11 :: r | 12 :: r | 13 :: r | 32 :: r => Some r
  | 160 :: 194 :: r => Some r
  | 128 :: 154 :: 225 :: r => Some r
  | b :: 128 :: 226 :: r =>
      if (128 <=? b) && (b <=? 138) || (b =? 168)
         || (b =? 169) || (b =? 175)
      then Some r else None
  | 159 :: 129 :: 226 :: r => Some r
  | 128 :: 128 :: 227 :: r => Some r
  | 191 :: 187 :: 239 :: r => Some r
  | _ => None
  end.

Fixpoint strip_all (strip : list Z -> option (list Z)) (fuel : nat)
  (bs : list Z) : list Z :=
  match fuel with
  | O => bs
  | S fuel' =>
      match strip bs with
      | Some r => strip_all strip fuel' r
      | None => bs
      end
  end.

Definition to_string (bs : list Z) : string :=
  string_of_list_ascii (List.map Bytes.ascii_of_byte bs).

Definition trim (s : string) : string :=
  let bs := Bytes.of_string s in
  let front := strip_all strip_ws (List.length bs) bs in
  let back := strip_all strip_ws_rev (List.length front) (List.rev front) in
  to_string (List.rev back).

(** *** Own-property order of an ordinary object

    An object used as a map is the list of its properties in creation
    order.  [Object.entries], like the spread [{...o}], visits the keys
    that are array indices first, in ascending numeric order, and then the
    other keys in creation order (ECMA-262, OrdinaryOwnPropertyKeys). *)

Definition digit_value (c : ascii) : option Z :=
  let b := Bytes.byte_of_ascii c in
  if (48 <=? b) && (b <=? 57) then Some (b - 48) else None.

Fixpoint parse_digits (acc : Z) (s : string) : option Z :=
  match s with
  | EmptyString => Some acc
  | String c s' =>
      match digit_value c with
      | Some d => parse_digits (10 * acc + d) s'
      | None => None
      end
  end.

(** [array_index k] is [Some i] when [k] is the canonical decimal form of an
    integer [0 <= i < 2^32 - 1]. *)
Definition array_index (k : string) : option Z :=
  match k with
  | EmptyString => None
  | String c rest =>
      match parse_digits 0 k with
      | Some i =>
          if (i <? 2 ^ 32 - 1)
             && (negb (Bytes.byte_of_ascii c =? 48) || (String.length k =? 1)%nat)
          then Some i else None
      | None => None
      end
  end.

Definition is_array_index (k : string) : bool :=
  match array_index k with Some _ => true | None => false end.

Section Entries.
Context {V : Type}.

Fixpoint insert_by_index (i : Z) (e : string * V)
  (sorted : list (Z * (string * V))) : list (Z * (string * V)) :=
  match sorted with
  | [] => [(i, e)]
  | (j, e') :: rest =>
      if i <=? j then (i, e) :: sorted
      else (j, e') :: insert_by_index i e rest
  end.

Fixpoint index_entries (o : list (string * V)) : list (Z * (string * V)) :=
  match o with
  | [] => []
  | (k, v) :: rest =>
      match array_index k with
      | Some i => insert_by_index i (k, v) (index_entries rest)
      | None => index_entries rest
      end
  end.

Definition named_entries (o : list (string * V)) : list (string * V) :=
  List.filter (fun e => negb (is_array_index (fst e))) o.

Definition Object_entries (o : list (string * V)) : list (string * V) :=
  List.map snd (index_entries o) ++ named_entries o.

(** [{ ...o }]: a fresh object whose properties are created in the order
    [Object.entries] visits those of [o]. *)
Definition spread (o : list (string * V)) : list (string * V) :=
  Object_entries o.

End Entries.

(** [s.endsWith(suffix)] and [s.startsWith(prefix)]. *)
Fixpoint endsWith (s suffix : string) : bool :=
  String.eqb s suffix
  || match s with
     | EmptyString => false
     | String _ s' => endsWith s' suffix
     end.

Definition startsWith (s prefix : string) : bool := String.prefix prefix s.

(** Truthiness of an optional boolean: only [true] is truthy. *)
Definition holds (b : option bool) : bool :=
  match b with Some true => true | _ => false end.

End Js.

(** ** [URLSearchParams] *)

Module URLSearchParams.

Definition t := list (string * string).

Definition empty : t := [].

Definition append (p : t) (name value : string) : t := p ++ [(name, value)].

(** Bytes the form-urlencoded serializer leaves as they are: ASCII
    alphanumerics and [* - . _]. *)
Definition unreserved (b : Z) : bool :=
  (48 <=? b) && (b <=? 57) || (65 <=? b) && (b <=? 90)
  || (97 <=? b) && (b <=? 122)
  || (b =? 42) || (b =? 45) || (b =? 46) || (b =? 95).

Definition encode_byte (b : Z) : string :=
  if unreserved b then String (Bytes.ascii_of_byte b) EmptyString
  else if b =? 32 then "+"
  else String "%" (Bytes.hex_byte true b).

Fixpoint urlencode (s : string) : string :=
  match s with
  | EmptyString => EmptyString
  | String c s' => encode_byte (Bytes.byte_of_ascii c) +:+ urlencode s'
  end.

Definition encode_pair (kv : string * string) : string :=
  urlencode (fst kv) +:+ "=" +:+ urlencode (snd kv).

Definition toString (p : t) : string :=
  String.concat "&" (List.map encode_pair p).

End URLSearchParams.

(** ** Data of the client ([src/worksectionClient.ts], [src/config.ts]) *)

Record WorksectionConfig := {
  accountUrl : string;
  apiKey : string;
  slackBotToken : option string
}.

Definition ADMIN_PATH : string := "api/admin/v2".

Inductive Primitive :=
| PString (s : string)
| PNumber (n : Js.Number)
| PBoolean (b : bool).

Inductive ParamValue :=
| VPrimitive (p : Primitive)
| VArray (items : list Primitive)
| VNull
| VUndefined.

(** [Record<string, ParamValue>]: the properties in creation order. *)
Definition RequestParams := list (string * ParamValue).

Module AttachmentPayload.
Record t := {
  field : string;
  filename : string;
  data : list Z;
  contentType : option string
}.
End AttachmentPayload.

(** A [Buffer] is an object: [data] is truthy whenever it is present, also
    when it holds no byte. *)
Module AttachmentInput.
Record t := {
  field : string;
  filename : string;
  contentType : option string;
  data : option (list Z);
  sourceUrl : option string
}.
End AttachmentInput.

Inductive Method := GET | POST.

Module CallOptions.
Record t := {
  method : option Method;
  params : option RequestParams;
  attachments : option (list AttachmentInput.t)
}.
End CallOptions.

(** The values of a parsed JSON document; an object lists its properties
    in creation order, each key once. *)
#[local] Unset Elimination Schemes.
Inductive Json :=
| JNull
| JBoolean (b : bool)
| JNumber (n : Js.Number)
| JString (s : string)
| JArray (items : list Json)
| JObject (props : list (string * Json)).
#[local] Set Elimination Schemes.

(** Truthiness of a value read from a JSON document; [None] is
    [undefined]. *)
Definition Json_truthy (value : option Json) : bool :=
  match value with
  | None | Some JNull | Some (JBoolean false) | Some (JString EmptyString)
  | Some (JNumber Js.Zero) | Some (JNumber Js.NaN) => false
  | Some _ => true
  end.

(** [String(value)], [`${value}`] and [value + text] for a JSON value.  An
    array is its elements joined by commas, [null] counting as the empty
    string; an object is ["[object Object]"], unless it has a property
    [toString] of its own, which is not a function: the conversion then
    throws a [TypeError], which is [None] here. *)
Fixpoint Json_toString (value : Json) : option string :=
  match value with
  | JNull => Some "null"
  | JBoolean b => Some (if b then "true" else "false")
  | JNumber n => Some (Js.Number_toString n)
  | JString s => Some s
  | JArray items =>
      match
        (fix join (items : list Json) : option (list string) :=
           match items with
           | [] => Some []
           | item :: rest =>
               match
                 match item with
                 | JNull => Some EmptyString
                 | _ => Json_toString item
                 end, join rest
               with
               | Some part, Some parts => Some (part :: parts)
               | _, _ => None
               end
           end) items
      with
      | Some parts => Some (String.concat "," parts)
      | None => None
      end
  | JObject props =>
      if List.existsb (fun kv => String.eqb (fst kv) "toString") props
      then None
      else Some "[object Object]"
  end.

(** The parsed body of a response, which the client casts to
    [{ status?, message?, status_code?, message_details?, test? } &
    Record<string, unknown>]: any JSON value, with the properties the
    client reads of it.  Reading a property of a value that is not an
    object gives [undefined], except on [null], where it throws. *)
Module Envelope.
Definition t := Json.

Definition rest (json : t) : list (string * Json) :=
  match json with
  | JObject props => props
  | _ => []
  end.

Definition property (key : string) (json : t) : option Json :=
  snd <$> List.find (fun kv => String.eqb (fst kv) key) (rest json).

(** [json.status], when it is a string: [json.status !== 'ok'] holds
    exactly when this is not [Some "ok"]. *)
Definition status (json : t) : option string :=
  match property "status" json with
  | Some (JString s) => Some s
  | _ => None
  end.

Definition message (json : t) : option Json := property "message" json.
Definition status_code (json : t) : option Json := property "status_code" json.
Definition message_details (json : t) : option Json :=
  property "message_details" json.
Definition test (json : t) : option Json := property "test" json.
End Envelope.

(** ** The platform: [URL], [FormData], [fetch] *)

Module URL.
(** [new URL(input, base)], and the [search] the client assigns to it. *)
Record t := {
  input : string;
  base : string;
  search : string
}.
Definition make (input base : string) : t :=
  {| input := input; base := base; search := EmptyString |}.
Definition set_search (u : t) (s : string) : t :=
  {| input := input u; base := base u; search := s |}.
End URL.

Module Blob.
Record t := {
  bytes : list Z;
  type : string
}.

(** [new Blob([bytes], { type })]: a type with a character outside
    U+0020..U+007E becomes the empty string, any other is put in ASCII
    lower case. *)
Definition printable (c : ascii) : bool :=
  let b := Bytes.byte_of_ascii c in (32 <=? b) && (b <=? 126).

Definition lower (c : ascii) : ascii :=
  let b := Bytes.byte_of_ascii c in
  if (65 <=? b) && (b <=? 90) then Bytes.ascii_of_byte (b + 32) else c.

Definition normalize (type : string) : string :=
  if List.forallb printable (list_ascii_of_string type)
  then string_of_list_ascii (List.map lower (list_ascii_of_string type))
  else EmptyString.

Definition make (bytes : list Z) (type : string) : t :=
  {| bytes := bytes; type := normalize type |}.
End Blob.

(** [Buffer.from(s, "base64")] of Node.  The decoder is lenient and throws
    on no string: a character outside the base64 and base64url alphabets is
    skipped, [=] ends the input, every four sextets give three bytes and a
    shorter tail gives the whole bytes it holds. *)
Module Buffer.
Definition sextet (c : ascii) : option Z :=
  let b := Bytes.byte_of_ascii c in
  if (65 <=? b) && (b <=? 90) then Some (b - 65)
  else if (97 <=? b) && (b <=? 122) then Some (b - 71)
  else if (48 <=? b) && (b <=? 57) then Some (b + 4)
  else if (b =? 43) || (b =? 45) then Some 62
  else if (b =? 47) || (b =? 95) then Some 63
  else None.

Fixpoint sextets (s : string) : list Z :=
  match s with
  | EmptyString => []
  | String c s' =>
      if Ascii.eqb c "=" then []
      else match sextet c with
           | Some v => v :: sextets s'
           | None => sextets s'
           end
  end.

Fixpoint sextets_to_bytes (fuel : nat) (vs : list Z) : list Z :=
  match fuel with
  | O => []
  | S fuel' =>
      match vs with
      | a :: b :: c :: d :: rest =>
          [ Z.lor (Z.shiftl a 2) (Z.shiftr b 4);
            Z.land (Z.lor (Z.shiftl b 4) (Z.shiftr c 2)) 255;
            Z.land (Z.lor (Z.shiftl c 6) d) 255 ]
          ++ sextets_to_bytes fuel' rest
      | [a; b; c] =>
          [ Z.lor (Z.shiftl a 2) (Z.shiftr b 4);
            Z.land (Z.lor (Z.shiftl b 4) (Z.shiftr c 2)) 255 ]
      | [a; b] => [ Z.lor (Z.shiftl a 2) (Z.shiftr b 4) ]
      | _ => []
      end
  end.

Definition from_base64 (s : string) : list Z :=
  let vs := sextets s in sextets_to_bytes (List.length vs) vs.
End Buffer.

Inductive FormEntry :=
| FormField (name value : string)
| FormFile (name : string) (blob : Blob.t) (filename : string).

Definition FormData := list FormEntry.

Inductive Body :=
| BodyString (s : string)
| BodyForm (form : FormData).

Definition Headers := list (string * string).

Module RequestInit.
Record t := {
  method : option Method;
  headers : Headers;
  body : option Body
}.
End RequestInit.

Inductive RequestInfo :=
| ToString (url : string)
| ToURL (url : URL.t).

(** ** Exceptions *)

Inductive Exn :=
| WorksectionApiError (message : string) (statusCode : option Json)
| Error (message : string)
| SyntaxError (message : string)
| TypeError (message : string).

Definition exn_message (e : Exn) : string :=
  match e with
  | WorksectionApiError m _ => m
  | Error m => m
  | SyntaxError m => m
  | TypeError m => m
  end.

Inductive Outcome (A : Type) :=
| Return (a : A)
| Throw (e : Exn).
Arguments Return {A} a.
Arguments Throw {A} e.

(** The result of [response.json()]: the parsed body, any JSON value, or
    the rejection of the promise when the body is not JSON. *)
Inductive JsonResult :=
| JsonParsed (json : Envelope.t)
| JsonRejected (message : string).

(** What the client observes of a [Response].  Reading the body as text
    or as bytes can fail: the promise of [text()] or [arrayBuffer()] is
    then rejected, with the exception given. *)
Module Response.
Record t := {
  status : Z;
  statusText : string;
  text : Outcome string;
  json : JsonResult;
  arrayBuffer : Outcome (list Z)
}.
Definition ok (r : t) : bool := (200 <=? status r) && (status r <=? 299).
End Response.

Inductive FetchResult :=
| Rejected (message : string)
| Resolved (response : Response.t).

(** The HTTP requests issued so far, oldest first. *)
Definition Trace := list (RequestInfo * RequestInit.t).

(** The network answers a request knowing the requests made before it. *)
Definition Network := Trace -> RequestInfo -> RequestInit.t -> FetchResult.

(** ** The monad of the client

    A computation runs from the trace of past requests to an outcome and
    the extended trace. *)

Definition M (A : Type) : Type := Trace -> Outcome A * Trace.

Definition ret {A} (a : A) : M A := fun tr => (Return a, tr).

Definition throw {A} (e : Exn) : M A := fun tr => (Throw e, tr).

Definition bind {A B} (m : M A) (k : A -> M B) : M B :=
  fun tr =>
    match m tr with
    | (Return a, tr') => k a tr'
    | (Throw e, tr') => (Throw e, tr')
    end.

Declare Scope client_scope.
Notation "'let*' x ':=' m 'in' k" := (bind m (fun x => k))
  (at level 10, x name, m at level 100, k at level 200) : client_scope.
Local Open Scope client_scope.

(** [await fetch(info, init)]: the request joins the trace whether the
    promise resolves or rejects. *)
Definition fetch (net : Network) (info : RequestInfo) (init : RequestInit.t)
  : M FetchResult :=
  fun tr => (Return (net tr info init), tr ++ [(info, init)]).

Definition run {A} (m : M A) : Outcome A * Trace := m [].

(** ** The client: [class WorksectionClient] *)

Definition coerceToString (value : Primitive) : string :=
  match value with
  | PBoolean b => if b then "1" else "0"
  | PString s => s
  | PNumber n => Js.Number_toString n
  end.

(** [value.forEach((item, index) => appendParam(`${key}[${index}]`, item))]:
    an item is a [Primitive], so the inner call appends one pair. *)
Fixpoint appendItems (encoded : URLSearchParams.t) (key : string)
  (items : list Primitive) (index : nat) : URLSearchParams.t :=
  match items with
  | [] => encoded
  | item :: rest =>
      appendItems
        (URLSearchParams.append encoded
           (key +:+ "[" +:+ Js.index_toString index +:+ "]")
           (coerceToString item))
        key rest (S index)
  end.

Definition appendParam (encoded : URLSearchParams.t) (key : string)
  (value : ParamValue) : URLSearchParams.t :=
  match value with
  | VUndefined | VNull => encoded
  | VArray items => appendItems encoded key items 0
  | VPrimitive p => URLSearchParams.append encoded key (coerceToString p)
  end.

Definition buildParamState (action : string) (params : RequestParams)
  : URLSearchParams.t * string :=
  let encoded := URLSearchParams.empty in
  let encoded := appendParam encoded "action" (VPrimitive (PString action)) in
  let encoded :=
    List.fold_left (fun enc kv => appendParam enc (fst kv) (snd kv))
      (Js.Object_entries params) encoded in
  let raw := URLSearchParams.toString encoded in
  (encoded, raw).

Definition prepareParams (params : option RequestParams) : RequestParams :=
  Js.spread (default [] params).

Definition fetchRemoteAttachment (net : Network) (config : WorksectionConfig)
  (url : string) : M (list Z) :=
  let headers : Headers :=
    if Js.truthy (slackBotToken config)
    then [("Authorization", "Bearer " +:+ default EmptyString (slackBotToken config))]
    else [] in
  let* result :=
    fetch net (ToString url)
      {| RequestInit.method := None;
         RequestInit.headers := headers;
         RequestInit.body := None |} in
  match result with
  | Rejected message =>
      throw (WorksectionApiError
               ("Failed to download attachment from " +:+ url +:+ ": "
                +:+ message) None)
  | Resolved response =>
      if negb (Response.ok response) then
        throw (WorksectionApiError
                 ("Downloading attachment failed ("
                  +:+ Js.Number_toString (Js.Number_of_Z (Response.status response)) +:+ "): "
                  +:+ Response.statusText response) None)
      else
        match Response.arrayBuffer response with
        | Throw e => throw e
        | Return arrayBuffer =>
            if (List.length arrayBuffer =? 0)%nat then
              throw (WorksectionApiError
                       ("Attachment at " +:+ url +:+ " is empty.") None)
            else ret arrayBuffer
        end
  end.

(** The body of the [for ... of] loop of [prepareAttachments], and the loop:
    [payloads] is the array built so far. *)
Definition resolveAttachment (net : Network) (config : WorksectionConfig)
  (attachment : AttachmentInput.t) : M AttachmentPayload.t :=
  if Js.present (AttachmentInput.data attachment)
     && Js.truthy (AttachmentInput.sourceUrl attachment)
  then
    throw (WorksectionApiError
             ("Attachment " +:+ Js.quote +:+ AttachmentInput.filename attachment
              +:+ Js.quote +:+ " cannot define both data and sourceUrl.") None)
  else
    let* buffer :=
      match AttachmentInput.data attachment with
      | Some data => ret (Some data)
      | None =>
          if Js.truthy (AttachmentInput.sourceUrl attachment) then
            let* fetched :=
              fetchRemoteAttachment net config
                (default EmptyString (AttachmentInput.sourceUrl attachment)) in
            ret (Some fetched)
          else ret None
      end in
    match buffer with
    | None =>
        throw (WorksectionApiError
                 ("Attachment " +:+ Js.quote +:+ AttachmentInput.filename attachment
                  +:+ Js.quote
                  +:+ " must include base64 data or a download URL (sourceUrl).")
                 None)
    | Some buffer =>
        ret {| AttachmentPayload.field := AttachmentInput.field attachment;
               AttachmentPayload.filename := AttachmentInput.filename attachment;
               AttachmentPayload.data := buffer;
               AttachmentPayload.contentType :=
                 if Js.truthy (AttachmentInput.contentType attachment)
                 then AttachmentInput.contentType attachment
                 else None |}
    end.

Fixpoint resolveAll (net : Network) (config : WorksectionConfig)
  (attachments : list AttachmentInput.t)
  (payloads : list AttachmentPayload.t) : M (list AttachmentPayload.t) :=
  match attachments with
  | [] => ret payloads
  | attachment :: rest =>
      let* payload := resolveAttachment net config attachment in
      resolveAll net config rest (payloads ++ [payload])
  end.

Definition prepareAttachments (net : Network) (config : WorksectionConfig)
  (attachments : option (list AttachmentInput.t))
  : M (list AttachmentPayload.t) :=
  match attachments with
  | None | Some [] => ret []
  | Some attachments => resolveAll net config attachments []
  end.

(** [encoded.forEach((value, key) => form.append(key, value))] followed by
    [attachments.forEach(... form.append(field, blob, filename))]. *)
Definition formFields (encoded : URLSearchParams.t) : FormData :=
  List.map (fun kv => FormField (fst kv) (snd kv)) encoded.

Definition formFile (attachment : AttachmentPayload.t) : FormEntry :=
  FormFile (AttachmentPayload.field attachment)
    (Blob.make (AttachmentPayload.data attachment)
       (default "application/octet-stream"
          (AttachmentPayload.contentType attachment)))
    (AttachmentPayload.filename attachment).

Definition buildForm (encoded : URLSearchParams.t)
  (attachments : list AttachmentPayload.t) : FormData :=
  formFields encoded ++ List.map formFile attachments.

Definition is_GET (m : Method) : bool :=
  match m with GET => true | POST => false end.

(** The message of the error raised for a body whose status is not
    ["ok"]: lines 133 to 143.  Each field read is any JSON value; where it
    is made part of the message it is converted to a string, and [None] is
    the [TypeError] of a conversion that throws. *)
Definition envelopeErrorMessage (json : Envelope.t) : option string :=
  errorMessage ←
    match Envelope.message json with
    | None | Some JNull => Some "Worksection API returned an error"
    | Some message => Json_toString message
    end;
  errorMessage ←
    (if Json_truthy (Envelope.message_details json)
     then
       details ← Json_toString (default JNull (Envelope.message_details json));
       Some (errorMessage +:+ " (field: " +:+ details +:+ ")")
     else Some errorMessage);
  if Json_truthy (Envelope.test json)
  then
    test ← Json_toString (default JNull (Envelope.test json));
    Some (errorMessage +:+ ". Expected format: " +:+ Js.trim test)
  else Some errorMessage.

(** The signed pairs: lines 46 to 50 of the source. *)
Definition signParams (config : WorksectionConfig) (action : string)
  (params : option RequestParams) : URLSearchParams.t :=
  let params := prepareParams params in
  let '(encoded, raw) := buildParamState action params in
  let hash := MD5.hexdigest (raw +:+ apiKey config) in
  URLSearchParams.append encoded "hash" hash.

(** Lines 52 to 90 of [call]: the request built around the signed pairs. *)
Definition requestFor (config : WorksectionConfig) (method : Method)
  (hasAttachments : bool) (encoded : URLSearchParams.t)
  (attachments : list AttachmentPayload.t) : RequestInfo * RequestInit.t :=
  let basePath := ADMIN_PATH in
  let endpoint := URL.make basePath (accountUrl config) in
  let headers : Headers := [("Accept", "application/json")] in
  let endpoint :=
    if is_GET method || hasAttachments
    then URL.set_search endpoint (URLSearchParams.toString encoded)
    else endpoint in
  let '(body, headers) :=
    if is_GET method then (None, headers)
    else if hasAttachments then
      (Some (BodyForm (buildForm encoded attachments)), headers)
    else
      (Some (BodyString (URLSearchParams.toString encoded)),
       headers ++ [("Content-Type", "application/x-www-form-urlencoded")]) in
  (ToURL endpoint,
   {| RequestInit.method := Some method;
      RequestInit.headers := headers;
      RequestInit.body := body |}).

(** The request [call] hands to [fetch], once the attachments are
    resolved: lines 44 to 90 of the source. *)
Definition buildRequest (config : WorksectionConfig) (action : string)
  (options : option CallOptions.t) (attachments : list AttachmentPayload.t)
  : RequestInfo * RequestInit.t :=
  let hasAttachments := (0 <? List.length attachments)%nat in
  let method :=
    if hasAttachments then POST
    else default GET (options ≫= CallOptions.method) in
  let encoded := signParams config action (options ≫= CallOptions.params) in
  requestFor config method hasAttachments encoded attachments.

(** [process.env.NODE_ENV], as the image of the server sets it. *)
Definition NODE_ENV : option string := Some "production".

(** The log of the response in development, lines 124 to 129.  It changes
    nothing, but its template converts [json.status] to a string, which
    throws for a status that has no string form. *)
Definition logResponseStatus (json : Envelope.t) : M unit :=
  if from_option (String.eqb "production") false NODE_ENV then ret tt
  else
    match Envelope.property "status" json with
    | None => ret tt
    | Some status =>
        match Json_toString status with
        | Some _ => ret tt
        | None => throw (TypeError Js.not_primitive)
        end
    end.

(** What [call] does with the answer of [fetch]: lines 104 to 146. *)
Definition interpretResponse (result : FetchResult) : M Envelope.t :=
  match result with
  | Rejected message =>
      throw (WorksectionApiError
               ("Failed to reach Worksection API: " +:+ message) None)
  | Resolved response =>
      if negb (Response.ok response) then
        match Response.text response with
        | Throw e => throw e
        | Return errorText =>
            throw (WorksectionApiError
                     ("Worksection API HTTP "
                      +:+ Js.Number_toString
                            (Js.Number_of_Z (Response.status response))
                      +:+ ": " +:+ Response.statusText response)
                     (Some (JNumber (Js.Number_of_Z (Response.status response)))))
        end
      else
        match Response.json response with
        | JsonRejected message => throw (SyntaxError message)
        | JsonParsed JNull => throw (TypeError (Js.null_read "status"))
        | JsonParsed json =>
            let* _ := logResponseStatus json in
            if negb (bool_decide (Envelope.status json = Some "ok")) then
              match envelopeErrorMessage json with
              | None => throw (TypeError Js.not_primitive)
              | Some errorMessage =>
                  throw (WorksectionApiError errorMessage
                           (Envelope.status_code json))
              end
            else ret json
        end
  end.

Definition call (net : Network) (config : WorksectionConfig)
  (action : string) (options : option CallOptions.t) : M Envelope.t :=
  let* attachments :=
    prepareAttachments net config (options ≫= CallOptions.attachments) in
  let '(endpoint, init) := buildRequest config action options attachments in
  let* result := fetch net endpoint init in
  interpretResponse result.

(** ** The earlier revision of [buildParamState]

    It pushes the elements of a list under the key itself, and signs the
    pairs joined as they are, without encoding. *)

Module Earlier.

Definition pairsOf (kv : string * ParamValue) : list (string * string) :=
  match snd kv with
  | VUndefined | VNull => []
  | VArray items => List.map (fun item => (fst kv, coerceToString item)) items
  | VPrimitive p => [(fst kv, coerceToString p)]
  end.

Definition buildParamState (action : string) (params : RequestParams)
  : URLSearchParams.t * string :=
  let pairs :=
    [("action", action)] ++ List.flat_map pairsOf (Js.Object_entries params) in
  let encoded := pairs in
  let raw :=
    String.concat "&"
      (List.map (fun kv => fst kv +:+ "=" +:+ snd kv) pairs) in
  (encoded, raw).

End Earlier.

(** ** The [post_task] tool of [src/index.ts] *)

Module PostTask.

(** [attachmentSchema] and [createTaskArgsSchema], as the handler receives
    them. *)
Record AttachmentArg := {
  filename : string;
  data : option string;
  sourceUrl : option string;
  contentType : option string
}.

Record CreateTaskArgs := {
  projectId : string;
  title : string;
  description : option string;
  parentTaskId : option string;
  assigneeEmail : option string;
  priority : option Js.Number;
  startDate : option string;
  dueDate : option string;
  checklist : option (list string);
  subscribeEmails : option (list string);
  visibilityEmails : option (list string);
  mentionEmails : option (list string);
  estimateHours : option Js.Number;
  budget : option Js.Number;
  tags : option (list string);
  attachments : option (list AttachmentArg)
}.

(** The tool result: [respond(data)] keeps [data] as structured content,
    [respondError(error)] carries the message of the error. *)
Inductive ToolResult :=
| Responded (structuredContent : Json)
| RespondedError (text : string).

Definition opt_string (s : option string) : ParamValue :=
  match s with Some s => VPrimitive (PString s) | None => VUndefined end.

Definition opt_number (n : option Js.Number) : ParamValue :=
  match n with Some n => VPrimitive (PNumber n) | None => VUndefined end.

Definition commaSeparated (values : option (list string)) : option string :=
  match values with
  | Some (v :: vs) => Some (String.concat ", " (v :: vs))
  | _ => None
  end.

Definition is_digit (c : ascii) : bool :=
  match Js.digit_value c with Some _ => true | None => false end.

(** [trimmed.match(/^(\d{4})-(\d{2})-(\d{2})$/)], answering
    [`${day}.${month}.${year}`]. *)
Definition isoMatch (trimmed : string) : option string :=
  match list_ascii_of_string trimmed with
  | [y1; y2; y3; y4; d1; m1; m2; d2; a1; a2] =>
      if forallb is_digit [y1; y2; y3; y4; m1; m2; a1; a2]
         && Ascii.eqb d1 "-" && Ascii.eqb d2 "-"
      then Some (string_of_list_ascii
                   [a1; a2; "."%char; m1; m2; "."%char; y1; y2; y3; y4])
      else None
  | _ => None
  end.

Definition formatWsDate (raw : option string) : option string :=
  if negb (Js.truthy raw) then None
  else
    let trimmed := Js.trim (default EmptyString raw) in
    match isoMatch trimmed with
    | Some formatted => Some formatted
    | None => Some trimmed
    end.

Definition buildParams (args : CreateTaskArgs) : RequestParams :=
  [ ("id_project", VPrimitive (PString (projectId args)));
    ("title", VPrimitive (PString (title args)));
    ("text", opt_string (description args));
    ("id_parent", opt_string (parentTaskId args));
    ("email_user_to", opt_string (assigneeEmail args));
    ("priority", opt_number (priority args));
    ("datestart", opt_string (formatWsDate (startDate args)));
    ("dateend", opt_string (formatWsDate (dueDate args)));
    ("subscribe", opt_string (commaSeparated (subscribeEmails args)));
    ("hidden", opt_string (commaSeparated (visibilityEmails args)));
    ("mention", opt_string (commaSeparated (mentionEmails args)));
    ("max_time", opt_number (estimateHours args));
    ("max_money", opt_number (budget args));
    ("tags", opt_string (commaSeparated (tags args)));
    ("todo",
     match checklist args with
     | Some (c :: cs) => VArray (List.map PString (c :: cs))
     | _ => VUndefined
     end) ].

Section Handler.

(** [Buffer.from(s, "base64")] as the handler calls it, inside a [try]:
    the decoded bytes, or [None] when the call throws.  The decoder of
    Node, [Buffer.from_base64], throws on no string. *)
Variable Buffer_from_base64 : string -> option (list Z).
Variable net : Network.
Variable config : WorksectionConfig.

(** The callback of [args.attachments.map((attachment, index) => ...)]. *)
Definition convertAttachment (attachment : AttachmentArg) (index : nat)
  : Outcome AttachmentInput.t :=
  let decoded : Outcome (option (list Z)) :=
    if Js.truthy (data attachment) then
      match Buffer_from_base64 (default EmptyString (data attachment)) with
      | None =>
          Throw (Error ("Attachment " +:+ Js.quote +:+ filename attachment
                        +:+ Js.quote +:+ " data must be valid base64."))
      | Some buffer =>
          if (List.length buffer =? 0)%nat then
            Throw (Error ("Attachment " +:+ Js.quote +:+ filename attachment
                          +:+ Js.quote
                          +:+ " is empty or not valid base64 data."))
          else Return (Some buffer)
      end
    else Return None in
  match decoded with
  | Throw e => Throw e
  | Return buffer =>
      let field := "attach[" +:+ Js.index_toString index +:+ "]" in
      let contentType :=
        if Js.truthy (contentType attachment) then contentType attachment
        else None in
      match buffer with
      | Some buffer =>
          Return {| AttachmentInput.field := field;
                    AttachmentInput.filename := filename attachment;
                    AttachmentInput.contentType := contentType;
                    AttachmentInput.data := Some buffer;
                    AttachmentInput.sourceUrl := None |}
      | None =>
          if Js.truthy (sourceUrl attachment) then
            Return {| AttachmentInput.field := field;
                      AttachmentInput.filename := filename attachment;
                      AttachmentInput.contentType := contentType;
                      AttachmentInput.data := None;
                      AttachmentInput.sourceUrl := sourceUrl attachment |}
          else
            Throw (Error ("Attachment " +:+ Js.quote +:+ filename attachment
                          +:+ Js.quote
                          +:+ " requires base64 data or sourceUrl."))
      end
  end.

(** [Array.prototype.map]: the first callback that throws ends it. *)
Fixpoint convertAttachments (attachments : list AttachmentArg) (index : nat)
  : Outcome (list AttachmentInput.t) :=
  match attachments with
  | [] => Return []
  | attachment :: rest =>
      match convertAttachment attachment index with
      | Throw e => Throw e
      | Return input =>
          match convertAttachments rest (S index) with
          | Throw e => Throw e
          | Return inputs => Return (input :: inputs)
          end
      end
  end.

Definition lookup_prop (k : string) (props : list (string * Json))
  : option Json :=
  snd <$> List.find (fun kv => String.eqb (fst kv) k) props.

(** [respond({ task: response.data ?? {} })]. *)
Definition respondTask (response : Envelope.t) : ToolResult :=
  let task :=
    match lookup_prop "data" (Envelope.rest response) with
    | None | Some JNull => JObject []
    | Some data => data
    end in
  Responded (JObject [("task", task)]).

(** The body of the [try] block. *)
Definition post_task_body (args : CreateTaskArgs) : M ToolResult :=
  let params := buildParams args in
  let* inputs :=
    match attachments args with
    | None | Some [] => ret None
    | Some list =>
        match convertAttachments list 0 with
        | Throw e => throw e
        | Return inputs => ret (Some inputs)
        end
    end in
  let callOptions :=
    match inputs with
    | Some (first :: others) =>
        {| CallOptions.method := Some POST;
           CallOptions.params := Some params;
           CallOptions.attachments := Some (first :: others) |}
    | _ =>
        {| CallOptions.method := None;
           CallOptions.params := Some params;
           CallOptions.attachments := None |}
    end in
  let* response := call net config "post_task" (Some callOptions) in
  ret (respondTask response).

(** The handler: whatever the body throws is answered by [respondError]. *)
Definition post_task (args : CreateTaskArgs) (tr : Trace)
  : ToolResult * Trace :=
  match post_task_body args tr with
  | (Return result, tr') => (result, tr')
  | (Throw e, tr') => (RespondedError (exn_message e), tr')
  end.

End Handler.

End PostTask.

(** ** The other tools of [src/index.ts]

    Every handler registered by [registerTools] builds the parameters of
    one API action, calls the client and answers with [respond]; whatever
    its [try] block throws is answered by [respondError].  The text
    rendering of an answer ([JSON.stringify]) and the logging of an error
    are not modelled. *)

Module Tools.

(** The arguments of the tools, as their schemas hand them to the
    handlers. *)
Module ListProjectsArgs.
Record t := {
  filter : option string;
  include : option (list string)
}.
End ListProjectsArgs.

Module GetProjectArgs.
Record t := {
  projectId : string;
  include : option (list string)
}.
End GetProjectArgs.

Module ListProjectTasksArgs.
Record t := {
  projectId : string;
  activeOnly : option bool;
  include : option (list string)
}.
End ListProjectTasksArgs.

Module GetTaskArgs.
Record t := {
  taskId : string;
  include : option (list string);
  activeSubtasksOnly : option bool
}.
End GetTaskArgs.

Module AddCommentArgs.
Record t := {
  taskId : string;
  text : option string;
  checklist : option (list string);
  visibilityEmails : option (list string);
  mentionEmails : option (list string)
}.
End AddCommentArgs.

Module GetCommentsArgs.
Record t := {
  taskId : string;
  include : option (list string)
}.
End GetCommentsArgs.

Module GetCostsArgs.
Record t := {
  projectId : option string;
  taskId : option string;
  startDate : option string;
  endDate : option string;
  isTimer : option bool;
  filter : option string
}.
End GetCostsArgs.

Module GetCostsTotalArgs.
Record t := {
  projectId : option string;
  taskId : option string;
  startDate : option string;
  endDate : option string;
  isTimer : option bool;
  filter : option string;
  include : option (list string)
}.
End GetCostsTotalArgs.

Definition respond (data : Json) : PostTask.ToolResult :=
  PostTask.Responded data.

Definition respondError (error : Exn) : PostTask.ToolResult :=
  PostTask.RespondedError (exn_message error).

(** [try { body } catch (error) { return respondError(error, context) }]. *)
Definition handle (body : M PostTask.ToolResult) (tr : Trace)
  : PostTask.ToolResult * Trace :=
  match body tr with
  | (Return result, tr') => (result, tr')
  | (Throw error, tr') => (respondError error, tr')
  end.

(** [Array.isArray(response.data) ? response.data : []]. *)
Definition dataArray (response : Envelope.t) : list Json :=
  match PostTask.lookup_prop "data" (Envelope.rest response) with
  | Some (JArray items) => items
  | _ => []
  end.

(** [response.data ?? {}]. *)
Definition dataRecord (response : Envelope.t) : Json :=
  match PostTask.lookup_prop "data" (Envelope.rest response) with
  | None | Some JNull => JObject []
  | Some data => data
  end.

Definition lengthOf (items : list Json) : Json :=
  JNumber (Js.Number_of_Z (Z.of_nat (List.length items))).

(** *** The parameters of each action

    A parameter object is built by an object literal followed by
    conditional assignments; its properties are listed in the order they
    are created. *)

Definition stringParam (key value : string) : string * ParamValue :=
  (key, VPrimitive (PString value)).

(** [if (value) params[key] = value]. *)
Definition whenSet (key : string) (value : option string) : RequestParams :=
  if Js.truthy value then [stringParam key (default EmptyString value)]
  else [].

(** [if (include?.length) params.extra = include.join(", ")]. *)
Definition extraOf (include : option (list string)) : RequestParams :=
  match include with
  | Some (first :: others) =>
      [stringParam "extra" (String.concat ", " (first :: others))]
  | _ => []
  end.

(** [if (flag) params.filter = "active"]. *)
Definition activeWhen (flag : option bool) : RequestParams :=
  if Js.holds flag then [stringParam "filter" "active"] else [].

(** [get_projects]. *)
Definition projectsParams (args : ListProjectsArgs.t) : RequestParams :=
  whenSet "filter" (ListProjectsArgs.filter args)
  ++ extraOf (ListProjectsArgs.include args).

(** [get_project]. *)
Definition projectParams (args : GetProjectArgs.t) : RequestParams :=
  [stringParam "id_project" (GetProjectArgs.projectId args)]
  ++ extraOf (GetProjectArgs.include args).

(** [get_tasks]. *)
Definition tasksParams (args : ListProjectTasksArgs.t) : RequestParams :=
  [stringParam "id_project" (ListProjectTasksArgs.projectId args)]
  ++ activeWhen (ListProjectTasksArgs.activeOnly args)
  ++ extraOf (ListProjectTasksArgs.include args).

(** [get_task]. *)
Definition taskParams (args : GetTaskArgs.t) : RequestParams :=
  [stringParam "id_task" (GetTaskArgs.taskId args)]
  ++ extraOf (GetTaskArgs.include args)
  ++ activeWhen (GetTaskArgs.activeSubtasksOnly args).

(** [post_comment]. *)
Definition commentParams (args : AddCommentArgs.t) : RequestParams :=
  [ stringParam "id_task" (AddCommentArgs.taskId args);
    ("text", PostTask.opt_string (AddCommentArgs.text args));
    ("hidden",
     PostTask.opt_string
       (PostTask.commaSeparated (AddCommentArgs.visibilityEmails args)));
    ("mention",
     PostTask.opt_string
       (PostTask.commaSeparated (AddCommentArgs.mentionEmails args)));
    ("todo",
     match AddCommentArgs.checklist args with
     | Some (c :: cs) => VArray (List.map PString (c :: cs))
     | _ => VUndefined
     end) ].

(** [get_comments]. *)
Definition commentsParams (args : GetCommentsArgs.t) : RequestParams :=
  [stringParam "id_task" (GetCommentsArgs.taskId args)]
  ++ extraOf (GetCommentsArgs.include args).

(** The guard of [get_costs] and [get_costs_total]: no filter at all. *)
Definition unbounded (projectId taskId startDate endDate filter : option string)
  : bool :=
  negb (Js.truthy projectId) && negb (Js.truthy taskId)
  && negb (Js.truthy startDate) && negb (Js.truthy endDate)
  && negb (Js.truthy filter).

Definition unboundedMessage : string :=
  "At least one filter parameter is required (projectId, taskId, startDate, endDate, or filter) to prevent unbounded queries that may exceed memory limits.".

(** [if (date) params[key] = formatWsDate(date)]. *)
Definition dateWhenSet (key : string) (date : option string) : RequestParams :=
  if Js.truthy date
  then [(key, PostTask.opt_string (PostTask.formatWsDate date))]
  else [].

(** [if (typeof isTimer === "boolean") params.is_timer = isTimer ? 1 : 0]. *)
Definition timerParam (isTimer : option bool) : RequestParams :=
  match isTimer with
  | Some b =>
      [("is_timer",
        VPrimitive (PNumber (Js.Number_of_Z (if b then 1 else 0))))]
  | None => []
  end.

(** The six assignments [get_costs] and [get_costs_total] share. *)
Definition costFilters (projectId taskId startDate endDate : option string)
  (isTimer : option bool) (filter : option string) : RequestParams :=
  whenSet "id_project" projectId
  ++ whenSet "id_task" taskId
  ++ dateWhenSet "datestart" startDate
  ++ dateWhenSet "dateend" endDate
  ++ timerParam isTimer
  ++ whenSet "filter" filter.

Definition costsParams (args : GetCostsArgs.t) : RequestParams :=
  costFilters (GetCostsArgs.projectId args) (GetCostsArgs.taskId args)
    (GetCostsArgs.startDate args) (GetCostsArgs.endDate args)
    (GetCostsArgs.isTimer args) (GetCostsArgs.filter args).

(** [extraParts] of [get_costs_total]: what the caller asks for, or
    ["projects"] for a project without a task. *)
Definition extraParts (args : GetCostsTotalArgs.t) : list string :=
  match GetCostsTotalArgs.include args with
  | Some (first :: others) => first :: others
  | _ =>
      if Js.truthy (GetCostsTotalArgs.projectId args)
         && negb (Js.truthy (GetCostsTotalArgs.taskId args))
      then ["projects"]
      else []
  end.

Definition costsTotalParams (args : GetCostsTotalArgs.t) : RequestParams :=
  costFilters (GetCostsTotalArgs.projectId args)
    (GetCostsTotalArgs.taskId args) (GetCostsTotalArgs.startDate args)
    (GetCostsTotalArgs.endDate args) (GetCostsTotalArgs.isTimer args)
    (GetCostsTotalArgs.filter args)
  ++ match extraParts args with
     | [] => []
     | parts => [stringParam "extra" (String.concat ", " parts)]
     end.

(** [client.call(action, { params })]. *)
Definition withParams (params : RequestParams) : option CallOptions.t :=
  Some {| CallOptions.method := None;
          CallOptions.params := Some params;
          CallOptions.attachments := None |}.

(** [project.id !== undefined ? String(project.id) : ""]; reading a
    property of [null] throws, and so may the conversion: both are [None]
    here. *)
Definition idOf (project : Json) : option string :=
  match project with
  | JNull => None
  | JObject props =>
      match PostTask.lookup_prop "id" props with
      | Some id => Json_toString id
      | None => Some EmptyString
      end
  | _ => Some EmptyString
  end.

Section Handlers.

Variable Buffer_from_base64 : string -> option (list Z).
Variable net : Network.
Variable config : WorksectionConfig.

(** What [get_costs_total] takes out of a successful envelope (its [data]
    when that has keys, else its other fields, else an empty object).  What
    is stated of the tool holds whatever is taken, so the choice is a
    parameter. *)
Variable totalsOf : Envelope.t -> Json.

Definition get_users : Trace -> PostTask.ToolResult * Trace :=
  handle
    (let* response := call net config "get_users" None in
     let users := dataArray response in
     ret (respond (JObject [("count", lengthOf users);
                            ("users", JArray users)]))).

Definition get_projects (args : ListProjectsArgs.t)
  : Trace -> PostTask.ToolResult * Trace :=
  handle
    (let params := projectsParams args in
     let* response := call net config "get_projects" (withParams params) in
     let projects := dataArray response in
     ret (respond
            (JObject
               [("count", lengthOf projects);
                ("projects", JArray projects);
                ("appliedFilter",
                 match ListProjectsArgs.filter args with
                 | Some filter => JString filter
                 | None => JNull
                 end);
                ("requestedExtras",
                 JArray (List.map JString
                           (default [] (ListProjectsArgs.include args))))]))).

Definition get_project (args : GetProjectArgs.t)
  : Trace -> PostTask.ToolResult * Trace :=
  handle
    (let params := projectParams args in
     let* response := call net config "get_project" (withParams params) in
     ret (respond (JObject [("project", dataRecord response)]))).

Definition get_tasks (args : ListProjectTasksArgs.t)
  : Trace -> PostTask.ToolResult * Trace :=
  handle
    (let params := tasksParams args in
     let* response := call net config "get_tasks" (withParams params) in
     let tasks := dataArray response in
     ret (respond
            (JObject
               [("projectId", JString (ListProjectTasksArgs.projectId args));
                ("count", lengthOf tasks);
                ("tasks", JArray tasks)]))).

Definition get_task (args : GetTaskArgs.t)
  : Trace -> PostTask.ToolResult * Trace :=
  handle
    (let params := taskParams args in
     let* response := call net config "get_task" (withParams params) in
     ret (respond (JObject [("task", dataRecord response)]))).

Definition post_comment (args : AddCommentArgs.t)
  : Trace -> PostTask.ToolResult * Trace :=
  handle
    (if negb (Js.truthy (AddCommentArgs.text args))
        && match AddCommentArgs.checklist args with
           | Some (_ :: _) => false
           | _ => true
           end
     then
       ret (respondError
              (Error "Provide comment text or at least one checklist item."))
     else
       let params := commentParams args in
       let* response := call net config "post_comment" (withParams params) in
       ret (respond (JObject [("comment", dataRecord response)]))).

Definition get_comments (args : GetCommentsArgs.t)
  : Trace -> PostTask.ToolResult * Trace :=
  handle
    (let params := commentsParams args in
     let* response := call net config "get_comments" (withParams params) in
     let comments := dataArray response in
     ret (respond
            (JObject
               [("taskId", JString (GetCommentsArgs.taskId args));
                ("count", lengthOf comments);
                ("comments", JArray comments)]))).

Definition get_costs (args : GetCostsArgs.t)
  : Trace -> PostTask.ToolResult * Trace :=
  handle
    (if unbounded (GetCostsArgs.projectId args) (GetCostsArgs.taskId args)
          (GetCostsArgs.startDate args) (GetCostsArgs.endDate args)
          (GetCostsArgs.filter args)
     then ret (respondError (Error unboundedMessage))
     else
       let params := costsParams args in
       let* response := call net config "get_costs" (withParams params) in
       let costs := dataArray response in
       ret (respond (JObject [("count", lengthOf costs);
                              ("costs", JArray costs)]))).

Definition get_costs_total (args : GetCostsTotalArgs.t)
  : Trace -> PostTask.ToolResult * Trace :=
  handle
    (if unbounded (GetCostsTotalArgs.projectId args)
          (GetCostsTotalArgs.taskId args) (GetCostsTotalArgs.startDate args)
          (GetCostsTotalArgs.endDate args) (GetCostsTotalArgs.filter args)
     then ret (respondError (Error unboundedMessage))
     else
       let params := costsTotalParams args in
       let* response :=
         call net config "get_costs_total" (withParams params) in
       ret (respond (JObject [("totals", totalsOf response)]))).

Definition get_timers : Trace -> PostTask.ToolResult * Trace :=
  handle
    (let* response := call net config "get_timers" None in
     let timers := dataArray response in
     ret (respond (JObject [("count", lengthOf timers);
                            ("timers", JArray timers)]))).

(** A tool invoked by name with its arguments, and the handler
    [registerTools] registered under that name. *)
Inductive Invocation :=
| CallGetUsers
| CallGetProjects (args : ListProjectsArgs.t)
| CallGetProject (args : GetProjectArgs.t)
| CallGetTasks (args : ListProjectTasksArgs.t)
| CallGetTask (args : GetTaskArgs.t)
| CallPostTask (args : PostTask.CreateTaskArgs)
| CallPostComment (args : AddCommentArgs.t)
| CallGetComments (args : GetCommentsArgs.t)
| CallGetCosts (args : GetCostsArgs.t)
| CallGetCostsTotal (args : GetCostsTotalArgs.t)
| CallGetTimers.

Definition invoke (tool : Invocation) : Trace -> PostTask.ToolResult * Trace :=
  match tool with
  | CallGetUsers => get_users
  | CallGetProjects args => get_projects args
  | CallGetProject args => get_project args
  | CallGetTasks args => get_tasks args
  | CallGetTask args => get_task args
  | CallPostTask args => PostTask.post_task Buffer_from_base64 net config args
  | CallPostComment args => post_comment args
  | CallGetComments args => get_comments args
  | CallGetCosts args => get_costs args
  | CallGetCostsTotal args => get_costs_total args
  | CallGetTimers => get_timers
  end.

(** [completeProjectIds]: the identifiers offered to complete a project
    id, at most 25; any failure gives none. *)
Definition completeProjectIds (value : string) (tr : Trace)
  : list string * Trace :=
  match call net config "get_projects" None tr with
  | (Throw _, tr') => ([], tr')
  | (Return response, tr') =>
      let projects := dataArray response in
      match mapM idOf projects with
      | None => ([], tr')
      | Some ids =>
          let ids :=
            List.filter (fun id => negb (String.eqb id EmptyString)) ids in
          let prefix := value in
          let filtered :=
            if negb (String.eqb prefix EmptyString)
            then List.filter (fun id => Js.startsWith id prefix) ids
            else ids in
          (List.firstn 25 filtered, tr')
      end
  end.

End Handlers.

End Tools.

(** ** Loading the configuration ([src/config.ts]) *)

Module Config.

(** [process.env]: a variable holds a string or is not set. *)
Definition Env := string -> option string.

(** What [loadConfig] can throw. *)
Inductive Thrown :=
| ThrownError (message : string)
| ThrownTypeError
| ThrownZodError.

Inductive Result (A : Type) :=
| Loaded (a : A)
| Failed (e : Thrown).
Arguments Loaded {A} a.
Arguments Failed {A} e.

(** [value.KEY] for a value that is neither [null] nor [undefined]; [None]
    is [undefined]. *)
Definition property (key : string) (value : Json) : option Json :=
  match value with
  | JObject props => PostTask.lookup_prop key props
  | _ => None
  end.

Definition blobError (message : string) : Thrown :=
  ThrownError
    ("Failed to parse SLACK_APP_JETBASE_AGENT_PM_TEST: " +:+ message +:+ ". "
     +:+ "Provide a JSON blob with OAUTH_TOKENS.BOT_USER_OAUTH_TOKEN or use SLACK_FILE_BEARER_TOKEN.").

Section Platform.

(** [new URL(rawUrl).toString()], or [None] when the constructor throws. *)
Variable URL_href : string -> option string.
(** The [url] check of the schema. *)
Variable z_url : string -> bool.
(** [JSON.parse]: the value, or the message of the [SyntaxError]. *)
Variable JSON_parse : string -> Json + string.
(** The message of the [TypeError] raised by reading a property of
    [null]. *)
Variable null_read : string.

Definition normalizeAccountUrl (rawUrl : string) : Result string :=
  match URL_href rawUrl with
  | None => Failed ThrownTypeError
  | Some serialized =>
      Loaded (if Js.endsWith serialized "/" then serialized
              else serialized +:+ "/")
  end.

Definition extractSlackBotToken (env : Env) : Result (option string) :=
  let directToken := Js.trim <$> env "SLACK_FILE_BEARER_TOKEN" in
  if Js.truthy directToken then Loaded directToken
  else
    let slackAppBlob := env "SLACK_APP_JETBASE_AGENT_PM_TEST" in
    if negb (Js.truthy slackAppBlob) then Loaded None
    else
      match JSON_parse (default EmptyString slackAppBlob) with
      | inr message => Failed (blobError message)
      | inl JNull => Failed (blobError null_read)
      | inl parsed =>
          let nestedToken :=
            match property "OAUTH_TOKENS" parsed with
            | Some tokens => property "BOT_USER_OAUTH_TOKEN" tokens
            | None => None
            end in
          let fallbackToken := property "BOT_USER_OAUTH_TOKEN" parsed in
          let tokenCandidate :=
            match nestedToken with
            | Some (JString token) => Some token
            | _ =>
                match fallbackToken with
                | Some (JString token) => Some token
                | _ => None
                end
            end in
          let trimmed := Js.trim <$> tokenCandidate in
          Loaded (if Js.truthy trimmed then trimmed else None)
      end.

Definition loadConfig (env : Env) : Result WorksectionConfig :=
  let accountUrl := env "WORKSECTION_ACCOUNT_URL" in
  if negb (Js.truthy accountUrl) then
    Failed (ThrownError
              "Set WORKSECTION_ACCOUNT_URL to your Worksection workspace url, e.g. https://company.worksection.com")
  else
    let adminApiKey := Js.trim <$> env "WORKSECTION_ADMIN_API_KEY" in
    if negb (Js.truthy adminApiKey) then
      Failed (ThrownError
                "Set WORKSECTION_ADMIN_API_KEY to authenticate the MCP server.")
    else
      match normalizeAccountUrl (default EmptyString accountUrl) with
      | Failed e => Failed e
      | Loaded normalized =>
          match extractSlackBotToken env with
          | Failed e => Failed e
          | Loaded token =>
              if z_url normalized then
                Loaded {| accountUrl := normalized;
                          apiKey := default EmptyString adminApiKey;
                          slackBotToken := token |}
              else Failed ThrownZodError
          end
      end.

End Platform.

End Config.

(** ** The client over a store of objects

    The same methods, with the objects they receive and build held in a
    store: a parameter map, an attachments array, a descriptor and a
    [Buffer] are locations, so that two references to one object are one
    location, and every assignment of the source is a [store]. *)

Module Store.

Definition loc := positive.

(** A property of a parameter object: a primitive, [null], [undefined], or
    a reference to an array of primitives. *)
Inductive value :=
| Prim (p : Primitive)
| Ref (l : loc)
| Null
| Undefined.

Inductive body :=
| BodyText (s : string)
| BodyFormRef (form : loc).

Inductive object :=
| ObjParams (props : list (string * value))
| ObjList (items : list Primitive)
| ObjBuffer (bytes : list Z)
| ObjAttachment (field filename : string) (contentType : option string)
    (data : option loc) (sourceUrl : option string)
| ObjArray (elements : list loc)
| ObjOptions (method : option Method) (params attachments : option loc)
| ObjSearchParams (pairs : URLSearchParams.t)
| ObjHeaders (headers : Headers)
| ObjURL (url : URL.t)
| ObjFormData (form : FormData)
| ObjInit (method : option Method) (headers : loc) (body : option body).

Abbreviation heap := (gmap loc object).

(** Computations over the store and the trace. *)
Definition H (A : Type) : Type := heap -> Trace -> Outcome A * heap * Trace.

Definition retH {A} (a : A) : H A := fun h tr => (Return a, h, tr).

Definition throwH {A} (e : Exn) : H A := fun h tr => (Throw e, h, tr).

Definition bindH {A B} (m : H A) (k : A -> H B) : H B :=
  fun h tr =>
    match m h tr with
    | (Return a, h', tr') => k a h' tr'
    | (Throw e, h', tr') => (Throw e, h', tr')
    end.

Declare Scope store_scope.
Notation "'let*' x ':=' m 'in' k" := (bindH m (fun x => k))
  (at level 10, x name, m at level 100, k at level 200) : store_scope.
Notation "m ';;' k" := (bindH m (fun _ => k))
  (at level 100, k at level 200, right associativity) : store_scope.
Local Open Scope store_scope.

(** [new ...], an object or array literal: a location not yet in use. *)
Definition alloc (o : object) : H loc :=
  fun h tr => let l := fresh (dom h) in (Return l, <[l := o]> h, tr).

(** Reading a reference that holds no object of the expected shape does not
    happen in a well-typed program; it is a [TypeError] here. *)
Definition typeError {A} : H A := throwH (Error "TypeError").

Definition load (l : loc) : H object :=
  fun h tr =>
    match h !! l with
    | Some o => (Return o, h, tr)
    | None => (Throw (Error "TypeError"), h, tr)
    end.

Definition store (l : loc) (o : object) : H unit :=
  fun h tr => (Return tt, <[l := o]> h, tr).

Definition fetchH (net : Network) (info : RequestInfo) (init : RequestInit.t)
  : H FetchResult :=
  fun h tr => (Return (net tr info init), h, tr ++ [(info, init)]).

(** Typed reads. *)
Definition load_params (l : loc) : H (list (string * value)) :=
  let* o := load l in
  match o with ObjParams props => retH props | _ => typeError end.

Definition load_list (l : loc) : H (list Primitive) :=
  let* o := load l in
  match o with ObjList items => retH items | _ => typeError end.

Definition load_buffer (l : loc) : H (list Z) :=
  let* o := load l in
  match o with ObjBuffer bytes => retH bytes | _ => typeError end.

Definition load_array (l : loc) : H (list loc) :=
  let* o := load l in
  match o with ObjArray elements => retH elements | _ => typeError end.

Definition load_search (l : loc) : H URLSearchParams.t :=
  let* o := load l in
  match o with ObjSearchParams pairs => retH pairs | _ => typeError end.

Definition load_headers (l : loc) : H Headers :=
  let* o := load l in
  match o with ObjHeaders headers => retH headers | _ => typeError end.

Definition load_url (l : loc) : H URL.t :=
  let* o := load l in
  match o with ObjURL url => retH url | _ => typeError end.

Definition load_form (l : loc) : H FormData :=
  let* o := load l in
  match o with ObjFormData form => retH form | _ => typeError end.

(** [for (const x of xs) body(x)] and [xs.forEach((x, i) => body(x, i))]. *)
Fixpoint forEach {A} (body : A -> nat -> H unit) (xs : list A) (index : nat)
  : H unit :=
  match xs with
  | [] => retH tt
  | x :: rest => body x index ;; forEach body rest (S index)
  end.

(** [encoded.append(name, value)]. *)
Definition search_append (encoded : loc) (name value : string) : H unit :=
  let* pairs := load_search encoded in
  store encoded (ObjSearchParams (URLSearchParams.append pairs name value)).

(** [form.append(...)]. *)
Definition form_append (form : loc) (entry : FormEntry) : H unit :=
  let* entries := load_form form in
  store form (ObjFormData (entries ++ [entry])).

(** [payloads.push(payload)]. *)
Definition array_push (array : loc) (element : loc) : H unit :=
  let* elements := load_array array in
  store array (ObjArray (elements ++ [element])).

End Store.

(** The methods of the client over the store. *)
Module StoreClient.
Import Store.
Local Open Scope store_scope.

Section Client.
Variable net : Network.
Variable config : WorksectionConfig.

Definition prepareParams (params : option loc) : H loc :=
  let* props :=
    match params with
    | Some l => load_params l
    | None => retH []
    end in
  alloc (ObjParams (Js.spread props)).

Definition appendParam (encoded : loc) (key : string) (v : value) : H unit :=
  match v with
  | Undefined | Null => retH tt
  | Ref array =>
      let* items := load_list array in
      forEach
        (fun item index =>
           search_append encoded
             (key +:+ "[" +:+ Js.index_toString index +:+ "]")
             (coerceToString item))
        items 0
  | Prim p => search_append encoded key (coerceToString p)
  end.

Definition buildParamState (action : string) (params : loc)
  : H (loc * string) :=
  let* encoded := alloc (ObjSearchParams URLSearchParams.empty) in
  appendParam encoded "action" (Prim (PString action)) ;;
  let* props := load_params params in
  forEach (fun kv _ => appendParam encoded (fst kv) (snd kv))
    (Js.Object_entries props) 0 ;;
  let* pairs := load_search encoded in
  retH (encoded, URLSearchParams.toString pairs).

Definition fetchRemoteAttachment (url : string) : H loc :=
  let* headers := alloc (ObjHeaders []) in
  (if Js.truthy (slackBotToken config)
   then store headers
          (ObjHeaders
             [("Authorization",
               "Bearer " +:+ default EmptyString (slackBotToken config))])
   else retH tt) ;;
  let* sent := load_headers headers in
  let* result :=
    fetchH net (ToString url)
      {| RequestInit.method := None;
         RequestInit.headers := sent;
         RequestInit.body := None |} in
  match result with
  | Rejected message =>
      throwH (WorksectionApiError
                ("Failed to download attachment from " +:+ url +:+ ": "
                 +:+ message) None)
  | Resolved response =>
      if negb (Response.ok response) then
        throwH (WorksectionApiError
                  ("Downloading attachment failed ("
                   +:+ Js.Number_toString (Js.Number_of_Z (Response.status response)) +:+ "): "
                   +:+ Response.statusText response) None)
      else
        match Response.arrayBuffer response with
        | Throw e => throwH e
        | Return arrayBuffer =>
            if (List.length arrayBuffer =? 0)%nat then
              throwH (WorksectionApiError
                        ("Attachment at " +:+ url +:+ " is empty.") None)
            else alloc (ObjBuffer arrayBuffer)
        end
  end.

(** The body of the loop of [prepareAttachments]. *)
Definition resolveAttachment (payloads : loc) (attachment : loc) : H unit :=
  let* o := load attachment in
  match o with
  | ObjAttachment field filename contentType data sourceUrl =>
      if Js.present data && Js.truthy sourceUrl then
        throwH (WorksectionApiError
                  ("Attachment " +:+ Js.quote +:+ filename +:+ Js.quote
                   +:+ " cannot define both data and sourceUrl.") None)
      else
        let* buffer :=
          match data with
          | Some buffer => retH (Some buffer)
          | None =>
              if Js.truthy sourceUrl then
                let* fetched :=
                  fetchRemoteAttachment (default EmptyString sourceUrl) in
                retH (Some fetched)
              else retH None
          end in
        match buffer with
        | None =>
            throwH (WorksectionApiError
                      ("Attachment " +:+ Js.quote +:+ filename +:+ Js.quote
                       +:+ " must include base64 data or a download URL (sourceUrl).")
                      None)
        | Some buffer =>
            let* payload :=
              alloc (ObjAttachment field filename None (Some buffer) None) in
            (if Js.truthy contentType
             then store payload
                    (ObjAttachment field filename contentType (Some buffer)
                       None)
             else retH tt) ;;
            array_push payloads payload
        end
  | _ => typeError
  end.

Definition prepareAttachments (attachments : option loc) : H loc :=
  let* elements :=
    match attachments with
    | Some l => load_array l
    | None => retH []
    end in
  match elements with
  | [] => alloc (ObjArray [])
  | _ =>
      let* payloads := alloc (ObjArray []) in
      forEach (fun attachment _ => resolveAttachment payloads attachment)
        elements 0 ;;
      retH payloads
  end.

(** One binary part of the form: the bytes of the payload's buffer are
    copied into a [Blob]. *)
Definition appendFile (form : loc) (payload : loc) : H unit :=
  let* o := load payload in
  match o with
  | ObjAttachment field filename contentType (Some data) _ =>
      let* bytes := load_buffer data in
      form_append form
        (FormFile field
           (Blob.make bytes (default "application/octet-stream" contentType))
           filename)
  | _ => typeError
  end.

(** [fetch(endpoint, init)] reads the request out of the store. *)
Definition readRequest (endpoint init : loc)
  : H (RequestInfo * RequestInit.t) :=
  let* url := load_url endpoint in
  let* o := load init in
  match o with
  | ObjInit method headers body =>
      let* sent := load_headers headers in
      let* content :=
        match body with
        | None => retH None
        | Some (BodyText s) => retH (Some (BodyString s))
        | Some (BodyFormRef form) =>
            let* entries := load_form form in
            retH (Some (BodyForm entries))
        end in
      retH (ToURL url,
            {| RequestInit.method := method;
               RequestInit.headers := sent;
               RequestInit.body := content |})
  | _ => typeError
  end.

(** Interpreting the answer builds the envelope and touches nothing. *)
Definition interpret (result : FetchResult) : H Envelope.t :=
  fun h tr =>
    let '(out, tr') := interpretResponse result tr in (out, h, tr').

(** Lines 52 to 146 of [call]: build the request around the signed pairs
    held by [encoded], send it, and interpret the answer. *)
Definition send (method : Method) (hasAttachments : bool) (encoded : loc)
  (resolved : list loc) : H Envelope.t :=
  let* endpoint := alloc (ObjURL (URL.make ADMIN_PATH (accountUrl config))) in
  let* headers := alloc (ObjHeaders [("Accept", "application/json")]) in
  (if is_GET method || hasAttachments then
     let* pairs := load_search encoded in
     let* url := load_url endpoint in
     store endpoint
       (ObjURL (URL.set_search url (URLSearchParams.toString pairs)))
   else retH tt) ;;
  let* body :=
    if is_GET method then retH None
    else if hasAttachments then
      let* form := alloc (ObjFormData []) in
      let* pairs := load_search encoded in
      forEach (fun kv _ => form_append form (FormField (fst kv) (snd kv)))
        pairs 0 ;;
      forEach (fun payload _ => appendFile form payload) resolved 0 ;;
      retH (Some (BodyFormRef form))
    else
      let* pairs := load_search encoded in
      let* sent := load_headers headers in
      store headers
        (ObjHeaders
           (sent ++ [("Content-Type", "application/x-www-form-urlencoded")])) ;;
      retH (Some (BodyText (URLSearchParams.toString pairs))) in
  let* init := alloc (ObjInit (Some method) headers None) in
  (match body with
   | Some b => store init (ObjInit (Some method) headers (Some b))
   | None => retH tt
   end) ;;
  let* request := readRequest endpoint init in
  let* result := fetchH net (fst request) (snd request) in
  interpret result.

Definition call (action : string) (options : option loc) : H Envelope.t :=
  let* o :=
    match options with
    | Some l => load l
    | None => retH (ObjOptions None None None)
    end in
  match o with
  | ObjOptions requested params attachments =>
      let* payloads := prepareAttachments attachments in
      let* resolved := load_array payloads in
      let hasAttachments := (0 <? List.length resolved)%nat in
      let method := if hasAttachments then POST else default GET requested in
      let* next := prepareParams params in
      let* state := buildParamState action next in
      let encoded := fst state in
      let raw := snd state in
      let hash := MD5.hexdigest (raw +:+ apiKey config) in
      search_append encoded "hash" hash ;;
      send method hasAttachments encoded resolved
  | _ => typeError
  end.

End Client.

End StoreClient.

(** ** What the objects of a store denote

    The relations between the objects in a store and the values of the
    value-level client, and the vocabulary of the frame property. *)

Module StoreView.
Import Store.

Definition value_at (h : heap) (v : value) (pv : ParamValue) : Prop :=
  match v, pv with
  | Prim p, VPrimitive p' => p = p'
  | Null, VNull => True
  | Undefined, VUndefined => True
  | Ref l, VArray items => h !! l = Some (ObjList items)
  | _, _ => False
  end.

Definition prop_at (h : heap) (kv : string * value)
  (kpv : string * ParamValue) : Prop :=
  fst kv = fst kpv /\ value_at h (snd kv) (snd kpv).

Definition params_at (h : heap) (l : loc) (params : RequestParams) : Prop :=
  exists props,
    h !! l = Some (ObjParams props) /\ List.Forall2 (prop_at h) props params.

Definition buffer_at (h : heap) (l : option loc) (bytes : option (list Z))
  : Prop :=
  match l, bytes with
  | None, None => True
  | Some l, Some bytes => h !! l = Some (ObjBuffer bytes)
  | _, _ => False
  end.

Definition descriptor_at (h : heap) (l : loc) (a : AttachmentInput.t)
  : Prop :=
  exists data,
    h !! l
    = Some (ObjAttachment (AttachmentInput.field a)
              (AttachmentInput.filename a) (AttachmentInput.contentType a)
              data (AttachmentInput.sourceUrl a))
    /\ buffer_at h data (AttachmentInput.data a).

Definition payload_at (h : heap) (l : loc) (p : AttachmentPayload.t) : Prop :=
  exists buffer,
    h !! l
    = Some (ObjAttachment (AttachmentPayload.field p)
              (AttachmentPayload.filename p) (AttachmentPayload.contentType p)
              (Some buffer) None)
    /\ h !! buffer = Some (ObjBuffer (AttachmentPayload.data p)).

Definition attachments_at (h : heap) (l : loc)
  (attachments : list AttachmentInput.t) : Prop :=
  exists elements,
    h !! l = Some (ObjArray elements)
    /\ List.Forall2 (descriptor_at h) elements attachments.

Definition option_at {A B} (R : A -> B -> Prop) (a : option A)
  (b : option B) : Prop :=
  match a, b with
  | None, None => True
  | Some a, Some b => R a b
  | _, _ => False
  end.

Definition options_at (h : heap) (l : option loc)
  (options : option CallOptions.t) : Prop :=
  option_at
    (fun l o =>
       exists params attachments,
         h !! l = Some (ObjOptions (CallOptions.method o) params attachments)
         /\ option_at (params_at h) params (CallOptions.params o)
         /\ option_at (attachments_at h) attachments
              (CallOptions.attachments o))
    l options.

(** [off l h h']: apart from [l], every object of [h] is in [h'] as it is. *)
Definition off (l : loc) (h h' : heap) : Prop :=
  forall x o, x <> l -> h !! x = Some o -> h' !! x = Some o.


(** [keeps h0 m Q]: run from any store that extends [h0], [m] leaves every
    object of [h0] as it is, and the value it returns satisfies [Q]. *)
Definition keeps (h0 : heap) {A} (m : H A) (Q : A -> Prop) : Prop :=
  forall (h : heap) (tr : Trace),
    h0 ⊆ h ->
    h0 ⊆ snd (fst (m h tr))
    /\ forall a, fst (fst (m h tr)) = Return a -> Q a.

(** Not in the store [h0]. *)
Definition new (h0 : heap) (l : loc) : Prop := h0 !! l = None.

End StoreView.

(** ** The canonical query as the specification words it

    The action pair first; then one entry after the other: nothing for
    [null] and [undefined], one pair per element under [key[i]] for a
    list, one pair otherwise; a boolean is ["1"] or ["0"], any other scalar
    its string form. *)

Definition spec_scalar (p : Primitive) : string :=
  match p with
  | PBoolean true => "1"
  | PBoolean false => "0"
  | PString s => s
  | PNumber n => Js.Number_toString n
  end.

Definition spec_indexed_key (key : string) (i : nat) : string :=
  key +:+ "[" +:+ Js.index_toString i +:+ "]".

Definition spec_expand (kv : string * ParamValue) : list (string * string) :=
  match snd kv with
  | VNull | VUndefined => []
  | VPrimitive p => [(fst kv, spec_scalar p)]
  | VArray items =>
      imap (fun i item => (spec_indexed_key (fst kv) i, spec_scalar item)) items
  end.

Definition spec_canonicalPairs (action : string)
  (entries : list (string * ParamValue)) : list (string * string) :=
  ("action", action) :: List.flat_map spec_expand entries.

(** ** Vocabulary of the properties *)

(** The characters a serialized component is made of: what
    [URLSearchParams.unreserved] keeps, [+] for a space, and [%] with
    uppercase hexadecimal digits. *)
Definition component_char (c : ascii) : bool :=
  let b := Bytes.byte_of_ascii c in
  URLSearchParams.unreserved b || (b =? 43) || (b =? 37).

Fixpoint string_forall (P : ascii -> bool) (s : string) : bool :=
  match s with
  | EmptyString => true
  | String c s' => P c && string_forall P s'
  end.

(** Every sorted entry carries the index its key denotes. *)
Definition indexed {V : Type} (ie : Z * (string * V)) : Prop :=
  Js.array_index (fst (snd ie)) = Some (fst ie).

Definition ascending {V : Type} (s : list (Z * (string * V))) : Prop :=
  StronglySorted (fun a b => fst a <= fst b) s.

(** How a resolved payload relates to its descriptor. *)
Definition resolves (attachment : AttachmentInput.t)
  (payload : AttachmentPayload.t) : Prop :=
  AttachmentPayload.field payload = AttachmentInput.field attachment
  /\ AttachmentPayload.filename payload = AttachmentInput.filename attachment
  /\ AttachmentPayload.contentType payload
     = (if Js.truthy (AttachmentInput.contentType attachment)
        then AttachmentInput.contentType attachment else None)
  /\ match AttachmentInput.data attachment with
     | Some data => AttachmentPayload.data payload = data
     | None => Js.truthy (AttachmentInput.sourceUrl attachment) = true
     end.

(** The request as the specification words it: multipart POST as soon as a
    payload is present; otherwise the requested method, GET by default,
    with the signed parameters in the query string for GET and in a
    url-encoded body for anything else. *)
Definition spec_request (config : WorksectionConfig) (action : string)
  (options : option CallOptions.t) (payloads : list AttachmentPayload.t)
  : RequestInfo * RequestInit.t :=
  let pairs := signParams config action (options ≫= CallOptions.params) in
  let signed := URLSearchParams.toString pairs in
  let endpoint := URL.make ADMIN_PATH (accountUrl config) in
  let accept := ("Accept", "application/json") in
  match payloads with
  | _ :: _ =>
      (ToURL (URL.set_search endpoint signed),
       {| RequestInit.method := Some POST;
          RequestInit.headers := [accept];
          RequestInit.body := Some (BodyForm (buildForm pairs payloads)) |})
  | [] =>
      match default GET (options ≫= CallOptions.method) with
      | GET =>
          (ToURL (URL.set_search endpoint signed),
           {| RequestInit.method := Some GET;
              RequestInit.headers := [accept];
              RequestInit.body := None |})
      | POST =>
          (ToURL endpoint,
           {| RequestInit.method := Some POST;
              RequestInit.headers :=
                [accept;
                 ("Content-Type", "application/x-www-form-urlencoded")];
              RequestInit.body := Some (BodyString signed) |})
      end
  end.

(** The binary part built for a descriptor: generic binary content type
    unless the descriptor names one, which the [Blob] then holds in lower
    case, or empty when it has a character outside U+0020..U+007E. *)
Definition spec_filePart (attachment : AttachmentInput.t)
  (payload : AttachmentPayload.t) : FormEntry :=
  FormFile (AttachmentInput.field attachment)
    {| Blob.bytes := AttachmentPayload.data payload;
       Blob.type :=
         if Js.truthy (AttachmentInput.contentType attachment)
         then Blob.normalize
                (default EmptyString (AttachmentInput.contentType attachment))
         else "application/octet-stream" |}
    (AttachmentInput.filename attachment).

(** The message of an application error as the specification words it: the
    body's message (or a default when it has none, or [null]), then the
    field detail, then the format hint, each only when present and truthy;
    every part is the string form of the value found.  There is no message
    ([None]) when a part has no string form. *)
Definition spec_part (before : string) (value : option Json)
  (after : string -> string) : option string :=
  if Json_truthy value
  then (fun text => before +:+ after text)
       <$> Json_toString (default JNull value)
  else Some EmptyString.

Definition spec_errorMessage (json : Envelope.t) : option string :=
  match
    match Envelope.message json with
    | None | Some JNull => Some "Worksection API returned an error"
    | Some message => Json_toString message
    end,
    spec_part " (field: " (Envelope.message_details json)
      (fun detail => detail +:+ ")"),
    spec_part ". Expected format: " (Envelope.test json) Js.trim
  with
  | Some message, Some detail, Some hint => Some (message +:+ detail +:+ hint)
  | _, _, _ => None
  end.

(** What the client throws for a 2xx body whose status is not ["ok"]:
    reading [status] on [null] is a [TypeError]; so is the conversion of a
    part that has no string form; any other body gives the application
    error with its message and the body's error code. *)
Definition spec_failure (json : Envelope.t) : Exn :=
  match json with
  | JNull => TypeError (Js.null_read "status")
  | _ =>
      match spec_errorMessage json with
      | Some message =>
          WorksectionApiError message (Envelope.status_code json)
      | None => TypeError Js.not_primitive
      end
  end.

(** What the client makes of a 2xx answer whose body parses. *)
Definition parsedOutcome (json : Envelope.t) : Outcome Envelope.t :=
  if bool_decide (Envelope.status json = Some "ok") then Return json
  else Throw (spec_failure json).

(** The answer the network gives to the one API request of a call. *)
Definition answers (net : Network) (config : WorksectionConfig)
  (action : string) (options : option CallOptions.t) (tr : Trace)
  (result : FetchResult) : Prop :=
  exists payloads tr1,
    prepareAttachments net config (options ≫= CallOptions.attachments) tr
    = (Return payloads, tr1)
    /\ net tr1 (fst (buildRequest config action options payloads))
         (snd (buildRequest config action options payloads))
       = result.

(** Both sources set, or none.  A source URL is set when it is a non-empty
    string; inline data is set when a [Buffer] is present. *)
Definition ambiguous (attachment : AttachmentInput.t) : bool :=
  Js.present (AttachmentInput.data attachment)
  && Js.truthy (AttachmentInput.sourceUrl attachment).

Definition unresolvable (attachment : AttachmentInput.t) : bool :=
  negb (Js.present (AttachmentInput.data attachment))
  && negb (Js.truthy (AttachmentInput.sourceUrl attachment)).

Definition unsendable (attachment : AttachmentInput.t) : bool :=
  ambiguous attachment || unresolvable attachment.

Definition inline (attachment : AttachmentInput.t) : bool :=
  Js.present (AttachmentInput.data attachment)
  && negb (Js.truthy (AttachmentInput.sourceUrl attachment)).

(** The caller error raised for an unsendable descriptor. *)
Definition callerError (attachment : AttachmentInput.t) : Exn :=
  WorksectionApiError
    ("Attachment " +:+ Js.quote +:+ AttachmentInput.filename attachment
     +:+ Js.quote
     +:+ (if ambiguous attachment
          then " cannot define both data and sourceUrl."
          else " must include base64 data or a download URL (sourceUrl)."))
    None.

(** The download request of [fetchRemoteAttachment]. *)
Definition downloadRequest (config : WorksectionConfig) (url : string)
  : RequestInfo * RequestInit.t :=
  (ToString url,
   {| RequestInit.method := None;
      RequestInit.headers :=
        match slackBotToken config with
        | Some (String c token) =>
            [("Authorization", "Bearer " +:+ String c token)]
        | _ => []
        end;
      RequestInit.body := None |}).

(** A request that downloads the source of one of [attachments]. *)
Definition downloadOf (config : WorksectionConfig)
  (attachments : list AttachmentInput.t) (req : RequestInfo * RequestInit.t)
  : Prop :=
  exists attachment url,
    In attachment attachments
    /\ AttachmentInput.data attachment = None
    /\ AttachmentInput.sourceUrl attachment = Some url
    /\ req = downloadRequest config url.

(** The message [post_task] answers for inline data that cannot be used. *)
Definition inlineError (filename reason : string) : string :=
  "Attachment " +:+ Js.quote +:+ filename +:+ Js.quote +:+ reason.

(** ** Sample inputs *)

Definition sample_config : WorksectionConfig :=
  {| accountUrl := "https://acme.worksection.com/"; apiKey := "secret";
     slackBotToken := None |}.


Definition sample_response (status : Z) (statusText : string)
  (json : JsonResult) : Response.t :=
  {| Response.status := status; Response.statusText := statusText;
     Response.text := Return EmptyString; Response.json := json;
     Response.arrayBuffer := Return [] |}.

Definition sample_ok_envelope : Envelope.t :=
  JObject [("status", JString "ok");
           ("data", JArray [JObject [("id", JString "1")]])].

Definition sample_missing_status : Envelope.t :=
  JObject [("status_code", JNumber (Js.Number_of_Z 10)); ("data", JArray [])].

Definition sample_remote : AttachmentInput.t :=
  {| AttachmentInput.field := "attach[0]";
     AttachmentInput.filename := "a.png";
     AttachmentInput.contentType := None;
     AttachmentInput.data := None;
     AttachmentInput.sourceUrl := Some "https://files.example.com/a.png" |}.

Definition sample_remote_png : AttachmentInput.t :=
  {| AttachmentInput.field := "attach[0]";
     AttachmentInput.filename := "a.png";
     AttachmentInput.contentType := Some "Image/PNG";
     AttachmentInput.data := None;
     AttachmentInput.sourceUrl := Some "https://files.example.com/a.png" |}.




(** A file server that answers its first request with one byte and every
    later one with 404. *)
Definition sample_once : Network :=
  fun tr _ _ =>
    match tr with
    | [] =>
        Resolved {| Response.status := 200; Response.statusText := "OK";
                    Response.text := Return EmptyString;
                    Response.json := JsonRejected "Unexpected token";
                    Response.arrayBuffer := Return [7] |}
    | _ =>
        Resolved {| Response.status := 404;
                    Response.statusText := "Not Found";
                    Response.text := Return "no such file";
                    Response.json := JsonRejected "Unexpected token";
                    Response.arrayBuffer :=
                      Return (Bytes.of_string "no such file") |}
    end.

Definition sample_inline : AttachmentInput.t :=
  {| AttachmentInput.field := "attach[0]";
     AttachmentInput.filename := "notes.txt";
     AttachmentInput.contentType := Some "text/plain";
     AttachmentInput.data := Some [104; 105];
     AttachmentInput.sourceUrl := None |}.

Definition sample_both : AttachmentInput.t :=
  {| AttachmentInput.field := "attach[1]";
     AttachmentInput.filename := "b.png";
     AttachmentInput.contentType := None;
     AttachmentInput.data := Some [1];
     AttachmentInput.sourceUrl := Some "https://files.example.com/b.png" |}.

Definition sample_neither : AttachmentInput.t :=
  {| AttachmentInput.field := "attach[1]";
     AttachmentInput.filename := "c.png";
     AttachmentInput.contentType := None;
     AttachmentInput.data := None;
     AttachmentInput.sourceUrl := None |}.

Definition sample_attachments (attachments : list AttachmentInput.t)
  : option CallOptions.t :=
  Some {| CallOptions.method := Some POST;
          CallOptions.params := None;
          CallOptions.attachments := Some attachments |}.

(** A network on which every download succeeds with one byte. *)
Definition sample_file_server : Network :=
  fun _ _ _ =>
    Resolved {| Response.status := 200; Response.statusText := "OK";
                Response.text := Return EmptyString;
                Response.json := JsonRejected "Unexpected token";
                Response.arrayBuffer := Return [7] |}.

(** A file server that answers 404 to every download. *)
Definition sample_not_found : Network :=
  fun _ _ _ =>
    Resolved {| Response.status := 404; Response.statusText := "Not Found";
                Response.text := Return "no such file";
                Response.json := JsonRejected "Unexpected token";
                Response.arrayBuffer :=
                  Return (Bytes.of_string "no such file") |}.

(** The decoder of the handler at run time. *)
Definition sample_base64 (s : string) : option (list Z) :=
  Some (Buffer.from_base64 s).

Definition sample_task (attachments : list PostTask.AttachmentArg)
  : PostTask.CreateTaskArgs :=
  {| PostTask.projectId := "12"; PostTask.title := "Report";
     PostTask.description := None; PostTask.parentTaskId := None;
     PostTask.assigneeEmail := None; PostTask.priority := Some (Js.Number_of_Z 5);
     PostTask.startDate := Some "2025-03-01"; PostTask.dueDate := None;
     PostTask.checklist := None; PostTask.subscribeEmails := None;
     PostTask.visibilityEmails := None; PostTask.mentionEmails := None;
     PostTask.estimateHours := None; PostTask.budget := None;
     PostTask.tags := Some ["a"; "b"];
     PostTask.attachments := Some attachments |}.

(** 1.5 is the digits 15 with one of them before the point; 1e21 is the digit
    1 followed by twenty-one zeros. *)
Definition sample_estimated_task : PostTask.CreateTaskArgs :=
  {| PostTask.projectId := "12"; PostTask.title := "Report";
     PostTask.description := None; PostTask.parentTaskId := None;
     PostTask.assigneeEmail := None;
     PostTask.priority := Some (Js.Number_of_Z 5);
     PostTask.startDate := None; PostTask.dueDate := None;
     PostTask.checklist := Some ["draft"; "review"];
     PostTask.subscribeEmails := Some ["a@x.io"; "b@x.io"; "c@x.io"];
     PostTask.visibilityEmails := Some [];
     PostTask.mentionEmails := None;
     PostTask.estimateHours := Some (Js.Finite false 15 1);
     PostTask.budget := Some (Js.Finite false 1 22);
     PostTask.tags := Some ["a"; "b"];
     PostTask.attachments := None |}.

Definition sample_empty_arg : PostTask.AttachmentArg :=
  {| PostTask.filename := "empty.bin";
     PostTask.data := Some "====";
     PostTask.sourceUrl := None;
     PostTask.contentType := None |}.

Definition sample_garbled_arg : PostTask.AttachmentArg :=
  {| PostTask.filename := "notes.txt";
     PostTask.data := Some "this is not base64 !!! %%%";
     PostTask.sourceUrl := None;
     PostTask.contentType := None |}.

(** A store holding options with a parameter map, a list-valued parameter,
    an inline attachment and a remote one. *)
Definition sample_store : Store.heap :=
  list_to_map
    [(1%positive,
      Store.ObjOptions (Some GET) (Some 2%positive) (Some 4%positive));
     (2%positive,
      Store.ObjParams
        [("title", Store.Prim (PString "t")); ("todo", Store.Ref 3%positive)]);
     (3%positive, Store.ObjList [PString "x"; PBoolean true]);
     (4%positive, Store.ObjArray [5%positive; 7%positive]);
     (5%positive,
      Store.ObjAttachment "attach[0]" "a.txt" (Some "text/plain")
        (Some 6%positive) None);
     (6%positive, Store.ObjBuffer [1; 2]);
     (7%positive,
      Store.ObjAttachment "attach[1]" "b.txt" None None
        (Some "https://files.example.com/b.txt"))].

Definition sample_store_options : CallOptions.t :=
  {| CallOptions.method := Some GET;
     CallOptions.params :=
       Some [("title", VPrimitive (PString "t"));
             ("todo", VArray [PString "x"; PBoolean true])];
     CallOptions.attachments :=
       Some [{| AttachmentInput.field := "attach[0]";
                AttachmentInput.filename := "a.txt";
                AttachmentInput.contentType := Some "text/plain";
                AttachmentInput.data := Some [1; 2];
                AttachmentInput.sourceUrl := None |};
             {| AttachmentInput.field := "attach[1]";
                AttachmentInput.filename := "b.txt";
                AttachmentInput.contentType := None;
                AttachmentInput.data := None;
                AttachmentInput.sourceUrl :=
                  Some "https://files.example.com/b.txt" |}] |}.

(** ** Vocabulary and samples for the tools and the configuration *)

(** The payload built for a descriptor once its bytes are known. *)
Definition payloadOf (attachment : AttachmentInput.t) (bytes : list Z)
  : AttachmentPayload.t :=
  {| AttachmentPayload.field := AttachmentInput.field attachment;
     AttachmentPayload.filename := AttachmentInput.filename attachment;
     AttachmentPayload.data := bytes;
     AttachmentPayload.contentType :=
       if Js.truthy (AttachmentInput.contentType attachment)
       then AttachmentInput.contentType attachment
       else None |}.

Definition inlinePayload (attachment : AttachmentInput.t)
  : AttachmentPayload.t :=
  payloadOf attachment (default [] (AttachmentInput.data attachment)).

(** An answer to a download that [fetchRemoteAttachment] turns into an
    error: a rejection, a status outside 200..299, or no byte. *)
Definition refused (result : FetchResult) : bool :=
  match result with
  | Rejected _ => true
  | Resolved response =>
      negb (Response.ok response)
      || match Response.arrayBuffer response with
         | Throw _ => true
         | Return bytes => (List.length bytes =? 0)%nat
         end
  end.

(** The pair sent for an optional value: none when it is absent. *)
Definition spec_optional (key : string) (value : option string)
  : list (string * string) :=
  match value with
  | Some v => [(key, v)]
  | None => []
  end.

(** An attachment of [post_task] that its handler accepts: data that
    decodes to at least one byte, or else a source URL. *)
Definition usable (decode : string -> option (list Z))
  (attachment : PostTask.AttachmentArg) : bool :=
  match PostTask.data attachment with
  | Some EmptyString | None => Js.truthy (PostTask.sourceUrl attachment)
  | Some text =>
      match decode text with
      | Some (_ :: _) => true
      | _ => false
      end
  end.

(** The descriptor handed to the client for the attachment at position
    [index]: the decoded bytes when the attachment gives data, its source
    URL otherwise. *)
Definition spec_descriptor (decode : string -> option (list Z))
  (index : nat) (attachment : PostTask.AttachmentArg) : AttachmentInput.t :=
  {| AttachmentInput.field := "attach[" +:+ Js.index_toString index +:+ "]";
     AttachmentInput.filename := PostTask.filename attachment;
     AttachmentInput.contentType :=
       match PostTask.contentType attachment with
       | Some EmptyString | None => None
       | Some type => Some type
       end;
     AttachmentInput.data :=
       match PostTask.data attachment with
       | Some EmptyString | None => None
       | Some text => decode text
       end;
     AttachmentInput.sourceUrl :=
       match PostTask.data attachment with
       | Some EmptyString | None => PostTask.sourceUrl attachment
       | Some _ => None
       end |}.

(** A list of addresses or of tags as one value: its items separated by a
    comma and a space; none when the list is absent or empty. *)
Fixpoint spec_joined (first : string) (others : list string) : string :=
  match others with
  | [] => first
  | second :: rest => first +:+ ", " +:+ spec_joined second rest
  end.

Definition spec_list (values : option (list string)) : option string :=
  match values with
  | Some (first :: others) => Some (spec_joined first others)
  | _ => None
  end.

(** The pairs [post_task] has signed, as a list of wire fields: numbers in
    the decimal form of JavaScript, dates as [formatWsDate] gives them. *)
Definition spec_taskFields (args : PostTask.CreateTaskArgs)
  : list (string * string) :=
  [("action", "post_task");
   ("id_project", PostTask.projectId args);
   ("title", PostTask.title args)]
  ++ spec_optional "text" (PostTask.description args)
  ++ spec_optional "id_parent" (PostTask.parentTaskId args)
  ++ spec_optional "email_user_to" (PostTask.assigneeEmail args)
  ++ spec_optional "priority" (Js.Number_toString <$> PostTask.priority args)
  ++ spec_optional "datestart" (PostTask.formatWsDate (PostTask.startDate args))
  ++ spec_optional "dateend" (PostTask.formatWsDate (PostTask.dueDate args))
  ++ spec_optional "subscribe"
       (spec_list (PostTask.subscribeEmails args))
  ++ spec_optional "hidden"
       (spec_list (PostTask.visibilityEmails args))
  ++ spec_optional "mention"
       (spec_list (PostTask.mentionEmails args))
  ++ spec_optional "max_time"
       (Js.Number_toString <$> PostTask.estimateHours args)
  ++ spec_optional "max_money" (Js.Number_toString <$> PostTask.budget args)
  ++ spec_optional "tags" (spec_list (PostTask.tags args))
  ++ imap (fun i item => (spec_indexed_key "todo" i, item))
       (default [] (PostTask.checklist args)).

(** [yyyy-mm-dd] and [dd.mm.yyyy] over the same eight characters. *)
Definition isoDate (y1 y2 y3 y4 m1 m2 d1 d2 : ascii) : string :=
  string_of_list_ascii [y1; y2; y3; y4; "-"%char; m1; m2; "-"%char; d1; d2].

Definition dottedDate (y1 y2 y3 y4 m1 m2 d1 d2 : ascii) : string :=
  string_of_list_ascii [d1; d2; "."%char; m1; m2; "."%char; y1; y2; y3; y4].

Definition sample_dated_task (startDate : string) : PostTask.CreateTaskArgs :=
  {| PostTask.projectId := "12"; PostTask.title := "Report";
     PostTask.description := None; PostTask.parentTaskId := None;
     PostTask.assigneeEmail := None; PostTask.priority := None;
     PostTask.startDate := Some startDate; PostTask.dueDate := None;
     PostTask.checklist := Some ["draft"; "send"];
     PostTask.subscribeEmails := None;
     PostTask.visibilityEmails := None; PostTask.mentionEmails := None;
     PostTask.estimateHours := None; PostTask.budget := None;
     PostTask.tags := Some ["a"; "b"];
     PostTask.attachments := None |}.

Definition sample_both_arg : PostTask.AttachmentArg :=
  {| PostTask.filename := "hello.txt";
     PostTask.data := Some "aGVsbG8=";
     PostTask.sourceUrl := Some "https://files.example.com/hello.txt";
     PostTask.contentType := Some "text/plain" |}.

Definition sample_remote_arg : PostTask.AttachmentArg :=
  {| PostTask.filename := "a.png";
     PostTask.data := None;
     PostTask.sourceUrl := Some "https://files.example.com/a.png";
     PostTask.contentType := None |}.

(** A GET to the admin endpoint of the account with the given query
    string, asking for JSON, without a body. *)
Definition adminGET (config : WorksectionConfig) (search : string)
  : RequestInfo * RequestInit.t :=
  (ToURL {| URL.input := ADMIN_PATH; URL.base := accountUrl config;
            URL.search := search |},
   {| RequestInit.method := Some GET;
      RequestInit.headers := [("Accept", "application/json")];
      RequestInit.body := None |}).

(** The API action behind each tool, the parameters its handler passes,
    and the invocations a handler answers by itself. *)
Definition actionOf (tool : Tools.Invocation) : string :=
  match tool with
  | Tools.CallGetUsers => "get_users"
  | Tools.CallGetProjects _ => "get_projects"
  | Tools.CallGetProject _ => "get_project"
  | Tools.CallGetTasks _ => "get_tasks"
  | Tools.CallGetTask _ => "get_task"
  | Tools.CallPostTask _ => "post_task"
  | Tools.CallPostComment _ => "post_comment"
  | Tools.CallGetComments _ => "get_comments"
  | Tools.CallGetCosts _ => "get_costs"
  | Tools.CallGetCostsTotal _ => "get_costs_total"
  | Tools.CallGetTimers => "get_timers"
  end.

Definition paramsOf (tool : Tools.Invocation) : option RequestParams :=
  match tool with
  | Tools.CallGetUsers | Tools.CallGetTimers => None
  | Tools.CallGetProjects args => Some (Tools.projectsParams args)
  | Tools.CallGetProject args => Some (Tools.projectParams args)
  | Tools.CallGetTasks args => Some (Tools.tasksParams args)
  | Tools.CallGetTask args => Some (Tools.taskParams args)
  | Tools.CallPostTask args => Some (PostTask.buildParams args)
  | Tools.CallPostComment args => Some (Tools.commentParams args)
  | Tools.CallGetComments args => Some (Tools.commentsParams args)
  | Tools.CallGetCosts args => Some (Tools.costsParams args)
  | Tools.CallGetCostsTotal args => Some (Tools.costsTotalParams args)
  end.

Definition absent {A} (items : option (list A)) : bool :=
  match items with
  | Some (_ :: _) => false
  | _ => true
  end.

Definition declined (tool : Tools.Invocation) : bool :=
  match tool with
  | Tools.CallPostComment args =>
      negb (Js.truthy (Tools.AddCommentArgs.text args))
      && absent (Tools.AddCommentArgs.checklist args)
  | Tools.CallGetCosts args =>
      negb (Js.truthy (Tools.GetCostsArgs.projectId args))
      && negb (Js.truthy (Tools.GetCostsArgs.taskId args))
      && negb (Js.truthy (Tools.GetCostsArgs.startDate args))
      && negb (Js.truthy (Tools.GetCostsArgs.endDate args))
      && negb (Js.truthy (Tools.GetCostsArgs.filter args))
  | Tools.CallGetCostsTotal args =>
      negb (Js.truthy (Tools.GetCostsTotalArgs.projectId args))
      && negb (Js.truthy (Tools.GetCostsTotalArgs.taskId args))
      && negb (Js.truthy (Tools.GetCostsTotalArgs.startDate args))
      && negb (Js.truthy (Tools.GetCostsTotalArgs.endDate args))
      && negb (Js.truthy (Tools.GetCostsTotalArgs.filter args))
  | _ => false
  end.

Definition withoutAttachments (tool : Tools.Invocation) : bool :=
  match tool with
  | Tools.CallPostTask args => absent (PostTask.attachments args)
  | _ => true
  end.

(** A network on which the API answers every request with the sample
    success envelope. *)
Definition sample_api : Network :=
  fun _ _ _ =>
    Resolved (sample_response 200 "OK" (JsonParsed sample_ok_envelope)).

Definition sample_comment (text : option string) (checklist : option (list string))
  : Tools.AddCommentArgs.t :=
  {| Tools.AddCommentArgs.taskId := "77";
     Tools.AddCommentArgs.text := text;
     Tools.AddCommentArgs.checklist := checklist;
     Tools.AddCommentArgs.visibilityEmails := None;
     Tools.AddCommentArgs.mentionEmails := None |}.

Definition sample_costs (projectId taskId : option string)
  (include : option (list string)) : Tools.GetCostsTotalArgs.t :=
  {| Tools.GetCostsTotalArgs.projectId := projectId;
     Tools.GetCostsTotalArgs.taskId := taskId;
     Tools.GetCostsTotalArgs.startDate := None;
     Tools.GetCostsTotalArgs.endDate := None;
     Tools.GetCostsTotalArgs.isTimer := Some true;
     Tools.GetCostsTotalArgs.filter := None;
     Tools.GetCostsTotalArgs.include := include |}.

(** The pairs under the key [extra]. *)
Definition isExtra (kv : string * string) : bool :=
  String.eqb (fst kv) "extra".

(** A project list with a [null] among the projects. *)
Definition sample_null_envelope : Envelope.t :=
  JObject [("status", JString "ok");
           ("data",
            JArray [JObject [("id", JNumber (Js.Number_of_Z 12))]; JNull])].

Definition sample_null_project : Network :=
  fun _ _ _ =>
    Resolved (sample_response 200 "OK" (JsonParsed sample_null_envelope)).

(** A sample environment and platform for [loadConfig]: the blob holds a
    blank nested token and a top-level one. *)
Definition sample_blob : string :=
  "{" +:+ Js.quote +:+ "OAUTH_TOKENS" +:+ Js.quote +:+ ":{"
  +:+ Js.quote +:+ "BOT_USER_OAUTH_TOKEN" +:+ Js.quote +:+ ":"
  +:+ Js.quote +:+ "  " +:+ Js.quote +:+ "},"
  +:+ Js.quote +:+ "BOT_USER_OAUTH_TOKEN" +:+ Js.quote +:+ ":"
  +:+ Js.quote +:+ "xoxb-1" +:+ Js.quote +:+ "}".

Definition sample_parse (text : string) : Json + string :=
  if String.eqb text sample_blob then
    inl (JObject
           [("OAUTH_TOKENS", JObject [("BOT_USER_OAUTH_TOKEN", JString "  ")]);
            ("BOT_USER_OAUTH_TOKEN", JString "xoxb-1")])
  else if String.eqb text "null" then inl JNull
  else inr "Unexpected token".

Definition sample_href (rawUrl : string) : option string :=
  if String.prefix "https://" rawUrl then Some rawUrl else None.

Definition sample_null_read : string :=
  "Cannot read properties of null (reading 'BOT_USER_OAUTH_TOKEN')".

Definition sample_env (direct blob : option string) : Config.Env :=
  fun name =>
    if String.eqb name "WORKSECTION_ACCOUNT_URL"
    then Some "https://acme.worksection.com"
    else if String.eqb name "WORKSECTION_ADMIN_API_KEY" then Some " secret "
    else if String.eqb name "SLACK_FILE_BEARER_TOKEN" then direct
    else if String.eqb name "SLACK_APP_JETBASE_AGENT_PM_TEST" then blob
    else None.

(** An environment whose account URL is not a URL and whose key is blank. *)
Definition sample_keyless_env : Config.Env :=
  fun name =>
    if String.eqb name "WORKSECTION_ACCOUNT_URL" then Some "not a url"
    else if String.eqb name "WORKSECTION_ADMIN_API_KEY" then Some "   "
    else None.

(** The inverse of the serializer, for reading a query string back:
    percent-decoding, and splitting at a separator. *)
Definition hex_value (c : ascii) : Z :=
  let b := Bytes.byte_of_ascii c in
  if (48 <=? b) && (b <=? 57) then b - 48
  else if (65 <=? b) && (b <=? 70) then b - 55
  else b - 87.

Fixpoint urldecode (s : string) : string :=
  match s with
  | EmptyString => EmptyString
  | String c s' =>
      if Ascii.eqb c "%" then
        match s' with
        | String h1 (String h2 rest) =>
            String (Bytes.ascii_of_byte (16 * hex_value h1 + hex_value h2))
              (urldecode rest)
        | _ => s'
        end
      else String (if Ascii.eqb c "+" then " "%char else c) (urldecode s')
  end.

Fixpoint splitOn (sep : ascii) (s : string) : list string :=
  match s with
  | EmptyString => [EmptyString]
  | String c s' =>
      if Ascii.eqb c sep then EmptyString :: splitOn sep s'
      else match splitOn sep s' with
           | first :: others => String c first :: others
           | [] => [String c EmptyString]
           end
  end.

Definition parsePair (component : string) : string * string :=
  match splitOn "=" component with
  | [name; value] => (urldecode name, urldecode value)
  | _ => (EmptyString, EmptyString)
  end.

Definition parseQuery (query : string) : list (string * string) :=
  match query with
  | EmptyString => []
  | _ => List.map parsePair (splitOn "&" query)
  end.

Definition differs (sep : ascii) (c : ascii) : bool := negb (Ascii.eqb c sep).

(* ================================================================= *)
(** * Properties *)

(** ** Sanity checks of the platform model *)

Example md5_empty :
  MD5.hexdigest EmptyString = "d41d8cd98f00b204e9800998ecf8427e".
Proof. vm_compute. reflexivity. Qed.

Example md5_abc :
  MD5.hexdigest "abc" = "900150983cd24fb0d6963f7d28e17f72".
Proof. vm_compute. reflexivity. Qed.

Example md5_fox :
  MD5.hexdigest "The quick brown fox jumps over the lazy dog"
  = "9e107d9d372bb6826bd81d3542a419d6".
Proof. vm_compute. reflexivity. Qed.

Example md5_two_blocks :
  MD5.hexdigest
    "12345678901234567890123456789012345678901234567890123456789012345678901234567890"
  = "57edf4a22be3c955ac49da2e2107b67a".
Proof. vm_compute. reflexivity. Qed.

Example urlencode_reserved :
  URLSearchParams.toString [("tags[0]", "a b&c=d~"); ("x", "*-._")]
  = "tags%5B0%5D=a+b%26c%3Dd%7E&x=*-._".
Proof. vm_compute. reflexivity. Qed.

Example trim_both_ends :
  Js.trim (String (ascii_of_nat 10) "  YYYY-MM-DD  ") = "YYYY-MM-DD".
Proof. vm_compute. reflexivity. Qed.

Example entries_index_keys_first :
  Js.Object_entries [("b", 1); ("10", 2); ("2", 3); ("a", 4); ("01", 5)]
  = [("2", 3); ("10", 2); ("b", 1); ("a", 4); ("01", 5)].
Proof. vm_compute. reflexivity. Qed.

(** ** Strings *)

#[local] Arguments String.append !_ _ / : simpl nomatch.

Lemma append_nil_r (s : string) : s +:+ EmptyString = s.
Proof. induction s as [|c s IH]; cbn; [reflexivity | now rewrite IH]. Qed.

Lemma append_assoc (s1 s2 s3 : string) :
  (s1 +:+ s2) +:+ s3 = s1 +:+ (s2 +:+ s3).
Proof. induction s1 as [|c s1 IH]; cbn; [reflexivity | now rewrite IH]. Qed.

Lemma length_append (s1 s2 : string) :
  String.length (s1 +:+ s2) = (String.length s1 + String.length s2)%nat.
Proof. induction s1 as [|c s1 IH]; cbn; [reflexivity | now rewrite IH]. Qed.

Lemma append_cancel_l (s a b : string) : s +:+ a = s +:+ b -> a = b.
Proof.
  induction s as [|c s IH]; cbn; [auto|]. intros [= H]. auto.
Qed.

Lemma prefix_append (s t : string) : String.prefix s (s +:+ t) = true.
Proof.
  induction s as [|c s IH]; cbn.
  - now destruct t.
  - destruct (ascii_dec c c) as [_|Hne]; [exact IH | now destruct Hne].
Qed.

Lemma includes_unfold (needle hay : string) :
  Js.includes needle hay
  = String.prefix needle hay
    || match hay with
       | EmptyString => false
       | String _ hay' => Js.includes needle hay'
       end.
Proof. destruct hay; reflexivity. Qed.

Lemma includes_prefix (s t : string) : Js.includes s (s +:+ t) = true.
Proof. rewrite includes_unfold, prefix_append. reflexivity. Qed.

Lemma includes_append (pre s post : string) :
  Js.includes s (pre +:+ s +:+ post) = true.
Proof.
  induction pre as [|c pre IH].
  - change (Js.includes s (s +:+ post) = true). apply includes_prefix.
  - change (Js.includes s (String c (pre +:+ s +:+ post)) = true).
    rewrite includes_unfold, IH. apply orb_true_r.
Qed.



(** ** The digest *)

Lemma hex_length (bs : list Z) :
  String.length (Bytes.hex bs) = (2 * List.length bs)%nat.
Proof.
  induction bs as [|b bs IH]; [reflexivity|].
  cbn [Bytes.hex List.length]. rewrite length_append, IH.
  cbn. lia.
Qed.

Lemma digest_length (msg : list Z) : List.length (MD5.digest msg) = 16%nat.
Proof.
  unfold MD5.digest.
  destruct (fold_left _ _ _) as [a b c d]. reflexivity.
Qed.

Lemma hexdigest_length (s : string) :
  String.length (MD5.hexdigest s) = 32%nat.
Proof. unfold MD5.hexdigest. now rewrite hex_length, digest_length. Qed.

(** ** The form-urlencoded serializer *)

Lemma string_forall_append (P : ascii -> bool) (s t : string) :
  string_forall P (s +:+ t) = string_forall P s && string_forall P t.
Proof.
  induction s as [|c s IH]; [reflexivity|].
  cbn [String.append string_forall]. rewrite IH. apply andb_assoc.
Qed.

Lemma encode_byte_component (c : ascii) :
  string_forall component_char
    (URLSearchParams.encode_byte (Bytes.byte_of_ascii c)) = true.
Proof. destruct c as [[] [] [] [] [] [] [] []]; vm_compute; reflexivity. Qed.

Lemma urlencode_component (s : string) :
  string_forall component_char (URLSearchParams.urlencode s) = true.
Proof.
  induction s as [|c s IH]; [reflexivity|].
  cbn [URLSearchParams.urlencode].
  now rewrite string_forall_append, encode_byte_component, IH.
Qed.

(** ** Building the pairs *)

Lemma coerceToString_spec (p : Primitive) : coerceToString p = spec_scalar p.
Proof. destruct p as [s|n|[|]]; reflexivity. Qed.

Lemma appendItems_spec (key : string) (items : list Primitive) :
  forall (encoded : URLSearchParams.t) (index : nat),
    appendItems encoded key items index
    = encoded
      ++ imap (fun i item =>
                 (spec_indexed_key key (index + i), spec_scalar item)) items.
Proof.
  induction items as [|item rest IH]; intros encoded index.
  - cbn. now rewrite app_nil_r.
  - cbn [appendItems]. rewrite IH. unfold URLSearchParams.append.
    rewrite <- app_assoc. f_equal. cbn [imap app]. f_equal.
    + now rewrite coerceToString_spec, Nat.add_0_r.
    + apply imap_ext. intros i x _. cbn. do 2 f_equal. lia.
Qed.

Lemma appendParam_spec (encoded : URLSearchParams.t) (key : string)
  (value : ParamValue) :
  appendParam encoded key value = encoded ++ spec_expand (key, value).
Proof.
  destruct value as [p|items| |]; cbn.
  - now rewrite coerceToString_spec.
  - rewrite appendItems_spec. f_equal.
  - now rewrite app_nil_r.
  - now rewrite app_nil_r.
Qed.

Lemma fold_appendParam_spec (entries : list (string * ParamValue)) :
  forall encoded : URLSearchParams.t,
    List.fold_left (fun enc kv => appendParam enc (fst kv) (snd kv))
      entries encoded
    = encoded ++ List.flat_map spec_expand entries.
Proof.
  induction entries as [|[k v] rest IH]; intros encoded; cbn [fold_left flat_map].
  - now rewrite app_nil_r.
  - rewrite IH. cbn [fst snd]. rewrite appendParam_spec.
    now rewrite <- app_assoc.
Qed.

Lemma buildParamState_pairs (action : string) (params : RequestParams) :
  fst (buildParamState action params)
  = spec_canonicalPairs action (Js.Object_entries params).
Proof.
  unfold buildParamState. cbn [fst]. rewrite fold_appendParam_spec.
  reflexivity.
Qed.

Lemma buildParamState_raw (action : string) (params : RequestParams) :
  snd (buildParamState action params)
  = URLSearchParams.toString (fst (buildParamState action params)).
Proof. reflexivity. Qed.

(** ** Own-property order *)

Section EntriesFacts.
Context {V : Type}.
Implicit Types (o : list (string * V)) (s : list (Z * (string * V))).

Lemma insert_by_index_indexed i e s :
  Js.array_index (fst e) = Some i ->
  Forall indexed s -> Forall indexed (Js.insert_by_index i e s).
Proof.
  intros He. induction 1 as [|[j e'] s Hj Hs IH]; cbn.
  - repeat constructor. exact He.
  - destruct (i <=? j); repeat constructor; auto.
Qed.

Lemma index_entries_indexed o : Forall indexed (Js.index_entries o).
Proof.
  induction o as [|[k v] o IH]; cbn; [constructor|].
  destruct (Js.array_index k) eqn:E; [|exact IH].
  apply insert_by_index_indexed; auto.
Qed.

Lemma insert_by_index_elem i e s x :
  In x (Js.insert_by_index i e s) -> x = (i, e) \/ In x s.
Proof.
  induction s as [|[j e'] s IH]; cbn.
  - intros [<-|[]]. now left.
  - destruct (i <=? j); cbn.
    + intros [<-|[<-|H]]; auto.
    + intros [<-|H]; auto. destruct (IH H); auto.
Qed.

Lemma insert_by_index_ascending i e s :
  ascending s -> ascending (Js.insert_by_index i e s).
Proof.
  induction 1 as [|[j e'] s Hs IH Hj]; cbn.
  - repeat constructor.
  - destruct (i <=? j) eqn:E.
    + apply Z.leb_le in E. constructor.
      * constructor; assumption.
      * constructor; [exact E|].
        rewrite List.Forall_forall in Hj |- *. intros x Hx.
        specialize (Hj x Hx). cbn in *. lia.
    + apply Z.leb_gt in E. constructor; [exact IH|].
      rewrite List.Forall_forall in Hj |- *. intros x Hx.
      destruct (insert_by_index_elem _ _ _ _ Hx) as [->|Hx'].
      * cbn. lia.
      * now apply Hj.
Qed.

Lemma index_entries_ascending o : ascending (Js.index_entries o).
Proof.
  induction o as [|[k v] o IH]; cbn; [constructor|].
  destruct (Js.array_index k); [|exact IH].
  now apply insert_by_index_ascending.
Qed.

(** The entries under a key that is not an array index keep their order. *)
Lemma named_entries_named o :
  Forall (fun e => Js.is_array_index (fst e) = false) (Js.named_entries o).
Proof.
  unfold Js.named_entries. rewrite List.Forall_forall. intros e He.
  apply filter_In in He as [_ He]. now apply negb_true_iff.
Qed.

Lemma index_entries_named o :
  Forall (fun e => Js.is_array_index (fst e) = false) o ->
  Js.index_entries o = [].
Proof.
  induction 1 as [|[k v] o Hk Ho IH]; cbn; [reflexivity|].
  unfold Js.is_array_index in Hk. cbn in Hk.
  destruct (Js.array_index k); [discriminate | exact IH].
Qed.

Lemma named_entries_id o :
  Forall (fun e => Js.is_array_index (fst e) = false) o ->
  Js.named_entries o = o.
Proof.
  unfold Js.named_entries.
  induction 1 as [|e o He Ho IH]; cbn; [reflexivity|].
  rewrite He. cbn. now rewrite IH.
Qed.

(** Without array-index keys, [Object.entries] is creation order. *)
Lemma Object_entries_named o :
  Forall (fun e => Js.is_array_index (fst e) = false) o ->
  Js.Object_entries o = o.
Proof.
  intros H. unfold Js.Object_entries.
  rewrite index_entries_named by exact H.
  rewrite named_entries_id by exact H. reflexivity.
Qed.

Lemma insert_by_index_front i e s :
  Forall (fun x => i <= fst x) s -> Js.insert_by_index i e s = (i, e) :: s.
Proof.
  destruct 1 as [|[j e'] s Hj Hs]; cbn; [reflexivity|].
  cbn in Hj. apply Z.leb_le in Hj. now rewrite Hj.
Qed.

Lemma index_entries_sorted s o :
  Forall indexed s -> ascending s ->
  Forall (fun e => Js.is_array_index (fst e) = false) o ->
  Js.index_entries (List.map snd s ++ o) = s.
Proof.
  intros Hi Hs Ho. induction Hs as [|[i [k v]] s Hs IH Hle]; cbn.
  - now apply index_entries_named.
  - inversion Hi as [|? ? Hk Hi']; subst. unfold indexed in Hk. cbn in Hk.
    rewrite Hk, (IH Hi'). now apply insert_by_index_front.
Qed.

Lemma named_entries_sorted s o :
  Forall indexed s ->
  Forall (fun e => Js.is_array_index (fst e) = false) o ->
  Js.named_entries (List.map snd s ++ o) = o.
Proof.
  intros Hi Ho. unfold Js.named_entries. rewrite List.filter_app.
  fold (Js.named_entries o). rewrite (named_entries_id o Ho).
  induction Hi as [|[i [k v]] s Hk Hi IH]; cbn; [reflexivity|].
  unfold indexed in Hk. cbn in Hk. unfold Js.is_array_index.
  rewrite Hk. cbn. exact IH.
Qed.

(** Enumerating a spread copy enumerates the original. *)
Lemma Object_entries_idempotent o :
  Js.Object_entries (Js.Object_entries o) = Js.Object_entries o.
Proof.
  unfold Js.Object_entries.
  rewrite index_entries_sorted
    by auto using index_entries_indexed, index_entries_ascending,
         named_entries_named.
  rewrite named_entries_sorted
    by auto using index_entries_indexed, named_entries_named.
  reflexivity.
Qed.

Lemma insert_by_index_perm i e s :
  Permutation (Js.insert_by_index i e s) ((i, e) :: s).
Proof.
  induction s as [|[j e'] s IH]; cbn; [reflexivity|].
  destruct (i <=? j); [reflexivity|].
  rewrite IH. apply perm_swap.
Qed.

(** The sorted entries are the entries under array-index keys. *)
Lemma index_entries_perm o :
  Permutation (List.map snd (Js.index_entries o))
    (List.filter (fun e => Js.is_array_index (fst e)) o).
Proof.
  induction o as [|[k v] o IH]; cbn; [reflexivity|].
  unfold Js.is_array_index. cbn.
  destruct (Js.array_index k) as [i|]; [|exact IH].
  rewrite insert_by_index_perm. cbn. now constructor.
Qed.

End EntriesFacts.

(** ** Signing *)

(** The signed pairs are the canonical pairs followed by the [hash] pair,
    whose value is the digest of the serialized canonical pairs followed by
    the API key. *)
Lemma signParams_shape (config : WorksectionConfig) (action : string)
  (params : option RequestParams) :
  signParams config action params
  = fst (buildParamState action (prepareParams params))
    ++ [("hash",
         MD5.hexdigest
           (URLSearchParams.toString
              (fst (buildParamState action (prepareParams params)))
            +:+ apiKey config))].
Proof.
  unfold signParams.
  pose proof (buildParamState_raw action (prepareParams params)) as Hraw.
  destruct (buildParamState action (prepareParams params)) as [encoded raw].
  cbn [fst snd] in *. subst raw. reflexivity.
Qed.

(** C1. For every action and parameter map, the pairs the client sends are
    the canonical pairs followed by one last pair [hash]; its value is the
    MD5 digest (32 hexadecimal digits, 128 bits) of the canonical query
    string followed by the API key, where the canonical query string joins
    [urlencode key = urlencode value] with [&]; every encoded component is
    made of unreserved characters, [+] and [%] only.  Dropping the last
    pair gives back the digest input: the [hash] field is appended after
    the digest is computed and is not part of it. *)
Theorem signature_is_md5_of_canonical_query
  (config : WorksectionConfig) (action : string)
  (params : option RequestParams) :
  let pairs := fst (buildParamState action (prepareParams params)) in
  let canonical :=
    String.concat "&"
      (List.map (fun kv => URLSearchParams.urlencode (fst kv) +:+ "="
                           +:+ URLSearchParams.urlencode (snd kv)) pairs) in
  let digest := MD5.hexdigest (canonical +:+ apiKey config) in
  signParams config action params = pairs ++ [("hash", digest)]
  /\ String.length digest = 32%nat
  /\ List.removelast (signParams config action params) = pairs
  /\ List.last (signParams config action params) (EmptyString, EmptyString)
     = ("hash", digest)
  /\ List.Forall
       (fun kv =>
          string_forall component_char (URLSearchParams.urlencode (fst kv))
          = true
          /\ string_forall component_char (URLSearchParams.urlencode (snd kv))
             = true) pairs.
Proof.
  intros pairs canonical digest.
  assert (Hsign : signParams config action params
                  = pairs ++ [("hash", digest)])
    by apply signParams_shape.
  split; [exact Hsign|].
  split; [apply hexdigest_length|].
  split; [rewrite Hsign; apply removelast_last|].
  split; [rewrite Hsign; apply last_last|].
  apply List.Forall_forall. intros kv _.
  split; apply urlencode_component.
Qed.

(** ** The canonical query *)

Example list_expansion :
  fst (buildParamState "post_task"
         [("tags", VArray [PString "a"; PString "b"]);
          ("urgent", VPrimitive (PBoolean true));
          ("draft", VPrimitive (PBoolean false));
          ("id_parent", VNull); ("text", VUndefined);
          ("priority", VPrimitive (PNumber (Js.Number_of_Z 7)))])
  = [("action", "post_task"); ("tags[0]", "a"); ("tags[1]", "b");
     ("urgent", "1"); ("draft", "0"); ("priority", "7")].
Proof. vm_compute. reflexivity. Qed.

(** A number is sent as JavaScript prints it: with its fraction, and in
    exponent form from 1e21 up and below 1e-6. *)
Example number_expansion :
  fst (buildParamState "post_task"
         [("max_time", VPrimitive (PNumber (Js.Finite false 15 1)));
          ("max_money", VPrimitive (PNumber (Js.Finite false 1 22)));
          ("rate", VPrimitive (PNumber (Js.Finite false 1 (-6))));
          ("delta", VPrimitive (PNumber (Js.Finite true 1 (-5))));
          ("count", VPrimitive (PNumber (Js.Number_of_Z 1200)));
          ("mass", VPrimitive (PNumber (Js.Finite false 12345 25)));
          ("ratio", VPrimitive (PNumber Js.NaN))])
  = [("action", "post_task"); ("max_time", "1.5"); ("max_money", "1e+21");
     ("rate", "1e-7"); ("delta", "-0.000001"); ("count", "1200");
     ("mass", "1.2345e+24"); ("ratio", "NaN")].
Proof. vm_compute. reflexivity. Qed.

(** The earlier revision repeats the key of a list and signs the
    unencoded join; the current one indexes the key and signs the
    serialized query. *)
Example earlier_revision_differs :
  let params := [("tags", VArray [PString "a b"; PString "c"])] in
  Earlier.buildParamState "post_task" params
  = ([("action", "post_task"); ("tags", "a b"); ("tags", "c")],
     "action=post_task&tags=a b&tags=c")
  /\ buildParamState "post_task" params
     = ([("action", "post_task"); ("tags[0]", "a b"); ("tags[1]", "c")],
        "action=post_task&tags%5B0%5D=a+b&tags%5B1%5D=c").
Proof. vm_compute. auto. Qed.

(** C2, as stated, fails: a key that is an array index is visited before
    the keys created ahead of it. *)
Lemma canonical_query_insertion_order_counterexample :
  fst (buildParamState "get_tasks"
         (prepareParams
            (Some [("page", VPrimitive (PString "x"));
                   ("7", VPrimitive (PString "y"))])))
  <> spec_canonicalPairs "get_tasks"
       [("page", VPrimitive (PString "x")); ("7", VPrimitive (PString "y"))].
Proof. vm_compute. discriminate. Qed.

(** C2, amended. For every parameter map, the canonical query starts with
    the action pair and then visits the parameters in own-property order
    ([Object.entries]): the entries under array-index keys first, by
    ascending index, then the other entries in insertion order, which is
    plain insertion order when no key is an array index; each entry is
    expanded as the specification says: [null]/[undefined] omitted,
    booleans ["1"]/["0"], other scalars their string form, a list one pair
    per element under [key[i]]. *)
Theorem canonical_query_own_property_order
  (action : string) (params : option RequestParams) :
  fst (buildParamState action (prepareParams params))
  = spec_canonicalPairs action (Js.Object_entries (default [] params))
  /\ (exists sorted,
        Js.Object_entries (default [] params)
        = List.map snd sorted
          ++ List.filter (fun e => negb (Js.is_array_index (fst e)))
               (default [] params)
        /\ ascending sorted
        /\ List.Forall indexed sorted
        /\ Permutation (List.map snd sorted)
             (List.filter (fun e => Js.is_array_index (fst e))
                (default [] params)))
  /\ (List.Forall (fun e => Js.is_array_index (fst e) = false)
        (default [] params) ->
      fst (buildParamState action (prepareParams params))
      = spec_canonicalPairs action (default [] params)).
Proof.
  assert (H : fst (buildParamState action (prepareParams params))
              = spec_canonicalPairs action
                  (Js.Object_entries (default [] params))).
  { rewrite buildParamState_pairs. unfold prepareParams, Js.spread.
    now rewrite Object_entries_idempotent. }
  split; [exact H|]. split.
  - exists (Js.index_entries (default [] params)).
    split; [reflexivity|].
    split; [apply index_entries_ascending|].
    split; [apply index_entries_indexed | apply index_entries_perm].
  - intros Hnamed. rewrite H. now rewrite Object_entries_named.
Qed.

Lemma canonical_query_own_property_order_witness :
  fst (buildParamState "get_projects"
         (prepareParams
            (Some [("filter", VPrimitive (PString "active"));
                   ("extra", VPrimitive (PString "text, users"))])))
  = [("action", "get_projects"); ("filter", "active");
     ("extra", "text, users")].
Proof.
  apply (proj2 (proj2 (canonical_query_own_property_order "get_projects"
                  (Some [("filter", VPrimitive (PString "active"));
                         ("extra", VPrimitive (PString "text, users"))])))).
  repeat constructor.
Defined.

(** ** One call, step by step *)

Lemma call_run (net : Network) (config : WorksectionConfig) (action : string)
  (options : option CallOptions.t) (tr : Trace) :
  call net config action options tr
  = match prepareAttachments net config
            (options ≫= CallOptions.attachments) tr with
    | (Return payloads, tr1) =>
        let req := buildRequest config action options payloads in
        interpretResponse (net tr1 (fst req) (snd req)) (tr1 ++ [req])
    | (Throw e, tr1) => (Throw e, tr1)
    end.
Proof.
  unfold call, bind.
  destruct (prepareAttachments _ _ _ tr) as [[payloads|e] tr1]; [|reflexivity].
  destruct (buildRequest config action options payloads) as [endpoint init].
  reflexivity.
Qed.

(** Interpreting the answer issues no request. *)
Lemma interpretResponse_trace (result : FetchResult) (tr : Trace) :
  snd (interpretResponse result tr) = tr.
Proof.
  unfold interpretResponse.
  destruct result as [message|response]; [reflexivity|].
  destruct (negb (Response.ok response));
    [now destruct (Response.text response)|].
  destruct (Response.json response) as [json|message]; [|reflexivity].
  destruct json; try reflexivity;
    (destruct (negb _); [destruct (envelopeErrorMessage _)|]; reflexivity).
Qed.

(** Once the attachments are resolved, exactly one more request is issued:
    the one [buildRequest] describes. *)
Lemma call_trace (net : Network) (config : WorksectionConfig) (action : string)
  (options : option CallOptions.t) (tr tr1 : Trace)
  (payloads : list AttachmentPayload.t) :
  prepareAttachments net config (options ≫= CallOptions.attachments) tr
  = (Return payloads, tr1) ->
  snd (call net config action options tr)
  = tr1 ++ [buildRequest config action options payloads].
Proof.
  intros H. rewrite call_run, H. cbv zeta. apply interpretResponse_trace.
Qed.

Lemma resolveAttachment_resolves (net : Network) (config : WorksectionConfig)
  (attachment : AttachmentInput.t) (payload : AttachmentPayload.t)
  (tr tr' : Trace) :
  resolveAttachment net config attachment tr = (Return payload, tr') ->
  resolves attachment payload.
Proof.
  unfold resolveAttachment, resolves, bind, ret, throw.
  destruct (AttachmentInput.data attachment) as [data|] eqn:Ed;
    cbn -[fetchRemoteAttachment].
  - destruct (Js.truthy (AttachmentInput.sourceUrl attachment));
      cbn -[fetchRemoteAttachment]; [discriminate|].
    intros [= <- _]. cbn. auto.
  - destruct (Js.truthy (AttachmentInput.sourceUrl attachment));
      cbn -[fetchRemoteAttachment]; [|discriminate].
    destruct (fetchRemoteAttachment net config _ tr) as [[fetched|e] tr1];
      [|discriminate].
    intros [= <- _]. cbn. auto.
Qed.

Lemma resolveAll_resolves (net : Network) (config : WorksectionConfig)
  (attachments : list AttachmentInput.t) :
  forall (acc payloads : list AttachmentPayload.t) (tr tr' : Trace),
    resolveAll net config attachments acc tr = (Return payloads, tr') ->
    exists added,
      payloads = acc ++ added /\ List.Forall2 resolves attachments added.
Proof.
  induction attachments as [|attachment rest IH]; intros acc payloads tr tr'.
  - cbn. intros [= <- _]. exists []. split; [now rewrite app_nil_r | constructor].
  - cbn [resolveAll]. unfold bind.
    destruct (resolveAttachment net config attachment tr)
      as [[payload|e] tr1] eqn:E; [|discriminate].
    intros H. apply IH in H as (added & -> & Hall).
    exists (payload :: added). split.
    + now rewrite <- app_assoc.
    + constructor; [|exact Hall].
      eapply resolveAttachment_resolves; exact E.
Qed.

Lemma prepareAttachments_resolves (net : Network) (config : WorksectionConfig)
  (attachments : option (list AttachmentInput.t))
  (payloads : list AttachmentPayload.t) (tr tr' : Trace) :
  prepareAttachments net config attachments tr = (Return payloads, tr') ->
  List.Forall2 resolves (default [] attachments) payloads.
Proof.
  unfold prepareAttachments.
  destruct attachments as [[|attachment rest]|]; cbn [default].
  - intros [= <- _]. constructor.
  - intros H. apply resolveAll_resolves in H as (added & -> & Hall).
    exact Hall.
  - intros [= <- _]. constructor.
Qed.

(** ** Method selection *)

Lemma buildRequest_spec (config : WorksectionConfig) (action : string)
  (options : option CallOptions.t) (payloads : list AttachmentPayload.t) :
  buildRequest config action options payloads
  = spec_request config action options payloads.
Proof.
  unfold buildRequest, requestFor, spec_request.
  destruct payloads as [|payload rest]; cbn [List.length Nat.ltb Nat.leb].
  - destruct (default GET (options ≫= CallOptions.method)); reflexivity.
  - reflexivity.
Qed.

(** C3. For every call whose attachments resolve, the request sent is a
    multipart POST when at least one attachment is present, whatever method
    the caller asked for; with no attachment it uses the caller's method
    (GET by default): GET carries the signed parameters in the query
    string and no body, POST carries them in a url-encoded body under the
    [application/x-www-form-urlencoded] content type.  When resolution
    throws, no request is sent to the API. *)
Theorem method_selection (net : Network) (config : WorksectionConfig)
  (action : string) (options : option CallOptions.t) (tr : Trace) :
  match prepareAttachments net config
          (options ≫= CallOptions.attachments) tr with
  | (Return payloads, tr1) =>
      List.length payloads
      = List.length (default [] (options ≫= CallOptions.attachments))
      /\ snd (call net config action options tr)
         = tr1 ++ [spec_request config action options payloads]
  | (Throw e, tr1) => call net config action options tr = (Throw e, tr1)
  end.
Proof.
  destruct (prepareAttachments _ _ _ tr) as [[payloads|e] tr1] eqn:E.
  - split.
    + apply prepareAttachments_resolves in E.
      symmetry. eapply Forall2_length. exact E.
    + rewrite <- buildRequest_spec. now apply call_trace.
  - now rewrite call_run, E.
Qed.

Example method_forcing :
  let options m :=
    Some {| CallOptions.method := m;
            CallOptions.params := Some [("title", VPrimitive (PString "t"))];
            CallOptions.attachments := None |} in
  let config :=
    {| accountUrl := "https://acme.worksection.com/"; apiKey := "k";
       slackBotToken := None |} in
  let payload :=
    {| AttachmentPayload.field := "attach[0]";
       AttachmentPayload.filename := "a.bin";
       AttachmentPayload.data := [1];
       AttachmentPayload.contentType := None |} in
  RequestInit.body (snd (buildRequest config "post_task" (options (Some POST)) []))
  = Some (BodyString
            "action=post_task&title=t&hash=7b8d0e391d17883f36340a907d67d5c3")
  /\ RequestInit.body (snd (buildRequest config "post_task" (options None) []))
     = None
  /\ snd (buildRequest config "post_task" (options (Some GET)) [payload])
     = snd (buildRequest config "post_task" (options (Some POST)) [payload])
  /\ RequestInit.method
       (snd (buildRequest config "post_task" (options (Some GET)) [payload]))
     = Some POST.
Proof. vm_compute. auto. Qed.

(** ** Multipart assembly *)

Lemma formFile_resolves (attachment : AttachmentInput.t)
  (payload : AttachmentPayload.t) :
  resolves attachment payload ->
  formFile payload = spec_filePart attachment payload.
Proof.
  intros (Hfield & Hname & Htype & _).
  unfold formFile, spec_filePart. rewrite Hfield, Hname, Htype.
  destruct (AttachmentInput.contentType attachment) as [[|c s]|]; reflexivity.
Qed.

Lemma formFiles_resolve (attachments : list AttachmentInput.t)
  (payloads : list AttachmentPayload.t) :
  List.Forall2 resolves attachments payloads ->
  List.Forall2 (fun ap part => part = spec_filePart (fst ap) (snd ap))
    (List.combine attachments payloads) (List.map formFile payloads).
Proof.
  induction 1 as [|a p atts ps Hap Hres IH]; cbn; constructor; [|exact IH].
  cbn. now apply formFile_resolves.
Qed.

(** C9. For every call with at least one attachment whose attachments
    resolve, the signed pairs, trailing [hash] included, are sent twice: as
    the query string of the URL and as the leading fields of the multipart
    body, in the same order; the binary parts follow, one per attachment in
    order, each of type [application/octet-stream] unless its descriptor
    names a content type. *)
Theorem multipart_duplicates_signed_pairs
  (net : Network) (config : WorksectionConfig) (action : string)
  (options : option CallOptions.t) (tr tr1 : Trace)
  (attachments : list AttachmentInput.t)
  (payloads : list AttachmentPayload.t) :
  options ≫= CallOptions.attachments = Some attachments ->
  attachments <> [] ->
  prepareAttachments net config (Some attachments) tr
  = (Return payloads, tr1) ->
  let pairs := signParams config action (options ≫= CallOptions.params) in
  exists files,
    snd (call net config action options tr)
    = tr1
      ++ [(ToURL {| URL.input := ADMIN_PATH; URL.base := accountUrl config;
                    URL.search := URLSearchParams.toString pairs |},
           {| RequestInit.method := Some POST;
              RequestInit.headers := [("Accept", "application/json")];
              RequestInit.body :=
                Some (BodyForm
                        (List.map (fun kv => FormField (fst kv) (snd kv)) pairs
                         ++ files)) |})]
    /\ List.Forall2 (fun ap part => part = spec_filePart (fst ap) (snd ap))
         (List.combine attachments payloads) files
    /\ List.length files = List.length attachments
    /\ exists digest,
         List.last pairs (EmptyString, EmptyString) = ("hash", digest).
Proof.
  intros Hopt Hne Hprep pairs.
  pose proof (prepareAttachments_resolves _ _ _ _ _ _ Hprep) as Hres.
  cbn [default] in Hres.
  exists (List.map formFile payloads).
  split; [|split; [|split]].
  - rewrite (call_trace net config action options tr tr1 payloads)
      by (rewrite Hopt; exact Hprep).
    rewrite buildRequest_spec. unfold spec_request.
    destruct payloads as [|payload rest]; [|reflexivity].
    inversion Hres; subst. now destruct Hne.
  - now apply formFiles_resolve.
  - rewrite length_map. symmetry. eapply Forall2_length. exact Hres.
  - unfold pairs. rewrite signParams_shape. eexists. apply last_last.
Qed.

Lemma multipart_duplicates_signed_pairs_witness :
  let config :=
    {| accountUrl := "https://acme.worksection.com/"; apiKey := "k";
       slackBotToken := None |} in
  let attachment :=
    {| AttachmentInput.field := "attach[0]";
       AttachmentInput.filename := "a.bin";
       AttachmentInput.contentType := None;
       AttachmentInput.data := Some [1; 2];
       AttachmentInput.sourceUrl := None |} in
  let options :=
    Some {| CallOptions.method := Some GET;
            CallOptions.params := Some [("title", VPrimitive (PString "t"))];
            CallOptions.attachments := Some [attachment] |} in
  exists files,
    snd (call (fun _ _ _ => Rejected "offline") config "post_task" options [])
    = [(ToURL {| URL.input := ADMIN_PATH; URL.base := accountUrl config;
                 URL.search :=
                   "action=post_task&title=t&hash=7b8d0e391d17883f36340a907d67d5c3" |},
        {| RequestInit.method := Some POST;
           RequestInit.headers := [("Accept", "application/json")];
           RequestInit.body :=
             Some (BodyForm
                     ([FormField "action" "post_task"; FormField "title" "t";
                       FormField "hash" "7b8d0e391d17883f36340a907d67d5c3"]
                      ++ files)) |})]
    /\ files
       = [FormFile "attach[0]"
            {| Blob.bytes := [1; 2]; Blob.type := "application/octet-stream" |}
            "a.bin"].
Proof.
  intros config attachment options.
  destruct (multipart_duplicates_signed_pairs
              (fun _ _ _ => Rejected "offline") config "post_task" options
              [] [] [attachment]
              [{| AttachmentPayload.field := "attach[0]";
                  AttachmentPayload.filename := "a.bin";
                  AttachmentPayload.data := [1; 2];
                  AttachmentPayload.contentType := None |}]
              eq_refl ltac:(discriminate) eq_refl)
    as (files & Htrace & Hfiles & _ & _).
  exists files. split.
  - exact Htrace.
  - inversion Hfiles as [|? ? ? ? Hpart Hrest]; subst.
    inversion Hrest; subst. reflexivity.
Defined.

(** ** Interpreting the response *)

Lemma envelopeErrorMessage_spec (json : Envelope.t) :
  envelopeErrorMessage json = spec_errorMessage json.
Proof.
  unfold envelopeErrorMessage, spec_errorMessage, spec_part.
  destruct (match Envelope.message json with
            | Some JNull | None => Some "Worksection API returned an error"
            | Some message => Json_toString message
            end) as [message|]; cbn [mbind option_bind]; [|reflexivity].
  destruct (Json_truthy (Envelope.message_details json));
    [destruct (Json_toString (default JNull (Envelope.message_details json)))
       as [details|]|];
    cbn [mbind option_bind fmap option_fmap option_map];
    try reflexivity;
    (destruct (Json_truthy (Envelope.test json));
     [destruct (Json_toString (default JNull (Envelope.test json)))
        as [test|]|];
     cbn [mbind option_bind fmap option_fmap option_map];
     rewrite ?append_nil_r, ?append_assoc; reflexivity).
Qed.


Lemma interpretResponse_parsed (response : Response.t) (json : Envelope.t)
  (tr : Trace) :
  Response.ok response = true ->
  Response.json response = JsonParsed json ->
  interpretResponse (Resolved response) tr = (parsedOutcome json, tr).
Proof.
  intros Hok Hjson. unfold interpretResponse, parsedOutcome, spec_failure.
  rewrite Hok, Hjson. cbn [negb]. rewrite <- envelopeErrorMessage_spec.
  destruct json; try reflexivity;
    (destruct (bool_decide _); cbn [negb];
     [|destruct (envelopeErrorMessage _)]; reflexivity).
Qed.

Lemma parsedOutcome_return (json parsed : Envelope.t) :
  parsedOutcome parsed = Return json ->
  parsed = json /\ Envelope.status parsed = Some "ok".
Proof.
  unfold parsedOutcome.
  destruct (bool_decide _) eqn:Hst; [|discriminate].
  intros [= <-]. split; [reflexivity|].
  now apply bool_decide_eq_true in Hst.
Qed.

Lemma parsedOutcome_ok (json : Envelope.t) :
  Envelope.status json = Some "ok" -> parsedOutcome json = Return json.
Proof.
  intros Hst. unfold parsedOutcome.
  now rewrite bool_decide_eq_true_2 by exact Hst.
Qed.

Lemma parsedOutcome_throw (json : Envelope.t) :
  Envelope.status json <> Some "ok" ->
  parsedOutcome json = Throw (spec_failure json).
Proof.
  intros Hst. unfold parsedOutcome.
  now rewrite bool_decide_eq_false_2 by exact Hst.
Qed.

Lemma call_answers (net : Network) (config : WorksectionConfig)
  (action : string) (options : option CallOptions.t) (tr : Trace)
  (result : FetchResult) :
  answers net config action options tr result ->
  fst (call net config action options tr)
  = fst (interpretResponse result (snd (call net config action options tr))).
Proof.
  intros (payloads & tr1 & Hprep & Hnet).
  rewrite (call_trace _ _ _ _ _ _ _ Hprep).
  rewrite call_run, Hprep. cbv zeta. rewrite Hnet. reflexivity.
Qed.





(** C6. [call] returns an envelope exactly when the API answers with a 2xx
    response whose parsed envelope has status ["ok"], and it then returns
    that parsed envelope itself, every field in place; with any other
    status, a missing one included, it throws. *)
Theorem ok_is_the_only_success_sentinel
  (net : Network) (config : WorksectionConfig) (action : string)
  (options : option CallOptions.t) (tr : Trace) :
  (forall json,
     fst (call net config action options tr) = Return json <->
     exists response,
       answers net config action options tr (Resolved response)
       /\ Response.ok response = true
       /\ Response.json response = JsonParsed json
       /\ Envelope.status json = Some "ok")
  /\ (forall response json,
        answers net config action options tr (Resolved response) ->
        Response.json response = JsonParsed json ->
        Envelope.status json <> Some "ok" ->
        exists e, fst (call net config action options tr) = Throw e).
Proof.
  split.
  - intros json. split.
    + rewrite call_run.
      destruct (prepareAttachments _ _ _ tr) as [[payloads|e] tr1] eqn:Hprep;
        [|discriminate].
      cbv zeta.
      destruct (net tr1 _ _) as [message|response] eqn:Hnet; [discriminate|].
      destruct (Response.ok response) eqn:Hok;
        [|unfold interpretResponse; rewrite Hok; cbn [negb];
          destruct (Response.text response); discriminate].
      destruct (Response.json response) as [parsed|message] eqn:Hjson;
        [|unfold interpretResponse; rewrite Hok, Hjson; discriminate].
      rewrite (interpretResponse_parsed _ _ _ Hok Hjson). cbn [fst].
      intros Hout. apply parsedOutcome_return in Hout as [-> Hst].
      exists response.
      split; [now exists payloads, tr1|].
      split; [exact Hok|]. split; [exact Hjson | exact Hst].
    + intros (response & Hans & Hok & Hjson & Hst).
      rewrite (call_answers _ _ _ _ _ _ Hans).
      rewrite (interpretResponse_parsed _ _ _ Hok Hjson). cbn [fst].
      now apply parsedOutcome_ok.
  - intros response json Hans Hjson Hst.
    rewrite (call_answers _ _ _ _ _ _ Hans).
    destruct (Response.ok response) eqn:Hok.
    + rewrite (interpretResponse_parsed _ _ _ Hok Hjson). cbn [fst].
      rewrite (parsedOutcome_throw _ Hst). eauto.
    + unfold interpretResponse. rewrite Hok. cbn [negb].
      destruct (Response.text response); cbn; eauto.
Qed.

(** The end-to-end scenario of the specification: a GET whose query string
    is the signed canonical query, and the success envelope handed back as
    parsed. *)
Example end_to_end_get_projects :
  call (fun _ _ _ =>
          Resolved (sample_response 200 "OK" (JsonParsed sample_ok_envelope)))
    sample_config "get_projects"
    (Some {| CallOptions.method := None;
             CallOptions.params :=
               Some [("filter", VPrimitive (PString "active"))];
             CallOptions.attachments := None |}) []
  = (Return sample_ok_envelope,
     [(ToURL {| URL.input := "api/admin/v2";
                URL.base := "https://acme.worksection.com/";
                URL.search :=
                  "action=get_projects&filter=active&hash=818280ce3348e9085bdde8a5e55604d2" |},
       {| RequestInit.method := Some GET;
          RequestInit.headers := [("Accept", "application/json")];
          RequestInit.body := None |})]).
Proof. vm_compute. reflexivity. Qed.

Lemma ok_is_the_only_success_sentinel_witness :
  fst (call (fun _ _ _ =>
               Resolved (sample_response 200 "OK"
                           (JsonParsed sample_ok_envelope)))
         sample_config "get_projects"
         (Some {| CallOptions.method := None;
                  CallOptions.params :=
                    Some [("filter", VPrimitive (PString "active"))];
                  CallOptions.attachments := None |}) [])
  = Return sample_ok_envelope
  /\ exists e,
       fst (call (fun _ _ _ =>
                    Resolved (sample_response 200 "OK"
                                (JsonParsed sample_missing_status)))
              sample_config "get_projects" None [])
       = Throw e.
Proof.
  split.
  - apply (proj1 (ok_is_the_only_success_sentinel _ _ _ _ _)).
    exists (sample_response 200 "OK" (JsonParsed sample_ok_envelope)).
    split; [|auto]. exists [], []. split; reflexivity.
  - apply (proj2 (ok_is_the_only_success_sentinel _ _ _ _ _)
             (sample_response 200 "OK" (JsonParsed sample_missing_status))
             sample_missing_status).
    + exists [], []. split; reflexivity.
    + reflexivity.
    + discriminate.
Defined.

(** ** Attachment descriptors that cannot be sent *)

Lemma fetchRemoteAttachment_trace (net : Network) (config : WorksectionConfig)
  (url : string) (tr : Trace) :
  snd (fetchRemoteAttachment net config url tr)
  = tr ++ [downloadRequest config url].
Proof.
  unfold fetchRemoteAttachment, bind, fetch, downloadRequest.
  destruct (slackBotToken config) as [[|c token]|];
    cbn [Js.truthy default];
    (destruct (net tr _ _) as [message|response]; [reflexivity|];
     destruct (negb (Response.ok response)); [reflexivity|];
     destruct (Response.arrayBuffer response) as [arrayBuffer|e];
     [|reflexivity];
     destruct (_ =? _)%nat; reflexivity).
Qed.

Lemma resolveAttachment_unsendable (net : Network)
  (config : WorksectionConfig) (attachment : AttachmentInput.t) (tr : Trace) :
  unsendable attachment = true ->
  resolveAttachment net config attachment tr
  = (Throw (callerError attachment), tr).
Proof.
  unfold unsendable, ambiguous, unresolvable, callerError, resolveAttachment,
    ambiguous.
  destruct (AttachmentInput.data attachment) as [data|];
    destruct (Js.truthy (AttachmentInput.sourceUrl attachment));
    cbn; intros H; try discriminate; reflexivity.
Qed.

Lemma resolveAttachment_trace (net : Network) (config : WorksectionConfig)
  (attachment : AttachmentInput.t) (tr : Trace) :
  exists out added,
    resolveAttachment net config attachment tr = (out, tr ++ added)
    /\ List.Forall (downloadOf config [attachment]) added
    /\ (inline attachment = true -> added = [] /\ exists p, out = Return p).
Proof.
  unfold resolveAttachment, inline, bind, ret, throw.
  destruct (AttachmentInput.data attachment) as [data|] eqn:Ed;
    destruct (AttachmentInput.sourceUrl attachment) as [[|c url]|] eqn:Eu;
    cbn -[fetchRemoteAttachment];
    try (eexists _, []; rewrite app_nil_r;
         split; [reflexivity|]; split; [constructor|];
         intros H;
         first [discriminate H | split; [reflexivity | eauto]]).
  pose proof (fetchRemoteAttachment_trace net config (String c url) tr) as Ht.
  destruct (fetchRemoteAttachment net config (String c url) tr)
    as [[fetched|e] tr1]; cbn [snd] in Ht; subst tr1;
    (eexists _, [_]; split; [reflexivity|]; split; [|discriminate];
     constructor; [|constructor];
     exists attachment, (String c url); cbn; auto).
Qed.

Lemma downloadOf_weaken (config : WorksectionConfig)
  (small large : list AttachmentInput.t) (req : RequestInfo * RequestInit.t) :
  (forall a, In a small -> In a large) ->
  downloadOf config small req -> downloadOf config large req.
Proof.
  intros Hsub (a & url & Hin & Hd & Hu & Hreq).
  exists a, url. auto.
Qed.

Lemma resolveAll_unsendable (net : Network) (config : WorksectionConfig)
  (attachment : AttachmentInput.t) (after : list AttachmentInput.t)
  (before : list AttachmentInput.t) :
  unsendable attachment = true ->
  forall (acc : list AttachmentPayload.t) (tr : Trace),
  exists e added,
    resolveAll net config (before ++ attachment :: after) acc tr
    = (Throw e, tr ++ added)
    /\ List.Forall (downloadOf config before) added
    /\ (List.forallb inline before = true ->
        added = [] /\ e = callerError attachment).
Proof.
  intros Hbad. induction before as [|a before IH]; intros acc tr.
  - cbn [app resolveAll]. unfold bind.
    rewrite resolveAttachment_unsendable by exact Hbad.
    exists (callerError attachment), []. rewrite app_nil_r. auto.
  - cbn [app resolveAll forallb]. unfold bind.
    destruct (resolveAttachment_trace net config a tr)
      as (out & added & -> & Hdl & Hin).
    assert (Hdl' : List.Forall (downloadOf config (a :: before)) added).
    { eapply List.Forall_impl; [|exact Hdl].
      intros req. apply downloadOf_weaken. intros x [<-|[]]. now left. }
    destruct out as [payload|e].
    + destruct (IH (acc ++ [payload]) (tr ++ added))
        as (e & added' & -> & Hdl2 & Hin2).
      exists e, (added ++ added'). rewrite app_assoc.
      split; [reflexivity|]. split.
      * apply List.Forall_app. split; [exact Hdl'|].
        eapply List.Forall_impl; [|exact Hdl2].
        intros req. apply downloadOf_weaken. intros x Hx. now right.
      * intros H. apply andb_prop in H as [Ha Hb].
        destruct (Hin Ha) as [-> _]. destruct (Hin2 Hb) as [-> ->]. auto.
    + exists e, added. split; [reflexivity|]. split; [exact Hdl'|].
      intros H. apply andb_prop in H as [Ha _].
      destruct (Hin Ha) as (_ & p & Hp). discriminate Hp.
Qed.

(** C5, as stated, fails: an unsendable descriptor that follows a remote one
    is found only after that one has been downloaded. *)
Lemma unsendable_attachment_counterexample :
  unsendable sample_both = true
  /\ ~ (exists e,
          call sample_file_server sample_config "post_task"
            (sample_attachments [sample_remote; sample_both]) []
          = (Throw e, [])).
Proof.
  split; [reflexivity|].
  intros [e H]. vm_compute in H. discriminate H.
Qed.

(** C5, amended. A descriptor that sets both inline data and a source URL,
    or neither, makes [call] throw before the API request is built, signed
    or sent: the only requests made are downloads of the remote descriptors
    that precede it in the list.  When every descriptor before it carries
    inline data only, no request at all is made and the error is the caller
    error naming its file. *)
Theorem unsendable_attachment_stops_call
  (net : Network) (config : WorksectionConfig) (action : string)
  (options : option CallOptions.t)
  (before after : list AttachmentInput.t) (attachment : AttachmentInput.t)
  (tr : Trace) :
  options ≫= CallOptions.attachments = Some (before ++ attachment :: after) ->
  unsendable attachment = true ->
  exists e added,
    call net config action options tr = (Throw e, tr ++ added)
    /\ List.Forall (downloadOf config before) added
    /\ (List.forallb inline before = true ->
        added = [] /\ e = callerError attachment).
Proof.
  intros Hopt Hbad. rewrite call_run, Hopt.
  destruct (resolveAll_unsendable net config attachment after before Hbad [] tr)
    as (e & added & Hres & Hdl & Hin).
  exists e, added. split; [|auto].
  unfold prepareAttachments.
  destruct (before ++ attachment :: after) eqn:E.
  - now destruct before.
  - now rewrite Hres.
Qed.

Lemma unsendable_attachment_stops_call_witness :
  call sample_file_server sample_config "post_task"
    (sample_attachments [sample_inline; sample_both]) []
  = (Throw (WorksectionApiError
              ("Attachment " +:+ Js.quote +:+ "b.png" +:+ Js.quote
               +:+ " cannot define both data and sourceUrl.") None), [])
  /\ call sample_file_server sample_config "post_task"
       (sample_attachments [sample_neither]) []
     = (Throw (WorksectionApiError
                 ("Attachment " +:+ Js.quote +:+ "c.png" +:+ Js.quote
                  +:+ " must include base64 data or a download URL (sourceUrl).")
                 None), []).
Proof.
  split.
  - destruct (unsendable_attachment_stops_call sample_file_server
                sample_config "post_task"
                (sample_attachments [sample_inline; sample_both])
                [sample_inline] [] sample_both [] eq_refl eq_refl)
      as (e & added & Hcall & _ & Hin).
    destruct (Hin eq_refl) as [-> ->]. exact Hcall.
  - destruct (unsendable_attachment_stops_call sample_file_server
                sample_config "post_task"
                (sample_attachments [sample_neither])
                [] [] sample_neither [] eq_refl eq_refl)
      as (e & added & Hcall & _ & Hin).
    destruct (Hin eq_refl) as [-> ->]. exact Hcall.
Defined.

(** ** Downloading a remote attachment *)

(** What [fetchRemoteAttachment] does on each answer of the network: one
    GET to the URL, with a bearer header exactly when a non-empty token is
    configured; the three failures and the success. *)
Lemma fetchRemoteAttachment_outcomes (net : Network)
  (config : WorksectionConfig) (url : string) (tr : Trace) :
  snd (fetchRemoteAttachment net config url tr)
  = tr ++ [downloadRequest config url]
  /\ fst (fetchRemoteAttachment net config url tr)
     = match net tr (fst (downloadRequest config url))
               (snd (downloadRequest config url)) with
       | Rejected message =>
           Throw (WorksectionApiError
                    ("Failed to download attachment from " +:+ url +:+ ": "
                     +:+ message) None)
       | Resolved response =>
           if Response.ok response then
             match Response.arrayBuffer response with
             | Throw e => Throw e
             | Return [] =>
                 Throw (WorksectionApiError
                          ("Attachment at " +:+ url +:+ " is empty.") None)
             | Return bytes => Return bytes
             end
           else
             Throw (WorksectionApiError
                      ("Downloading attachment failed ("
                       +:+ Js.Number_toString (Js.Number_of_Z (Response.status response))
                       +:+ "): " +:+ Response.statusText response) None)
       end.
Proof.
  split; [apply fetchRemoteAttachment_trace|].
  unfold fetchRemoteAttachment, bind, fetch, downloadRequest.
  destruct (slackBotToken config) as [[|c token]|];
    cbn [Js.truthy default fst snd];
    (destruct (net tr _ _) as [message|response]; [reflexivity|];
     destruct (Response.ok response); cbn [negb]; [|reflexivity];
     destruct (Response.arrayBuffer response) as [[|b bytes]|e];
     reflexivity).
Qed.

(** The two failure messages that name the URL. *)
Lemma download_messages_naming_url (url message : string) :
  Js.includes url
    ("Failed to download attachment from " +:+ url +:+ ": " +:+ message)
  = true
  /\ Js.includes url ("Attachment at " +:+ url +:+ " is empty.") = true.
Proof. split; apply includes_append. Qed.

(** C7 at a failing input. On a 404 answer the download throws an error
    whose message gives the status and its reason but not the URL, unlike
    the messages for a network failure and for an empty body; the request
    carries the bearer token of the configuration. *)
Lemma download_http_error_omits_url :
  let url := "https://files.example.com/a.png" in
  let config :=
    {| accountUrl := "https://acme.worksection.com/"; apiKey := "secret";
       slackBotToken := Some "xoxb-1" |} in
  fetchRemoteAttachment sample_not_found config url []
  = (Throw (WorksectionApiError
              "Downloading attachment failed (404): Not Found" None),
     [(ToString url,
       {| RequestInit.method := None;
          RequestInit.headers := [("Authorization", "Bearer xoxb-1")];
          RequestInit.body := None |})])
  /\ Js.includes url "Downloading attachment failed (404): Not Found" = false
  /\ Js.includes "404" "Downloading attachment failed (404): Not Found" = true.
Proof. vm_compute. auto. Qed.

(** ** Inline attachments of [post_task] *)

Section PostTaskFacts.
Variable Buffer_from_base64 : string -> option (list Z).
Variable net : Network.
Variable config : WorksectionConfig.

Lemma inlineError_names (filename reason : string) :
  Js.includes filename (inlineError filename reason) = true.
Proof.
  unfold inlineError. rewrite <- (append_assoc "Attachment " Js.quote).
  apply includes_append.
Qed.

Lemma convertAttachment_empty (attachment : PostTask.AttachmentArg)
  (data : string) (index : nat) :
  PostTask.data attachment = Some data ->
  data <> EmptyString ->
  Buffer_from_base64 data = Some [] ->
  PostTask.convertAttachment Buffer_from_base64 attachment index
  = Throw (Error (inlineError (PostTask.filename attachment)
                    " is empty or not valid base64 data.")).
Proof.
  intros Hdata Hne Hdec.
  unfold PostTask.convertAttachment, inlineError. rewrite Hdata.
  destruct data as [|c data]; [now destruct Hne|].
  cbn [Js.truthy from_option id]. rewrite Hdec. reflexivity.
Qed.

(** X27. When [post_task] is called with one inline attachment whose data
    is a non-empty string that the base64 decoder turns into zero bytes, it
    answers an error that names the attachment's file, and sends no HTTP
    request. *)
Theorem empty_inline_data_is_rejected
  (args : PostTask.CreateTaskArgs) (attachment : PostTask.AttachmentArg)
  (data : string) (tr : Trace) :
  PostTask.attachments args = Some [attachment] ->
  PostTask.data attachment = Some data ->
  data <> EmptyString ->
  Buffer_from_base64 data = Some [] ->
  let message :=
    inlineError (PostTask.filename attachment)
      " is empty or not valid base64 data." in
  PostTask.post_task_body Buffer_from_base64 net config args tr
  = (Throw (Error message), tr)
  /\ PostTask.post_task Buffer_from_base64 net config args tr
     = (PostTask.RespondedError message, tr)
  /\ Js.includes (PostTask.filename attachment) message = true.
Proof.
  intros Hatt Hdata Hne Hdec message.
  assert (Hbody : PostTask.post_task_body Buffer_from_base64 net config args tr
                  = (Throw (Error message), tr)).
  { unfold PostTask.post_task_body, bind. rewrite Hatt.
    cbn [PostTask.convertAttachments].
    rewrite (convertAttachment_empty _ _ _ Hdata Hne Hdec). reflexivity. }
  split; [exact Hbody|]. split.
  - unfold PostTask.post_task. rewrite Hbody. reflexivity.
  - apply inlineError_names.
Qed.

End PostTaskFacts.

Example sample_base64_hello :
  sample_base64 "aGVsbG8=" = Some (Bytes.of_string "hello")
  /\ sample_base64 "====" = Some [].
Proof. vm_compute. auto. Qed.

Lemma empty_inline_data_is_rejected_witness :
  PostTask.post_task sample_base64 sample_file_server sample_config
    (sample_task [sample_empty_arg]) []
  = (PostTask.RespondedError
       ("Attachment " +:+ Js.quote +:+ "empty.bin" +:+ Js.quote
        +:+ " is empty or not valid base64 data."), []).
Proof.
  exact (proj1 (proj2 (empty_inline_data_is_rejected sample_base64
                         sample_file_server sample_config
                         (sample_task [sample_empty_arg]) sample_empty_arg
                         "====" []
                         eq_refl eq_refl ltac:(discriminate) eq_refl))).
Defined.

(** The decoder throws on no string, so the handler never answers that the
    data must be valid base64. *)
Lemma convertAttachment_never_invalid (attachment : PostTask.AttachmentArg)
  (index : nat) (reason : string) :
  PostTask.convertAttachment sample_base64 attachment index
  = Throw (Error (inlineError (PostTask.filename attachment) reason)) ->
  reason <> " data must be valid base64.".
Proof.
  unfold PostTask.convertAttachment, sample_base64, inlineError.
  destruct (Js.truthy (PostTask.data attachment));
    [destruct (_ =? _)%nat|];
    try destruct (Js.truthy (PostTask.sourceUrl attachment));
    try discriminate;
    intros [= H]; apply append_cancel_l in H; injection H as H;
    intros ->; discriminate H.
Qed.

(** C8 at a failing input. [post_task] is called with one inline attachment
    whose data is not base64.  The decoder raises nothing: it skips the
    characters outside its alphabet and yields eleven bytes, which the
    handler uploads as the file in one multipart POST, and the tool answers
    the task that the API returns.  No caller error is raised, and the
    handler's message for data that is not valid base64 is answered for no
    attachment at all. *)
Lemma undecodable_inline_data_is_uploaded :
  sample_base64 "this is not base64 !!! %%%"
  = Some [182; 24; 172; 138; 201; 232; 181; 182; 172; 123; 174]
  /\ PostTask.post_task sample_base64 sample_api sample_config
       (sample_task [sample_garbled_arg]) []
     = (PostTask.Responded
          (JObject [("task", JArray [JObject [("id", JString "1")]])]),
        [(ToURL {| URL.input := "api/admin/v2";
                   URL.base := "https://acme.worksection.com/";
                   URL.search :=
                     "action=post_task&id_project=12&title=Report&priority=5&datestart=01.03.2025&tags=a%2C+b&hash=4de2c55b63c25ff99226a64fe073c9e4" |},
          {| RequestInit.method := Some POST;
             RequestInit.headers := [("Accept", "application/json")];
             RequestInit.body :=
               Some (BodyForm
                       [FormField "action" "post_task";
                        FormField "id_project" "12";
                        FormField "title" "Report";
                        FormField "priority" "5";
                        FormField "datestart" "01.03.2025";
                        FormField "tags" "a, b";
                        FormField "hash" "4de2c55b63c25ff99226a64fe073c9e4";
                        FormFile "attach[0]"
                          {| Blob.bytes :=
                               [182; 24; 172; 138; 201; 232; 181; 182; 172;
                                123; 174];
                             Blob.type := "application/octet-stream" |}
                          "notes.txt"]) |})])
  /\ (forall s, sample_base64 s <> None)
  /\ (forall attachment index,
        PostTask.convertAttachment sample_base64 attachment index
        <> Throw (Error (inlineError (PostTask.filename attachment)
                           " data must be valid base64."))).
Proof.
  split; [vm_compute; reflexivity|]. split; [|split].
  - vm_compute. reflexivity.
  - discriminate.
  - intros attachment index H.
    now apply (convertAttachment_never_invalid _ _ _ H).
Qed.

(** ** The store is only extended *)

Section Frame.
Import Store.

(** The store at the time of the call. *)
Variable h0 : heap.

#[local] Abbreviation keeps := (StoreView.keeps h0).
#[local] Abbreviation new := (StoreView.new h0).

Lemma keeps_ret {A} (a : A) (Q : A -> Prop) : Q a -> keeps (retH a) Q.
Proof. intros HQ h tr Hh. split; [exact Hh|]. now intros a' [= <-]. Qed.

Lemma keeps_throw {A} (e : Exn) (Q : A -> Prop) : keeps (throwH e) Q.
Proof. intros h tr Hh. split; [exact Hh|]. discriminate. Qed.

Lemma keeps_bind {A B} (m : H A) (k : A -> H B) (P : A -> Prop)
  (Q : B -> Prop) :
  keeps m P -> (forall a, P a -> keeps (k a) Q) -> keeps (bindH m k) Q.
Proof.
  intros Hm Hk h tr Hh. unfold bindH.
  destruct (Hm h tr Hh) as [Hsub Hret].
  destruct (m h tr) as [[[a|e] h1] tr1]; cbn in *.
  - apply Hk; auto.
  - split; [exact Hsub | discriminate].
Qed.

Lemma keeps_weaken {A} (m : H A) (P Q : A -> Prop) :
  keeps m P -> (forall a, P a -> Q a) -> keeps m Q.
Proof.
  intros Hm HPQ h tr Hh. destruct (Hm h tr Hh) as [Hsub Hret].
  split; [exact Hsub | auto].
Qed.

Lemma keeps_alloc (o : object) : keeps (alloc o) new.
Proof.
  intros h tr Hh. unfold alloc. cbn.
  assert (Hnew : h0 !! fresh (dom h) = None).
  { eapply lookup_weaken_None; [|exact Hh].
    apply not_elem_of_dom, is_fresh. }
  split.
  - now apply insert_subseteq_r.
  - now intros a [= <-].
Qed.

Lemma keeps_load (l : loc) : keeps (load l) (fun _ => True).
Proof.
  intros h tr Hh. unfold load.
  destruct (h !! l); cbn; auto.
Qed.

Lemma keeps_store (l : loc) (o : object) :
  new l -> keeps (store l o) (fun _ => True).
Proof.
  intros Hnew h tr Hh. unfold store. cbn.
  split; [now apply insert_subseteq_r | auto].
Qed.

Lemma keeps_fetch (net : Network) (info : RequestInfo) (init : RequestInit.t) :
  keeps (fetchH net info init) (fun _ => True).
Proof. intros h tr Hh. cbn. auto. Qed.

Lemma keeps_interpret (result : FetchResult) :
  keeps (StoreClient.interpret result) (fun _ => True).
Proof.
  intros h tr Hh. unfold StoreClient.interpret.
  destruct (interpretResponse result tr). cbn. auto.
Qed.

(** The rules above decide every first-order step; [keeps_auto] applies
    them through binds, conditionals and matches. *)
Ltac keeps_step :=
  match goal with
  | |- keeps (bindH _ _) _ => eapply keeps_bind; [|intros ? ?]
  | |- keeps (retH _) _ => apply keeps_ret; try exact I
  | |- keeps (throwH _) _ => apply keeps_throw
  | |- keeps typeError _ => apply keeps_throw
  | |- keeps (load _) _ => apply keeps_load
  | |- keeps (alloc _) _ => apply keeps_alloc
  | |- keeps (store _ _) _ => apply keeps_store; assumption
  | |- keeps (fetchH _ _ _) _ => apply keeps_fetch
  | |- keeps (StoreClient.interpret _) _ => apply keeps_interpret
  | |- keeps (match ?x with _ => _ end) _ => destruct x
  | |- keeps (if ?b then _ else _) _ => destruct b
  end.

Ltac keeps_auto := repeat keeps_step.

Lemma keeps_load_params l : keeps (load_params l) (fun _ => True).
Proof. unfold load_params. keeps_auto. Qed.

Lemma keeps_load_list l : keeps (load_list l) (fun _ => True).
Proof. unfold load_list. keeps_auto. Qed.

Lemma keeps_load_buffer l : keeps (load_buffer l) (fun _ => True).
Proof. unfold load_buffer. keeps_auto. Qed.

Lemma keeps_load_array l : keeps (load_array l) (fun _ => True).
Proof. unfold load_array. keeps_auto. Qed.

Lemma keeps_load_search l : keeps (load_search l) (fun _ => True).
Proof. unfold load_search. keeps_auto. Qed.

Lemma keeps_load_headers l : keeps (load_headers l) (fun _ => True).
Proof. unfold load_headers. keeps_auto. Qed.

Lemma keeps_load_url l : keeps (load_url l) (fun _ => True).
Proof. unfold load_url. keeps_auto. Qed.

Lemma keeps_load_form l : keeps (load_form l) (fun _ => True).
Proof. unfold load_form. keeps_auto. Qed.

Lemma keeps_forEach {A} (body : A -> nat -> H unit) (xs : list A) :
  (forall x i, keeps (body x i) (fun _ => True)) ->
  forall index, keeps (forEach body xs index) (fun _ => True).
Proof.
  intros Hbody. induction xs as [|x rest IH]; intros index; cbn [forEach].
  - now apply keeps_ret.
  - eapply keeps_bind; [apply Hbody|]. intros _ _. apply IH.
Qed.

Lemma keeps_search_append encoded name value :
  new encoded -> keeps (search_append encoded name value) (fun _ => True).
Proof.
  intros Hnew. unfold search_append.
  eapply keeps_bind; [apply keeps_load_search|]. intros pairs _.
  now apply keeps_store.
Qed.

Lemma keeps_form_append form entry :
  new form -> keeps (form_append form entry) (fun _ => True).
Proof.
  intros Hnew. unfold form_append.
  eapply keeps_bind; [apply keeps_load_form|]. intros entries _.
  now apply keeps_store.
Qed.

Lemma keeps_array_push array element :
  new array -> keeps (array_push array element) (fun _ => True).
Proof.
  intros Hnew. unfold array_push.
  eapply keeps_bind; [apply keeps_load_array|]. intros elements _.
  now apply keeps_store.
Qed.

Section ClientFrame.
Variable net : Network.
Variable config : WorksectionConfig.

(** The copy of the parameters is a new object. *)
Lemma keeps_prepareParams params : keeps (StoreClient.prepareParams params) new.
Proof.
  unfold StoreClient.prepareParams.
  eapply keeps_bind; [|intros props _; apply keeps_alloc].
  destruct params as [l|]; [apply keeps_load_params | now apply keeps_ret].
Qed.

Lemma keeps_appendParam encoded key v :
  new encoded -> keeps (StoreClient.appendParam encoded key v) (fun _ => True).
Proof.
  intros Hnew. unfold StoreClient.appendParam. destruct v as [p|array| |].
  - now apply keeps_search_append.
  - eapply keeps_bind; [apply keeps_load_list|]. intros items _.
    apply keeps_forEach. intros item i. now apply keeps_search_append.
  - now apply keeps_ret.
  - now apply keeps_ret.
Qed.

Lemma keeps_buildParamState action params :
  keeps (StoreClient.buildParamState action params) (fun state => new (fst state)).
Proof.
  unfold StoreClient.buildParamState.
  eapply keeps_bind; [apply keeps_alloc|]. intros encoded Hnew.
  eapply keeps_bind; [now apply keeps_appendParam|]. intros _ _.
  eapply keeps_bind; [apply keeps_load_params|]. intros props _.
  eapply keeps_bind.
  { apply keeps_forEach. intros kv i. now apply keeps_appendParam. }
  intros _ _.
  eapply keeps_bind; [apply keeps_load_search|]. intros pairs _.
  now apply keeps_ret.
Qed.

(** A downloaded buffer is a new object. *)
Lemma keeps_fetchRemoteAttachment url :
  keeps (StoreClient.fetchRemoteAttachment net config url) new.
Proof.
  unfold StoreClient.fetchRemoteAttachment.
  eapply keeps_bind; [apply keeps_alloc|]. intros headers Hnew.
  eapply keeps_bind.
  { destruct (Js.truthy _); [now apply keeps_store | now apply keeps_ret]. }
  intros _ _.
  eapply keeps_bind; [apply keeps_load_headers|]. intros sent _.
  eapply keeps_bind; [apply keeps_fetch|]. intros result _.
  destruct result as [message|response]; [apply keeps_throw|].
  destruct (negb _); [apply keeps_throw|].
  destruct (Response.arrayBuffer response) as [arrayBuffer|e];
    [|apply keeps_throw].
  destruct (_ =? _)%nat; [apply keeps_throw | apply keeps_alloc].
Qed.

Lemma keeps_resolveAttachment payloads attachment :
  new payloads ->
  keeps (StoreClient.resolveAttachment net config payloads attachment)
    (fun _ => True).
Proof.
  intros Hnew. unfold StoreClient.resolveAttachment.
  eapply keeps_bind; [apply keeps_load|]. intros o _.
  destruct o as [| | |field filename contentType data sourceUrl| | | | | | |];
    try apply keeps_throw.
  destruct (Js.present data && Js.truthy sourceUrl); [apply keeps_throw|].
  eapply keeps_bind with (P := fun _ => True).
  { destruct data as [buffer|]; [now apply keeps_ret|].
    destruct (Js.truthy sourceUrl); [|now apply keeps_ret].
    eapply keeps_bind; [apply keeps_fetchRemoteAttachment|].
    intros fetched _. now apply keeps_ret. }
  intros [buffer|] _; [|apply keeps_throw].
  eapply keeps_bind; [apply keeps_alloc|]. intros payload Hpayload.
  eapply keeps_bind.
  { destruct (Js.truthy contentType);
      [now apply keeps_store | now apply keeps_ret]. }
  intros _ _. now apply keeps_array_push.
Qed.

(** The array of payloads is a new object. *)
Lemma keeps_prepareAttachments attachments :
  keeps (StoreClient.prepareAttachments net config attachments) new.
Proof.
  unfold StoreClient.prepareAttachments.
  eapply keeps_bind with (P := fun _ => True).
  { destruct attachments as [l|];
      [apply keeps_load_array | now apply keeps_ret]. }
  intros [|first others] _; [apply keeps_alloc|].
  eapply keeps_bind; [apply keeps_alloc|]. intros payloads Hnew.
  eapply keeps_bind.
  { apply keeps_forEach. intros a i. now apply keeps_resolveAttachment. }
  intros _ _. now apply keeps_ret.
Qed.

Lemma keeps_appendFile form payload :
  new form -> keeps (StoreClient.appendFile form payload) (fun _ => True).
Proof.
  intros Hnew. unfold StoreClient.appendFile.
  eapply keeps_bind; [apply keeps_load|]. intros o _.
  destruct o as [| | |field filename contentType [data|] sourceUrl| | | | | | |];
    try apply keeps_throw.
  eapply keeps_bind; [apply keeps_load_buffer|]. intros bytes _.
  now apply keeps_form_append.
Qed.

Lemma keeps_readRequest endpoint init :
  keeps (StoreClient.readRequest endpoint init) (fun _ => True).
Proof.
  unfold StoreClient.readRequest.
  eapply keeps_bind; [apply keeps_load_url|]. intros url _.
  eapply keeps_bind; [apply keeps_load|]. intros o _.
  destruct o as [| | | | | | | | | |method headers body];
    try apply keeps_throw.
  eapply keeps_bind; [apply keeps_load_headers|]. intros sent _.
  eapply keeps_bind with (P := fun _ => True).
  { destruct body as [[s|form]|]; try now apply keeps_ret.
    eapply keeps_bind; [apply keeps_load_form|]. intros entries _.
    now apply keeps_ret. }
  intros content _. now apply keeps_ret.
Qed.

Lemma keeps_send method hasAttachments encoded resolved :
  new encoded ->
  keeps (StoreClient.send net config method hasAttachments encoded resolved)
    (fun _ => True).
Proof.
  intros Henc. unfold StoreClient.send.
  eapply keeps_bind; [apply keeps_alloc|]. intros endpoint Hendpoint.
  eapply keeps_bind; [apply keeps_alloc|]. intros headers Hheaders.
  eapply keeps_bind with (P := fun _ => True).
  { destruct (_ || _); [|now apply keeps_ret].
    eapply keeps_bind; [apply keeps_load_search|]. intros pairs _.
    eapply keeps_bind; [apply keeps_load_url|]. intros url _.
    now apply keeps_store. }
  intros _ _.
  eapply keeps_bind with (P := fun _ => True).
  { destruct (is_GET _); [now apply keeps_ret|].
    destruct hasAttachments.
    - eapply keeps_bind; [apply keeps_alloc|]. intros form Hform.
      eapply keeps_bind; [apply keeps_load_search|]. intros pairs _.
      eapply keeps_bind.
      { apply keeps_forEach. intros kv i. now apply keeps_form_append. }
      intros _ _.
      eapply keeps_bind.
      { apply keeps_forEach. intros p i. now apply keeps_appendFile. }
      intros _ _. now apply keeps_ret.
    - eapply keeps_bind; [apply keeps_load_search|]. intros pairs _.
      eapply keeps_bind; [apply keeps_load_headers|]. intros sent _.
      eapply keeps_bind; [now apply keeps_store|]. intros _ _.
      now apply keeps_ret. }
  intros body _.
  eapply keeps_bind; [apply keeps_alloc|]. intros init Hinit.
  eapply keeps_bind with (P := fun _ => True).
  { destruct body; [now apply keeps_store | now apply keeps_ret]. }
  intros _ _.
  eapply keeps_bind; [apply keeps_readRequest|]. intros request _.
  eapply keeps_bind; [apply keeps_fetch|]. intros result _.
  apply keeps_interpret.
Qed.

Lemma keeps_call action options :
  keeps (StoreClient.call net config action options) (fun _ => True).
Proof.
  unfold StoreClient.call.
  eapply keeps_bind with (P := fun _ => True).
  { destruct options as [l|]; [apply keeps_load | now apply keeps_ret]. }
  intros o _.
  destruct o as [| | | | |requested params attachments| | | | |];
    try apply keeps_throw.
  eapply keeps_bind; [apply keeps_prepareAttachments|]. intros payloads _.
  eapply keeps_bind; [apply keeps_load_array|]. intros resolved _.
  eapply keeps_bind; [apply keeps_prepareParams|]. intros next _.
  eapply keeps_bind; [apply keeps_buildParamState|]. intros [encoded raw] Henc.
  cbn [fst snd] in *.
  eapply keeps_bind; [now apply keeps_search_append|]. intros _ _.
  now apply keeps_send.
Qed.

End ClientFrame.

End Frame.

(** ** The store-level client computes what the value-level client does *)

Section Refinement.
Import Store StoreView.
Variable net : Network.
Variable config : WorksectionConfig.

(** *** Running the primitives *)

Lemma fresh_lookup (h : heap) : h !! fresh (dom h) = None.
Proof. apply not_elem_of_dom, is_fresh. Qed.

Lemma bindH_return {A B} (m : H A) (k : A -> H B) h tr a h' tr' :
  m h tr = (Return a, h', tr') -> bindH m k h tr = k a h' tr'.
Proof. intros E. unfold bindH. now rewrite E. Qed.

Lemma bindH_throw {A B} (m : H A) (k : A -> H B) h tr e h' tr' :
  m h tr = (Throw e, h', tr') -> bindH m k h tr = (Throw e, h', tr').
Proof. intros E. unfold bindH. now rewrite E. Qed.

Lemma load_run h tr l o :
  h !! l = Some o -> load l h tr = (Return o, h, tr).
Proof. intros E. unfold load. now rewrite E. Qed.

Lemma load_params_run h tr l props :
  h !! l = Some (ObjParams props) ->
  load_params l h tr = (Return props, h, tr).
Proof. intros E. unfold load_params, bindH, load. now rewrite E. Qed.

Lemma load_list_run h tr l items :
  h !! l = Some (ObjList items) -> load_list l h tr = (Return items, h, tr).
Proof. intros E. unfold load_list, bindH, load. now rewrite E. Qed.

Lemma load_buffer_run h tr l bytes :
  h !! l = Some (ObjBuffer bytes) ->
  load_buffer l h tr = (Return bytes, h, tr).
Proof. intros E. unfold load_buffer, bindH, load. now rewrite E. Qed.

Lemma load_array_run h tr l elements :
  h !! l = Some (ObjArray elements) ->
  load_array l h tr = (Return elements, h, tr).
Proof. intros E. unfold load_array, bindH, load. now rewrite E. Qed.

Lemma load_search_run h tr l pairs :
  h !! l = Some (ObjSearchParams pairs) ->
  load_search l h tr = (Return pairs, h, tr).
Proof. intros E. unfold load_search, bindH, load. now rewrite E. Qed.

Lemma load_headers_run h tr l headers :
  h !! l = Some (ObjHeaders headers) ->
  load_headers l h tr = (Return headers, h, tr).
Proof. intros E. unfold load_headers, bindH, load. now rewrite E. Qed.

Lemma load_url_run h tr l url :
  h !! l = Some (ObjURL url) -> load_url l h tr = (Return url, h, tr).
Proof. intros E. unfold load_url, bindH, load. now rewrite E. Qed.

Lemma load_form_run h tr l form :
  h !! l = Some (ObjFormData form) ->
  load_form l h tr = (Return form, h, tr).
Proof. intros E. unfold load_form, bindH, load. now rewrite E. Qed.

Lemma search_append_run h tr e pairs name value :
  h !! e = Some (ObjSearchParams pairs) ->
  search_append e name value h tr
  = (Return tt,
     <[e := ObjSearchParams (URLSearchParams.append pairs name value)]> h, tr).
Proof.
  intros E. unfold search_append.
  now rewrite (bindH_return _ _ _ _ _ _ _ (load_search_run _ _ _ _ E)).
Qed.

Lemma form_append_run h tr f entries entry :
  h !! f = Some (ObjFormData entries) ->
  form_append f entry h tr
  = (Return tt, <[f := ObjFormData (entries ++ [entry])]> h, tr).
Proof.
  intros E. unfold form_append.
  now rewrite (bindH_return _ _ _ _ _ _ _ (load_form_run _ _ _ _ E)).
Qed.

Lemma array_push_run h tr a elements element :
  h !! a = Some (ObjArray elements) ->
  array_push a element h tr
  = (Return tt, <[a := ObjArray (elements ++ [element])]> h, tr).
Proof.
  intros E. unfold array_push.
  now rewrite (bindH_return _ _ _ _ _ _ _ (load_array_run _ _ _ _ E)).
Qed.

(** *** Encoding the parameters *)

Lemma value_at_insert h e pairs pairs' v pv :
  h !! e = Some (ObjSearchParams pairs) ->
  value_at h v pv ->
  value_at (<[e := ObjSearchParams pairs']> h) v pv.
Proof.
  intros E. destruct v as [p|l| |], pv as [p'|items| |]; cbn; auto.
  intros Hl. rewrite lookup_insert_ne; [exact Hl|].
  intros ->. rewrite E in Hl. discriminate.
Qed.

Lemma appendItems_run e key items :
  forall h tr pairs index,
    h !! e = Some (ObjSearchParams pairs) ->
    forEach
      (fun item index =>
         search_append e (key +:+ "[" +:+ Js.index_toString index +:+ "]")
           (coerceToString item)) items index h tr
    = (Return tt,
       <[e := ObjSearchParams (appendItems pairs key items index)]> h, tr).
Proof.
  induction items as [|item rest IH]; intros h tr pairs index E.
  - cbn [forEach appendItems]. unfold retH. now rewrite insert_id.
  - cbn [forEach appendItems].
    rewrite (bindH_return _ _ _ _ _ _ _ (search_append_run _ _ _ _ _ _ E)).
    erewrite IH by apply lookup_insert_eq.
    now rewrite insert_insert_eq.
Qed.

Lemma appendParam_run h tr e pairs key v pv :
  h !! e = Some (ObjSearchParams pairs) ->
  value_at h v pv ->
  StoreClient.appendParam e key v h tr
  = (Return tt, <[e := ObjSearchParams (appendParam pairs key pv)]> h, tr).
Proof.
  intros E Hv. destruct v as [p|l| |], pv as [p'|items| |]; cbn in Hv;
    try contradiction; cbn [StoreClient.appendParam appendParam].
  - subst p'. now apply search_append_run.
  - rewrite (bindH_return _ _ _ _ _ _ _ (load_list_run _ _ _ _ Hv)).
    now apply appendItems_run.
  - unfold retH. now rewrite insert_id.
  - unfold retH. now rewrite insert_id.
Qed.

Lemma appendEntries_run e props :
  forall params h tr pairs index,
    List.Forall2 (prop_at h) props params ->
    h !! e = Some (ObjSearchParams pairs) ->
    forEach (fun kv _ => StoreClient.appendParam e (fst kv) (snd kv))
      props index h tr
    = (Return tt,
       <[e := ObjSearchParams
                (List.fold_left
                   (fun enc kv => appendParam enc (fst kv) (snd kv))
                   params pairs)]> h, tr).
Proof.
  induction props as [|[k v] props IH]; intros params h tr pairs index Hall E.
  - inversion Hall; subst. cbn [forEach fold_left]. unfold retH.
    now rewrite insert_id.
  - inversion Hall as [|? [k' pv] ? params' [Hk Hv] Hrest]; subst.
    cbn [fst snd] in *. subst k'. cbn [forEach fold_left fst snd].
    rewrite (bindH_return _ _ _ _ _ _ _
               (appendParam_run _ _ _ _ _ _ _ E Hv)).
    erewrite IH.
    + now rewrite insert_insert_eq.
    + eapply List.Forall2_impl; [|exact Hrest].
      intros [k1 v1] [k2 v2] [H1 H2]. split; [exact H1|].
      eapply value_at_insert; eauto.
    + apply lookup_insert_eq.
Qed.

Section EntriesRelated.
Context {A B : Type} (R : string * A -> string * B -> Prop).
Hypothesis R_key : forall x y, R x y -> fst x = fst y.

Let R' (a : Z * (string * A)) (b : Z * (string * B)) : Prop :=
  fst a = fst b /\ R (snd a) (snd b).

Lemma insert_by_index_related i e e' s s' :
  R e e' -> List.Forall2 R' s s' ->
  List.Forall2 R' (Js.insert_by_index i e s) (Js.insert_by_index i e' s').
Proof.
  intros He. induction 1 as [|[j x] [j' y] s s' [Hj Hxy] Hs IH]; cbn.
  - repeat constructor. exact He.
  - cbn in Hj. subst j'. destruct (i <=? j).
    + constructor; [now split|]. constructor; [now split | exact Hs].
    + constructor; [now split | exact IH].
Qed.

Lemma index_entries_related o o' :
  List.Forall2 R o o' ->
  List.Forall2 R' (Js.index_entries o) (Js.index_entries o').
Proof.
  induction 1 as [|[k v] [k' v'] o o' Hxy Ho IH]; cbn; [constructor|].
  pose proof (R_key _ _ Hxy) as Hk. cbn in Hk. subst k'.
  destruct (Js.array_index k); [|exact IH].
  now apply insert_by_index_related.
Qed.

Lemma named_entries_related o o' :
  List.Forall2 R o o' ->
  List.Forall2 R (Js.named_entries o) (Js.named_entries o').
Proof.
  unfold Js.named_entries.
  induction 1 as [|[k v] [k' v'] o o' Hxy Ho IH]; cbn; [constructor|].
  pose proof (R_key _ _ Hxy) as Hk. cbn in Hk. subst k'.
  destruct (negb (Js.is_array_index k)); [constructor|]; assumption.
Qed.

Lemma Object_entries_related o o' :
  List.Forall2 R o o' ->
  List.Forall2 R (Js.Object_entries o) (Js.Object_entries o').
Proof.
  intros H. unfold Js.Object_entries. apply List.Forall2_app.
  - pose proof (index_entries_related _ _ H) as Hi.
    induction Hi as [|a b s s' [_ Hab] Hs IH]; cbn; constructor; auto.
  - now apply named_entries_related.
Qed.

End EntriesRelated.

Lemma value_at_fresh h e o v pv :
  h !! e = None -> value_at h v pv -> value_at (<[e := o]> h) v pv.
Proof.
  intros E. destruct v as [p|l| |], pv as [p'|items| |]; cbn; auto.
  intros Hl. rewrite lookup_insert_ne; [exact Hl|].
  intros ->. rewrite E in Hl. discriminate.
Qed.

Lemma props_at_fresh h e o props params :
  h !! e = None ->
  List.Forall2 (prop_at h) props params ->
  List.Forall2 (prop_at (<[e := o]> h)) props params.
Proof.
  intros E. apply List.Forall2_impl.
  intros kv kpv [Hk Hv]. split; [exact Hk | now apply value_at_fresh].
Qed.

Lemma prepareParams_run h tr params pparams :
  option_at (params_at h) params pparams ->
  exists next h',
    StoreClient.prepareParams params h tr = (Return next, h', tr)
    /\ h ⊆ h'
    /\ h !! next = None
    /\ params_at h' next (prepareParams pparams).
Proof.
  intros Hat. unfold StoreClient.prepareParams, prepareParams, Js.spread.
  assert (Hprops : exists props,
             (match params with
              | Some l => load_params l
              | None => retH []
              end) h tr = (Return props, h, tr)
             /\ List.Forall2 (prop_at h) props (default [] pparams)).
  { destruct params as [l|], pparams as [pp|]; cbn in Hat; try contradiction.
    - destruct Hat as (props & Hl & Hall). exists props.
      split; [now apply load_params_run | exact Hall].
    - exists []. split; [reflexivity | constructor]. }
  destruct Hprops as (props & Hrun & Hall).
  rewrite (bindH_return _ _ _ _ _ _ _ Hrun). unfold alloc.
  eexists _, _. split; [reflexivity|].
  pose proof (fresh_lookup h) as Hnew.
  split; [now apply insert_subseteq|]. split; [exact Hnew|].
  exists (Js.Object_entries props). split; [apply lookup_insert_eq|].
  apply props_at_fresh; [exact Hnew|].
  apply Object_entries_related; [|exact Hall].
  now intros x y [Hk _].
Qed.

Lemma buildParamState_run h tr action next params :
  params_at h next params ->
  exists encoded,
    h !! encoded = None
    /\ StoreClient.buildParamState action next h tr
       = (Return (encoded, snd (buildParamState action params)),
          <[encoded := ObjSearchParams (fst (buildParamState action params))]> h,
          tr).
Proof.
  intros (props & Hnext & Hall).
  pose proof (fresh_lookup h) as Hnew.
  exists (fresh (dom h)). split; [exact Hnew|].
  set (e := fresh (dom h)) in *.
  assert (Hne : next <> e) by (intros ->; congruence).
  unfold StoreClient.buildParamState, buildParamState.
  unfold bindH at 1. unfold alloc at 1. fold e.
  rewrite (bindH_return _ _ _ _ _ _ _
             (appendParam_run _ _ e URLSearchParams.empty "action"
                (Prim (PString action)) (VPrimitive (PString action))
                (lookup_insert_eq _ _ _) eq_refl)).
  rewrite insert_insert_eq.
  erewrite (bindH_return _ _ _ _ props)
    by (apply load_params_run; now rewrite lookup_insert_ne).
  erewrite (bindH_return (forEach _ _ _)).
  2:{ apply appendEntries_run
        with (params := Js.Object_entries params).
      - apply props_at_fresh; [exact Hnew|].
        apply Object_entries_related; [|exact Hall].
        now intros x y [Hk _].
      - apply lookup_insert_eq. }
  rewrite insert_insert_eq.
  erewrite (bindH_return (load_search _))
    by (apply load_search_run, lookup_insert_eq).
  reflexivity.
Qed.

(** *** Resolving the attachments *)

Lemma off_refl l h : off l h h.
Proof. intros x o _ H. exact H. Qed.

Lemma off_trans l h1 h2 h3 : off l h1 h2 -> off l h2 h3 -> off l h1 h3.
Proof. intros H12 H23 x o Hx H. apply H23, H12; auto. Qed.

Lemma off_subseteq l (h h' : heap) : h ⊆ h' -> off l h h'.
Proof. intros Hsub x o _ H. eapply lookup_weaken; eauto. Qed.

Lemma off_insert l o (h : heap) : off l h (<[l := o]> h).
Proof. intros x o' Hx H. now rewrite lookup_insert_ne. Qed.

Lemma descriptor_at_off l h h' elements a att :
  off l h h' -> h !! l = Some (ObjArray elements) ->
  descriptor_at h a att -> descriptor_at h' a att.
Proof.
  intros Hoff Hl (data & Ha & Hdata). exists data. split.
  - apply Hoff; [|exact Ha]. intros ->. congruence.
  - destruct data as [b|], (AttachmentInput.data att) as [bytes|];
      cbn in *; auto.
    apply Hoff; [|exact Hdata]. intros ->. congruence.
Qed.

Lemma payload_at_off l h h' elements pl p :
  off l h h' -> h !! l = Some (ObjArray elements) ->
  payload_at h pl p -> payload_at h' pl p.
Proof.
  intros Hoff Hl (b & Hp & Hb). exists b. split.
  - apply Hoff; [|exact Hp]. intros ->. congruence.
  - apply Hoff; [|exact Hb]. intros ->. congruence.
Qed.

Lemma fetchRemoteAttachment_run h tr url :
  exists h',
    h ⊆ h'
    /\ match fetchRemoteAttachment net config url tr with
       | (Return bytes, tr') =>
           exists b,
             StoreClient.fetchRemoteAttachment net config url h tr
             = (Return b, h', tr')
             /\ h' !! b = Some (ObjBuffer bytes)
             /\ h !! b = None
       | (Throw e, tr') =>
           StoreClient.fetchRemoteAttachment net config url h tr
           = (Throw e, h', tr')
       end.
Proof.
  set (hl := fresh (dom h)).
  pose proof (fresh_lookup h) as Hnew. fold hl in Hnew.
  set (sent := if Js.truthy (slackBotToken config)
               then [("Authorization",
                      "Bearer " +:+ default EmptyString (slackBotToken config))]
               else []).
  set (h2 := if Js.truthy (slackBotToken config)
             then <[hl := ObjHeaders sent]> h
             else <[hl := ObjHeaders []]> h).
  assert (Hsub : h ⊆ h2).
  { unfold h2. destruct (Js.truthy _); now apply insert_subseteq. }
  assert (Hsent : h2 !! hl = Some (ObjHeaders sent)).
  { unfold h2, sent. destruct (Js.truthy _); apply lookup_insert_eq. }
  set (init := {| RequestInit.method := None;
                  RequestInit.headers := sent;
                  RequestInit.body := None |}).
  assert (Hstore :
            StoreClient.fetchRemoteAttachment net config url h tr
            = match net tr (ToString url) init with
              | Rejected message =>
                  throwH (WorksectionApiError
                            ("Failed to download attachment from " +:+ url
                             +:+ ": " +:+ message) None)
              | Resolved response =>
                  if negb (Response.ok response) then
                    throwH (WorksectionApiError
                              ("Downloading attachment failed ("
                               +:+ Js.Number_toString (Js.Number_of_Z (Response.status response))
                               +:+ "): " +:+ Response.statusText response)
                              None)
                  else
                    match Response.arrayBuffer response with
                    | Throw e => throwH e
                    | Return arrayBuffer =>
                        if (List.length arrayBuffer =? 0)%nat then
                          throwH (WorksectionApiError
                                    ("Attachment at " +:+ url +:+ " is empty.")
                                    None)
                        else alloc (ObjBuffer arrayBuffer)
                    end
              end h2 (tr ++ [(ToString url, init)])).
  { unfold StoreClient.fetchRemoteAttachment.
    unfold bindH at 1. unfold alloc at 1. fold hl.
    assert (Hstep : forall k : unit -> H loc,
               bindH (if Js.truthy (slackBotToken config)
                      then store hl
                             (ObjHeaders
                                [("Authorization",
                                  "Bearer "
                                  +:+ default EmptyString
                                        (slackBotToken config))])
                      else retH tt) k (<[hl := ObjHeaders []]> h) tr
               = k tt h2 tr).
    { intros k. unfold h2, sent, bindH, store, retH.
      destruct (Js.truthy _); [|reflexivity].
      now rewrite insert_insert_eq. }
    rewrite Hstep.
    rewrite (bindH_return _ _ _ _ _ _ _ (load_headers_run _ _ _ _ Hsent)).
    reflexivity. }
  rewrite Hstore.
  unfold fetchRemoteAttachment, bind, fetch, throw, throwH, ret.
  clearbody h2. subst init sent.
  destruct (net tr (ToString url) _) as [message|response].
  { exists h2. split; [exact Hsub | reflexivity]. }
  destruct (negb (Response.ok response)).
  { exists h2. split; [exact Hsub | reflexivity]. }
  destruct (Response.arrayBuffer response) as [arrayBuffer|e];
    [|exists h2; split; [exact Hsub | reflexivity]].
  destruct (_ =? _)%nat.
  { exists h2. split; [exact Hsub | reflexivity]. }
  exists (<[fresh (dom h2) := ObjBuffer arrayBuffer]> h2).
  pose proof (fresh_lookup h2) as Hb.
  split.
  - etrans; [exact Hsub|]. now apply insert_subseteq.
  - exists (fresh (dom h2)). split; [reflexivity|].
    split; [apply lookup_insert_eq|].
    eapply lookup_weaken_None; eauto.
Qed.

Lemma push_payload_run h tr payloads locs field filename contentType b bytes :
  h !! payloads = Some (ObjArray locs) ->
  h !! b = Some (ObjBuffer bytes) ->
  exists h' pl,
    bindH (alloc (ObjAttachment field filename None (Some b) None))
      (fun payload =>
         bindH (if Js.truthy contentType
                then store payload
                       (ObjAttachment field filename contentType (Some b) None)
                else retH tt)
           (fun _ => array_push payloads payload)) h tr
    = (Return tt, h', tr)
    /\ off payloads h h'
    /\ h' !! payloads = Some (ObjArray (locs ++ [pl]))
    /\ (h !! pl = None /\ pl <> payloads)
    /\ payload_at h' pl
         {| AttachmentPayload.field := field;
            AttachmentPayload.filename := filename;
            AttachmentPayload.data := bytes;
            AttachmentPayload.contentType :=
              if Js.truthy contentType then contentType else None |}.
Proof.
  intros Hp Hb.
  set (pl := fresh (dom h)).
  pose proof (fresh_lookup h) as Hnew. fold pl in Hnew.
  set (o := ObjAttachment field filename
              (if Js.truthy contentType then contentType else None)
              (Some b) None).
  assert (Hne : payloads <> pl) by (intros E; rewrite E in Hp; congruence).
  assert (Hnb : b <> pl) by (intros E; rewrite E in Hb; congruence).
  assert (Hnpb : b <> payloads) by (intros E; rewrite E in Hb; congruence).
  exists (<[payloads := ObjArray (locs ++ [pl])]> (<[pl := o]> h)), pl.
  split; [|split; [|split; [|split]]].
  - unfold bindH at 1. unfold alloc at 1. fold pl.
    assert (Hstep : forall k : unit -> H unit,
               bindH (if Js.truthy contentType
                      then store pl
                             (ObjAttachment field filename contentType
                                (Some b) None)
                      else retH tt) k
                 (<[pl := ObjAttachment field filename None (Some b) None]> h)
                 tr
               = k tt (<[pl := o]> h) tr).
    { intros k. unfold o, bindH, store, retH.
      destruct (Js.truthy contentType); [|reflexivity].
      now rewrite insert_insert_eq. }
    rewrite Hstep. apply array_push_run.
    now rewrite lookup_insert_ne.
  - intros x ox Hx Hox. rewrite lookup_insert_ne by auto.
    rewrite lookup_insert_ne; [exact Hox|]. intros <-. congruence.
  - apply lookup_insert_eq.
  - split; [exact Hnew | auto].
  - exists b. cbn. split.
    + rewrite lookup_insert_ne by auto. apply lookup_insert_eq.
    + rewrite !lookup_insert_ne by auto. exact Hb.
Qed.

Lemma resolveAttachment_run h tr payloads locs a att :
  h !! payloads = Some (ObjArray locs) ->
  descriptor_at h a att ->
  exists h',
    off payloads h h'
    /\ match resolveAttachment net config att tr with
       | (Return p, tr') =>
           exists pl,
             StoreClient.resolveAttachment net config payloads a h tr
             = (Return tt, h', tr')
             /\ h' !! payloads = Some (ObjArray (locs ++ [pl]))
             /\ (h !! pl = None /\ pl <> payloads)
             /\ payload_at h' pl p
       | (Throw e, tr') =>
           StoreClient.resolveAttachment net config payloads a h tr
           = (Throw e, h', tr')
       end.
Proof.
  intros Hp (data & Ha & Hdata).
  unfold StoreClient.resolveAttachment.
  rewrite (bindH_return _ _ _ _ _ _ _ (load_run _ _ _ _ Ha)).
  unfold resolveAttachment.
  destruct data as [b|], (AttachmentInput.data att) as [bytes|] eqn:Ed;
    cbn in Hdata; try contradiction; cbn [Js.present andb].
  - destruct (Js.truthy (AttachmentInput.sourceUrl att)).
    { exists h. split; [apply off_refl | reflexivity]. }
    unfold bindH at 1. unfold retH at 1. unfold bind at 1. unfold ret at 1.
    destruct (push_payload_run h tr payloads locs
                (AttachmentInput.field att) (AttachmentInput.filename att)
                (AttachmentInput.contentType att) b bytes Hp Hdata)
      as (h' & pl & Hrun & Hoff & Hp' & Hfresh & Hpl).
    exists h'. split; [exact Hoff|]. unfold ret. exists pl.
    split; [exact Hrun|]. split; [exact Hp'|]. split; [exact Hfresh | exact Hpl].
  - destruct (Js.truthy (AttachmentInput.sourceUrl att)).
    2:{ exists h. split; [apply off_refl | reflexivity]. }
    destruct (fetchRemoteAttachment_run h tr
                (default EmptyString (AttachmentInput.sourceUrl att)))
      as (h1 & Hsub & Hfetch).
    unfold bind at 1. unfold bind at 1.
    destruct (fetchRemoteAttachment net config _ tr) as [[bytes|e] tr1].
    + destruct Hfetch as (b & Hrun & Hb & Hbnew).
      unfold bindH at 1. unfold bindH at 1. rewrite Hrun.
      unfold retH at 1. unfold ret at 1.
      assert (Hp1 : h1 !! payloads = Some (ObjArray locs))
        by (eapply lookup_weaken; eauto).
      destruct (push_payload_run h1 tr1 payloads locs
                  (AttachmentInput.field att) (AttachmentInput.filename att)
                  (AttachmentInput.contentType att) b bytes Hp1 Hb)
        as (h' & pl & Hrun' & Hoff & Hp' & [Hfresh Hnp] & Hpl).
      exists h'. split.
      { eapply off_trans; [apply off_subseteq; exact Hsub | exact Hoff]. }
      unfold ret. exists pl. split; [exact Hrun'|].
      split; [exact Hp'|]. split; [|exact Hpl].
      split; [eapply lookup_weaken_None; eauto | exact Hnp].
    + exists h1. split; [now apply off_subseteq|].
      unfold bindH at 1. unfold bindH at 1. now rewrite Hfetch.
Qed.

Lemma resolveAll_run payloads elements :
  forall attachments h tr locs acc index,
    List.Forall2 (descriptor_at h) elements attachments ->
    h !! payloads = Some (ObjArray locs) ->
    List.Forall2 (payload_at h) locs acc ->
    exists h',
      off payloads h h'
      /\ match resolveAll net config attachments acc tr with
         | (Return ps, tr') =>
             exists added,
               forEach
                 (fun a _ =>
                    StoreClient.resolveAttachment net config payloads a)
                 elements index h tr
               = (Return tt, h', tr')
               /\ h' !! payloads = Some (ObjArray (locs ++ added))
               /\ List.Forall2 (payload_at h') (locs ++ added) ps
               /\ List.Forall (fun pl => h !! pl = None /\ pl <> payloads)
                    added
         | (Throw e, tr') =>
             forEach
               (fun a _ => StoreClient.resolveAttachment net config payloads a)
               elements index h tr
             = (Throw e, h', tr')
         end.
Proof.
  induction elements as [|a elements IH];
    intros attachments h tr locs acc index Hall Hp Hacc.
  - inversion Hall; subst. exists h. split; [apply off_refl|].
    cbn. exists []. rewrite app_nil_r. auto.
  - inversion Hall as [|? att ? rest Ha Hrest]; subst.
    cbn [resolveAll]. unfold bind at 1.
    destruct (resolveAttachment_run h tr payloads locs a att Hp Ha)
      as (h1 & Hoff1 & Hstep).
    destruct (resolveAttachment net config att tr) as [[p|e] tr1].
    + destruct Hstep as (pl & Hrun & Hp1 & Hfresh & Hpl).
      assert (Hs : forEach
                     (fun a _ =>
                        StoreClient.resolveAttachment net config payloads a)
                     (a :: elements) index h tr
                   = forEach
                       (fun a _ =>
                          StoreClient.resolveAttachment net config payloads a)
                       elements (S index) h1 tr1).
      { cbn [forEach]. now rewrite (bindH_return _ _ _ _ _ _ _ Hrun). }
      rewrite Hs.
      destruct (IH rest h1 tr1 (locs ++ [pl]) (acc ++ [p]) (S index))
        as (h' & Hoff' & Hloop).
      * eapply List.Forall2_impl; [|exact Hrest].
        intros x y. eapply descriptor_at_off; eauto.
      * exact Hp1.
      * apply List.Forall2_app.
        -- eapply List.Forall2_impl; [|exact Hacc].
           intros x y. eapply payload_at_off; eauto.
        -- constructor; [exact Hpl | constructor].
      * exists h'. split; [eapply off_trans; eauto|].
        destruct (resolveAll net config rest (acc ++ [p]) tr1)
          as [[ps|e] tr']; [|exact Hloop].
        destruct Hloop as (added & Hrun' & Hp' & Hps & Hnew).
        exists (pl :: added). rewrite <- app_assoc in Hp', Hps.
        split; [exact Hrun'|]. split; [exact Hp'|]. split; [exact Hps|].
        constructor; [exact Hfresh|].
        eapply List.Forall_impl; [|exact Hnew].
        intros x [Hx Hxp]. split; [|exact Hxp].
        destruct (h !! x) as [o|] eqn:E; [|reflexivity].
        rewrite (Hoff1 x o Hxp E) in Hx. discriminate.
    + exists h1. split; [exact Hoff1|].
      cbn [forEach]. unfold bindH at 1. now rewrite Hstep.
Qed.

Lemma off_new l (h h1 h' : heap) o :
  h !! l = None -> off l (<[l := o]> h) h' -> h ⊆ h'.
Proof.
  intros Hnew Hoff. apply map_subseteq_spec. intros x ox Hx.
  apply Hoff.
  - intros ->. congruence.
  - rewrite lookup_insert_ne; [exact Hx|]. intros <-. congruence.
Qed.

Lemma descriptor_at_weaken (h h' : heap) a att :
  h ⊆ h' -> descriptor_at h a att -> descriptor_at h' a att.
Proof.
  intros Hsub (data & Ha & Hdata). exists data. split.
  - eapply lookup_weaken; eauto.
  - destruct data as [b|], (AttachmentInput.data att) as [bytes|];
      cbn in *; auto.
    eapply lookup_weaken; eauto.
Qed.

Lemma prepareAttachments_run h tr attachments pattachments :
  option_at (attachments_at h) attachments pattachments ->
  exists h',
    h ⊆ h'
    /\ match prepareAttachments net config pattachments tr with
       | (Return ps, tr') =>
           exists array locs,
             StoreClient.prepareAttachments net config attachments h tr
             = (Return array, h', tr')
             /\ h' !! array = Some (ObjArray locs)
             /\ List.Forall2 (payload_at h') locs ps
             /\ h !! array = None
             /\ List.Forall (fun pl => h !! pl = None) locs
       | (Throw e, tr') =>
           StoreClient.prepareAttachments net config attachments h tr
           = (Throw e, h', tr')
       end.
Proof.
  intros Hat. unfold StoreClient.prepareAttachments, prepareAttachments.
  assert (Hel : exists elements,
             (match attachments with
              | Some l => load_array l
              | None => retH []
              end) h tr = (Return elements, h, tr)
             /\ List.Forall2 (descriptor_at h) elements
                  (default [] pattachments)).
  { destruct attachments as [l|], pattachments as [pa|]; cbn in Hat;
      try contradiction.
    - destruct Hat as (elements & Hl & Hall). exists elements.
      split; [now apply load_array_run | exact Hall].
    - exists []. split; [reflexivity | constructor]. }
  destruct Hel as (elements & Hrun & Hall).
  rewrite (bindH_return _ _ _ _ _ _ _ Hrun).
  pose proof (fresh_lookup h) as Hnew.
  destruct elements as [|a elements].
  - assert (Hnone : prepareAttachments net config pattachments tr
                    = (Return [], tr)).
    { inversion Hall as [Hd|]; subst.
      destruct pattachments as [[|x xs]|]; cbn in *;
        [reflexivity | discriminate | reflexivity]. }
    unfold prepareAttachments in Hnone. rewrite Hnone. unfold alloc.
    exists (<[fresh (dom h) := ObjArray []]> h).
    split; [now apply insert_subseteq|].
    eexists _, []. split; [reflexivity|].
    split; [apply lookup_insert_eq|]. split; [constructor|].
    split; [exact Hnew | constructor].
  - destruct pattachments as [[|att rest]|]; cbn [default] in Hall;
      [inversion Hall | | inversion Hall].
    unfold bindH at 1. unfold alloc at 1.
    set (payloads := fresh (dom h)) in *.
    set (h1 := <[payloads := ObjArray []]> h).
    destruct (resolveAll_run payloads (a :: elements) (att :: rest) h1 tr
                [] [] 0%nat) as (h' & Hoff & Hloop).
    + eapply List.Forall2_impl; [|exact Hall].
      intros y z. apply descriptor_at_weaken. now apply insert_subseteq.
    + apply lookup_insert_eq.
    + constructor.
    + exists h'. split; [eapply off_new; eauto|].
      destruct (resolveAll net config (att :: rest) [] tr) as [[ps|e] tr'].
      * destruct Hloop as (added & Hrun' & Hp' & Hps & Hadded).
        cbn [app] in Hp', Hps.
        exists payloads, added.
        split.
        { etrans; [apply (bindH_return _ _ _ _ _ _ _ Hrun')|]. reflexivity. }
        split; [exact Hp'|]. split; [exact Hps|]. split; [exact Hnew|].
        eapply List.Forall_impl; [|exact Hadded].
        intros x [Hx Hxp]. unfold h1 in Hx.
        now rewrite lookup_insert_ne in Hx by auto.
      * apply (bindH_throw _ _ _ _ _ _ _ Hloop).
Qed.

(** *** Building and sending the request *)

Lemma payload_at_weaken (h h' : heap) pl p :
  h ⊆ h' -> payload_at h pl p -> payload_at h' pl p.
Proof.
  intros Hsub (b & Hp & Hb). exists b.
  split; eapply lookup_weaken; eauto.
Qed.

Lemma payload_at_form h f entries entries' pl p :
  h !! f = Some (ObjFormData entries) ->
  payload_at h pl p ->
  payload_at (<[f := ObjFormData entries']> h) pl p.
Proof.
  intros Hf (b & Hp & Hb). exists b. split.
  - rewrite lookup_insert_ne; [exact Hp|]. intros ->. congruence.
  - rewrite lookup_insert_ne; [exact Hb|]. intros ->. congruence.
Qed.

Lemma formFields_run f pairs :
  forall h tr entries index,
    h !! f = Some (ObjFormData entries) ->
    forEach (fun kv _ => form_append f (FormField (fst kv) (snd kv)))
      pairs index h tr
    = (Return tt, <[f := ObjFormData (entries ++ formFields pairs)]> h, tr).
Proof.
  induction pairs as [|kv pairs IH]; intros h tr entries index Hf.
  - cbn [forEach formFields List.map]. unfold retH.
    now rewrite app_nil_r, insert_id.
  - cbn [forEach formFields List.map].
    rewrite (bindH_return _ _ _ _ _ _ _ (form_append_run _ _ _ _ _ Hf)).
    erewrite IH by apply lookup_insert_eq.
    rewrite insert_insert_eq, <- app_assoc. reflexivity.
Qed.

Lemma appendFile_run h tr f entries pl p :
  h !! f = Some (ObjFormData entries) ->
  payload_at h pl p ->
  StoreClient.appendFile f pl h tr
  = (Return tt, <[f := ObjFormData (entries ++ [formFile p])]> h, tr).
Proof.
  intros Hf (b & Hp & Hb). unfold StoreClient.appendFile.
  rewrite (bindH_return _ _ _ _ _ _ _ (load_run _ _ _ _ Hp)).
  rewrite (bindH_return _ _ _ _ _ _ _ (load_buffer_run _ _ _ _ Hb)).
  now apply form_append_run.
Qed.

Lemma formFiles_run f locs :
  forall ps h tr entries index,
    h !! f = Some (ObjFormData entries) ->
    List.Forall2 (payload_at h) locs ps ->
    forEach (fun payload _ => StoreClient.appendFile f payload)
      locs index h tr
    = (Return tt,
       <[f := ObjFormData (entries ++ List.map formFile ps)]> h, tr).
Proof.
  induction locs as [|pl locs IH]; intros ps h tr entries index Hf Hall.
  - inversion Hall; subst. cbn [forEach List.map]. unfold retH.
    now rewrite app_nil_r, insert_id.
  - inversion Hall as [|? p ? ps' Hp Hrest]; subst.
    cbn [forEach List.map].
    rewrite (bindH_return _ _ _ _ _ _ _ (appendFile_run _ _ _ _ _ _ Hf Hp)).
    rewrite (IH ps' _ _ (entries ++ [formFile p])).
    + rewrite insert_insert_eq, <- app_assoc. reflexivity.
    + apply lookup_insert_eq.
    + eapply List.Forall2_impl; [|exact Hrest].
      intros x y. now apply payload_at_form with (entries := entries).
Qed.

Lemma alloc_run (o : object) h tr :
  alloc o h tr = (Return (fresh (dom h)), <[fresh (dom h) := o]> h, tr).
Proof. reflexivity. Qed.

Lemma store_run l (o : object) h tr :
  store l o h tr = (Return tt, <[l := o]> h, tr).
Proof. reflexivity. Qed.

Lemma readRequest_run h tr endpoint init url method headers sent body content :
  h !! endpoint = Some (ObjURL url) ->
  h !! init = Some (ObjInit method headers body) ->
  h !! headers = Some (ObjHeaders sent) ->
  match body, content with
  | None, None => True
  | Some (BodyText s), Some (BodyString s') => s = s'
  | Some (BodyFormRef f), Some (BodyForm entries) =>
      h !! f = Some (ObjFormData entries)
  | _, _ => False
  end ->
  StoreClient.readRequest endpoint init h tr
  = (Return (ToURL url,
             {| RequestInit.method := method;
                RequestInit.headers := sent;
                RequestInit.body := content |}), h, tr).
Proof.
  intros Hu Hi Hh Hb. unfold StoreClient.readRequest.
  rewrite (bindH_return _ _ _ _ _ _ _ (load_url_run _ _ _ _ Hu)).
  rewrite (bindH_return _ _ _ _ _ _ _ (load_run _ _ _ _ Hi)).
  rewrite (bindH_return _ _ _ _ _ _ _ (load_headers_run _ _ _ _ Hh)).
  destruct body as [[s|f]|], content as [[s'|entries]|]; try contradiction.
  - subst s'. reflexivity.
  - rewrite (bindH_return _ _ _ _ _ _ _
               (bindH_return _ _ _ _ _ _ _ (load_form_run _ _ _ _ Hb))).
    reflexivity.
  - reflexivity.
Qed.

Lemma lookup_insert_new (h : heap) l l' o o' :
  h !! l = Some o -> h !! l' = None -> <[l' := o']> h !! l = Some o.
Proof.
  intros Hl Hl'. rewrite lookup_insert_ne; [exact Hl|].
  intros ->. congruence.
Qed.

Lemma send_run h tr method hasAttachments e signed locs ps :
  h !! e = Some (ObjSearchParams signed) ->
  List.Forall2 (payload_at h) locs ps ->
  exists h',
    StoreClient.send net config method hasAttachments e locs h tr
    = (fst (interpretResponse
              (net tr (fst (requestFor config method hasAttachments signed ps))
                 (snd (requestFor config method hasAttachments signed ps)))
              (tr ++ [requestFor config method hasAttachments signed ps])),
       h', tr ++ [requestFor config method hasAttachments signed ps]).
Proof.
  intros He Hps.
  set (accept := ("Accept", "application/json")).
  set (ep := fresh (dom h)).
  pose proof (fresh_lookup h) as Hep. fold ep in Hep.
  set (h1 := <[ep := ObjURL (URL.make ADMIN_PATH (accountUrl config))]> h).
  set (hd := fresh (dom h1)).
  pose proof (fresh_lookup h1) as Hhd. fold hd in Hhd.
  set (h2 := <[hd := ObjHeaders [accept]]> h1).
  set (flag := is_GET method || hasAttachments).
  set (url := if flag
              then URL.set_search (URL.make ADMIN_PATH (accountUrl config))
                     (URLSearchParams.toString signed)
              else URL.make ADMIN_PATH (accountUrl config)).
  set (h3 := if flag then <[ep := ObjURL url]> h2 else h2).
  assert (He1 : h1 !! e = Some (ObjSearchParams signed))
    by (now apply lookup_insert_new).
  assert (He2 : h2 !! e = Some (ObjSearchParams signed))
    by (now apply lookup_insert_new).
  assert (Hep1 : h1 !! ep
                 = Some (ObjURL (URL.make ADMIN_PATH (accountUrl config))))
    by apply lookup_insert_eq.
  assert (Hep2 : h2 !! ep
                 = Some (ObjURL (URL.make ADMIN_PATH (accountUrl config))))
    by (now apply lookup_insert_new).
  assert (Hhd2 : h2 !! hd = Some (ObjHeaders [accept]))
    by apply lookup_insert_eq.
  assert (Hne : hd <> ep) by (intros E; rewrite E in Hhd; congruence).
  assert (Hps2 : List.Forall2 (payload_at h2) locs ps).
  { eapply List.Forall2_impl; [|exact Hps]. intros x y.
    apply payload_at_weaken. unfold h2, h1.
    etrans; [apply insert_subseteq; exact Hep|].
    now apply insert_subseteq. }
  (* the conditional assignment of [endpoint.search] *)
  assert (H3 : h3 !! e = Some (ObjSearchParams signed)
               /\ h3 !! ep = Some (ObjURL url)
               /\ h3 !! hd = Some (ObjHeaders [accept])
               /\ List.Forall2 (payload_at h3) locs ps).
  { unfold h3, url. destruct flag.
    - split; [|split; [|split]].
      + rewrite lookup_insert_ne; [exact He2|]. intros E. congruence.
      + apply lookup_insert_eq.
      + rewrite lookup_insert_ne; [exact Hhd2|]. auto.
      + eapply List.Forall2_impl; [|exact Hps2]. intros x y (b & Hx & Hb).
        exists b. split.
        * rewrite lookup_insert_ne; [exact Hx|]. intros E. congruence.
        * rewrite lookup_insert_ne; [exact Hb|]. intros E. congruence.
    - auto. }
  destruct H3 as (He3 & Hep3 & Hhd3 & Hps3).
  assert (Hstep3 : forall k : unit -> H Envelope.t,
             bindH (if flag then
                      bindH (load_search e)
                        (fun pairs =>
                           bindH (load_url ep)
                             (fun u =>
                                store ep
                                  (ObjURL
                                     (URL.set_search u
                                        (URLSearchParams.toString pairs)))))
                    else retH tt) k h2 tr
             = k tt h3 tr).
  { intros k. unfold h3, url. destruct flag; [|reflexivity].
    apply bindH_return.
    rewrite (bindH_return _ _ _ _ _ _ _ (load_search_run _ _ _ _ He2)).
    rewrite (bindH_return _ _ _ _ _ _ _ (load_url_run _ _ _ _ Hep2)).
    reflexivity. }
  (* the body *)
  assert (Hbody :
            exists h4 body sent content,
              (if is_GET method then retH None
               else if hasAttachments then
                 bindH (alloc (ObjFormData []))
                   (fun form =>
                      bindH (load_search e)
                        (fun pairs =>
                           bindH
                             (forEach
                                (fun kv _ =>
                                   form_append form
                                     (FormField (fst kv) (snd kv))) pairs 0)
                             (fun _ =>
                                bindH
                                  (forEach
                                     (fun payload _ =>
                                        StoreClient.appendFile form payload)
                                     locs 0)
                                  (fun _ => retH (Some (BodyFormRef form))))))
               else
                 bindH (load_search e)
                   (fun pairs =>
                      bindH (load_headers hd)
                        (fun sent =>
                           bindH
                             (store hd
                                (ObjHeaders
                                   (sent
                                    ++ [("Content-Type",
                                         "application/x-www-form-urlencoded")])))
                             (fun _ =>
                                retH
                                  (Some
                                     (BodyText
                                        (URLSearchParams.toString pairs)))))))
                h3 tr
              = (Return body, h4, tr)
              /\ h4 !! ep = Some (ObjURL url)
              /\ h4 !! hd = Some (ObjHeaders sent)
              /\ match body, content with
                 | None, None => True
                 | Some (BodyText s), Some (BodyString s') => s = s'
                 | Some (BodyFormRef f), Some (BodyForm entries) =>
                     h4 !! f = Some (ObjFormData entries)
                 | _, _ => False
                 end
              /\ requestFor config method hasAttachments signed ps
                 = (ToURL url,
                    {| RequestInit.method := Some method;
                       RequestInit.headers := sent;
                       RequestInit.body := content |})).
  { unfold requestFor, url, flag. destruct (is_GET method) eqn:Eg.
    - exists h3, None, [accept], None. cbn [orb]. auto.
    - cbn [orb]. destruct hasAttachments.
      + set (f := fresh (dom h3)).
        pose proof (fresh_lookup h3) as Hf. fold f in Hf.
        exists (<[f := ObjFormData (buildForm signed ps)]> h3),
          (Some (BodyFormRef f)), [accept],
          (Some (BodyForm (buildForm signed ps))).
        split; [|split; [|split; [|split]]].
        * etrans.
          { apply bindH_return
              with (a := f) (h' := <[f := ObjFormData []]> h3) (tr' := tr).
            reflexivity. }
          assert (Hex : <[f := ObjFormData []]> h3 !! e
                        = Some (ObjSearchParams signed))
            by (now apply lookup_insert_new).
          rewrite (bindH_return _ _ _ _ _ _ _ (load_search_run _ _ _ _ Hex)).
          rewrite (bindH_return _ _ _ _ _ _ _
                     (formFields_run f signed _ tr [] 0%nat
                        (lookup_insert_eq _ _ _))).
          rewrite insert_insert_eq.
          assert (Hpsx : List.Forall2
                           (payload_at
                              (<[f := ObjFormData ([] ++ formFields signed)]> h3))
                           locs ps).
          { eapply List.Forall2_impl; [|exact Hps3]. intros x y.
            apply payload_at_weaken. now apply insert_subseteq. }
          rewrite (bindH_return _ _ _ _ _ _ _
                     (formFiles_run f locs ps _ tr _ 0%nat
                        (lookup_insert_eq _ _ _) Hpsx)).
          rewrite insert_insert_eq. reflexivity.
        * now apply lookup_insert_new.
        * now apply lookup_insert_new.
        * apply lookup_insert_eq.
        * reflexivity.
      + exists (<[hd := ObjHeaders
                          ([accept]
                           ++ [("Content-Type",
                                "application/x-www-form-urlencoded")])]> h3),
          (Some (BodyText (URLSearchParams.toString signed))),
          ([accept]
           ++ [("Content-Type", "application/x-www-form-urlencoded")]),
          (Some (BodyString (URLSearchParams.toString signed))).
        split; [|split; [|split; [|split]]].
        * rewrite (bindH_return _ _ _ _ _ _ _ (load_search_run _ _ _ _ He3)).
          rewrite (bindH_return _ _ _ _ _ _ _ (load_headers_run _ _ _ _ Hhd3)).
          reflexivity.
        * rewrite lookup_insert_ne; [exact Hep3 | exact Hne].
        * apply lookup_insert_eq.
        * reflexivity.
        * reflexivity. }
  destruct Hbody as (h4 & body & sent & content & Hrun4 & Hep4 & Hhd4
                     & Hcontent & Hreq).
  set (it := fresh (dom h4)).
  pose proof (fresh_lookup h4) as Hit. fold it in Hit.
  set (h6 := <[it := ObjInit (Some method) hd body]> h4).
  assert (Hstep6 : forall k : unit -> H Envelope.t,
             bindH (match body with
                    | Some b => store it (ObjInit (Some method) hd (Some b))
                    | None => retH tt
                    end) k (<[it := ObjInit (Some method) hd None]> h4) tr
             = k tt h6 tr).
  { intros k. unfold h6, bindH, store, retH. destruct body; [|reflexivity].
    now rewrite insert_insert_eq. }
  assert (Hread : StoreClient.readRequest ep it h6 tr
                  = (Return (requestFor config method hasAttachments signed ps),
                     h6, tr)).
  { rewrite Hreq. apply readRequest_run with (headers := hd) (body := body).
    - now apply lookup_insert_new.
    - apply lookup_insert_eq.
    - now apply lookup_insert_new.
    - destruct body as [[s|f]|], content as [[s'|entries]|]; auto.
      now apply lookup_insert_new. }
  exists h6.
  unfold StoreClient.send.
  etrans.
  { apply bindH_return with (a := ep) (h' := h1) (tr' := tr). reflexivity. }
  etrans.
  { apply bindH_return with (a := hd) (h' := h2) (tr' := tr). reflexivity. }
  rewrite Hstep3.
  rewrite (bindH_return _ _ _ _ _ _ _ Hrun4).
  etrans.
  { apply bindH_return
      with (a := it) (h' := <[it := ObjInit (Some method) hd None]> h4)
           (tr' := tr).
    reflexivity. }
  rewrite Hstep6.
  rewrite (bindH_return _ _ _ _ _ _ _ Hread).
  unfold bindH, fetchH, StoreClient.interpret.
  rewrite (surjective_pairing (interpretResponse _ _)).
  rewrite <- (surjective_pairing (requestFor _ _ _ _ _)).
  now rewrite interpretResponse_trace.
Qed.

Lemma signParams_unfold action params :
  signParams config action params
  = URLSearchParams.append
      (fst (buildParamState action (prepareParams params))) "hash"
      (MD5.hexdigest
         (snd (buildParamState action (prepareParams params))
          +:+ apiKey config)).
Proof.
  unfold signParams.
  now destruct (buildParamState action (prepareParams params)).
Qed.

Lemma params_at_weaken (h h' : heap) l params :
  h ⊆ h' -> params_at h l params -> params_at h' l params.
Proof.
  intros Hsub (props & Hl & Hall). exists props.
  split; [eapply lookup_weaken; eauto|].
  eapply List.Forall2_impl; [|exact Hall].
  intros [k v] [k' pv] [Hk Hv]. split; [exact Hk|].
  destruct v, pv; cbn in *; auto. eapply lookup_weaken; eauto.
Qed.

(** The store-level [call], run on a store that holds the options, throws
    or returns what the value-level [call] does on the options it holds,
    and issues the same requests. *)
Theorem store_call_refines h tr action options poptions :
  options_at h options poptions ->
  exists h',
    StoreClient.call net config action options h tr
    = (fst (call net config action poptions tr), h',
       snd (call net config action poptions tr)).
Proof.
  intros Hat.
  assert (Hopt : exists params attachments,
             (match options with
              | Some l => load l
              | None => retH (ObjOptions None None None)
              end) h tr
             = (Return (ObjOptions (poptions ≫= CallOptions.method)
                          params attachments), h, tr)
             /\ option_at (params_at h) params
                  (poptions ≫= CallOptions.params)
             /\ option_at (attachments_at h) attachments
                  (poptions ≫= CallOptions.attachments)).
  { destruct options as [l|], poptions as [o|]; cbn in Hat;
      try contradiction.
    - destruct Hat as (params & attachments & Hl & Hp & Ha).
      exists params, attachments. split; [now apply load_run | auto].
    - exists None, None. cbn. auto. }
  destruct Hopt as (params & attachments & Hrun & Hp & Ha).
  unfold StoreClient.call.
  rewrite (bindH_return _ _ _ _ _ _ _ Hrun). cbv beta iota.
  rewrite call_run.
  destruct (prepareAttachments_run h tr attachments
              (poptions ≫= CallOptions.attachments) Ha)
    as (h1 & Hsub1 & Hprep).
  destruct (prepareAttachments net config
              (poptions ≫= CallOptions.attachments) tr)
    as [[ps|e] tr1].
  2:{ exists h1. now rewrite (bindH_throw _ _ _ _ _ _ _ Hprep). }
  destruct Hprep as (array & locs & Hrun1 & Harray & Hps & _ & _).
  rewrite (bindH_return _ _ _ _ _ _ _ Hrun1).
  rewrite (bindH_return _ _ _ _ _ _ _ (load_array_run _ _ _ _ Harray)).
  assert (Hp1 : option_at (params_at h1) params
                  (poptions ≫= CallOptions.params)).
  { destruct params, (poptions ≫= CallOptions.params); cbn in *; auto.
    eapply params_at_weaken; eauto. }
  destruct (prepareParams_run h1 tr1 params _ Hp1)
    as (next & h2 & Hrun2 & Hsub2 & _ & Hnext).
  rewrite (bindH_return _ _ _ _ _ _ _ Hrun2).
  destruct (buildParamState_run h2 tr1 action next _ Hnext)
    as (encoded & Hnew & Hrun3).
  rewrite (bindH_return _ _ _ _ _ _ _ Hrun3). cbn [fst snd].
  rewrite (bindH_return _ _ _ _ _ _ _
             (search_append_run _ _ _ _ _ _ (lookup_insert_eq _ _ _))).
  rewrite insert_insert_eq, <- signParams_unfold.
  assert (Hlen : List.length locs = List.length ps)
    by (eapply Forall2_length; exact Hps).
  rewrite Hlen, interpretResponse_trace. unfold buildRequest.
  apply send_run; [apply lookup_insert_eq|].
  eapply List.Forall2_impl; [|exact Hps]. intros x y Hxy.
  apply payload_at_weaken with (h := h1); [|exact Hxy].
  etrans; [exact Hsub2|]. now apply insert_subseteq.
Qed.

End Refinement.

(** ** The caller's objects after a call *)

Section CallerInputs.
Import Store StoreView.
Variable net : Network.
Variable config : WorksectionConfig.

Lemma attachments_at_weaken (h h' : heap) l attachments :
  h ⊆ h' -> attachments_at h l attachments -> attachments_at h' l attachments.
Proof.
  intros Hsub (elements & Hl & Hall). exists elements.
  split; [eapply lookup_weaken; eauto|].
  eapply List.Forall2_impl; [|exact Hall].
  intros x y. now apply descriptor_at_weaken.
Qed.

Lemma options_at_weaken (h h' : heap) options poptions :
  h ⊆ h' -> options_at h options poptions -> options_at h' options poptions.
Proof.
  intros Hsub. destruct options as [l|], poptions as [o|]; cbn; auto.
  intros (params & attachments & Hl & Hp & Ha).
  exists params, attachments.
  split; [eapply lookup_weaken; eauto|]. split.
  - destruct params, (CallOptions.params o); cbn in *; auto.
    eapply params_at_weaken; eauto.
  - destruct attachments, (CallOptions.attachments o); cbn in *; auto.
    eapply attachments_at_weaken; eauto.
Qed.

(** C10. Whatever the store and the options reference, whether [call]
    returns or throws, every object that was in the store before the call
    is in it afterwards, unchanged: the options, the parameter map and its
    arrays, the attachments array, its descriptors and their buffers.  When
    the store holds well-formed options, they still denote the same values
    after the call, which computes what the value-level [call] computes on
    them.  The parameters are copied into an object that did not exist
    before, sharing the values of the original; the attachments are
    resolved into an array and payload objects that did not exist before. *)
Theorem call_keeps_caller_inputs (action : string) (options : option loc)
  (h : heap) (tr : Trace) :
  h ⊆ snd (fst (StoreClient.call net config action options h tr))
  /\ (forall poptions,
        options_at h options poptions ->
        options_at (snd (fst (StoreClient.call net config action options h tr)))
          options poptions
        /\ fst (fst (StoreClient.call net config action options h tr))
           = fst (call net config action poptions tr)
        /\ snd (StoreClient.call net config action options h tr)
           = snd (call net config action poptions tr))
  /\ (forall params pparams,
        option_at (params_at h) params pparams ->
        exists next h',
          StoreClient.prepareParams params h tr = (Return next, h', tr)
          /\ h ⊆ h'
          /\ h !! next = None
          /\ params_at h' next (prepareParams pparams))
  /\ (forall attachments pattachments,
        option_at (attachments_at h) attachments pattachments ->
        exists h',
          h ⊆ h'
          /\ match prepareAttachments net config pattachments tr with
             | (Return ps, tr') =>
                 exists array locs,
                   StoreClient.prepareAttachments net config attachments h tr
                   = (Return array, h', tr')
                   /\ h' !! array = Some (ObjArray locs)
                   /\ List.Forall2 (payload_at h') locs ps
                   /\ h !! array = None
                   /\ List.Forall (fun pl => h !! pl = None) locs
             | (Throw e, tr') =>
                 StoreClient.prepareAttachments net config attachments h tr
                 = (Throw e, h', tr')
             end).
Proof.
  assert (Hframe :
            h ⊆ snd (fst (StoreClient.call net config action options h tr))).
  { now apply (keeps_call h net config action options h tr). }
  split; [exact Hframe|]. split; [|split].
  - intros poptions Hat. split.
    + eapply options_at_weaken; eauto.
    + destruct (store_call_refines net config h tr action options poptions Hat)
        as (h' & ->). auto.
  - intros params pparams. apply prepareParams_run.
  - intros attachments pattachments. apply prepareAttachments_run.
Qed.

End CallerInputs.

Lemma call_keeps_caller_inputs_witness :
  StoreView.options_at
    (snd (fst (StoreClient.call sample_file_server sample_config "post_task"
                 (Some 1%positive) sample_store [])))
    (Some 1%positive) (Some sample_store_options)
  /\ snd (StoreClient.call sample_file_server sample_config "post_task"
            (Some 1%positive) sample_store [])
     = snd (call sample_file_server sample_config "post_task"
              (Some sample_store_options) []).
Proof.
  assert (Hholds : StoreView.options_at sample_store (Some 1%positive)
                     (Some sample_store_options)).
  { exists (Some 2%positive), (Some 4%positive).
    split; [reflexivity|]. split.
    - eexists. split; [reflexivity|].
      repeat constructor; reflexivity.
    - eexists. split; [reflexivity|].
      repeat constructor; eexists; (split; [reflexivity|]); reflexivity. }
  destruct (proj1 (proj2 (call_keeps_caller_inputs sample_file_server
                            sample_config "post_task" (Some 1%positive)
                            sample_store []))
              (Some sample_store_options) Hholds)
    as (Hat & _ & Htrace).
  split; [exact Hat | exact Htrace].
Defined.

(** ** Transport failures *)


Lemma call_return_inv (net : Network) (config : WorksectionConfig)
  (action : string) (options : option CallOptions.t) (tr tr' : Trace)
  (json : Envelope.t) :
  call net config action options tr = (Return json, tr') ->
  exists payloads tr1 response,
    prepareAttachments net config (options ≫= CallOptions.attachments) tr
    = (Return payloads, tr1)
    /\ tr' = tr1 ++ [buildRequest config action options payloads]
    /\ net tr1 (fst (buildRequest config action options payloads))
         (snd (buildRequest config action options payloads))
       = Resolved response
    /\ Response.ok response = true
    /\ Response.json response = JsonParsed json
    /\ Envelope.status json = Some "ok".
Proof.
  rewrite call_run.
  destruct (prepareAttachments _ _ _ tr) as [[payloads|e] tr1] eqn:Hprep;
    [|discriminate].
  cbv zeta.
  destruct (net tr1 _ _) as [message|response] eqn:Hnet; [discriminate|].
  destruct (Response.ok response) eqn:Hok;
    [|unfold interpretResponse; rewrite Hok; cbn [negb];
      destruct (Response.text response); discriminate].
  destruct (Response.json response) as [parsed|message] eqn:Hjson;
    [|unfold interpretResponse; rewrite Hok, Hjson; discriminate].
  rewrite (interpretResponse_parsed _ _ _ Hok Hjson).
  intros [= Hout <-]. apply parsedOutcome_return in Hout as [-> Hst].
  exists payloads, tr1, response.
  repeat (split; [first [reflexivity | assumption]|]). exact Hst.
Qed.

(** X1. When the attachments have resolved and the network rejects the API
    request, [call] throws an error whose message is the failure's message
    after ["Failed to reach Worksection API: "] and which carries no status
    code; the API request was issued once and is not tried again. *)
Theorem transport_failure_is_reported
  (net : Network) (config : WorksectionConfig) (action : string)
  (options : option CallOptions.t) (tr tr1 : Trace)
  (payloads : list AttachmentPayload.t) (message : string) :
  prepareAttachments net config (options ≫= CallOptions.attachments) tr
  = (Return payloads, tr1) ->
  net tr1 (fst (buildRequest config action options payloads))
    (snd (buildRequest config action options payloads))
  = Rejected message ->
  call net config action options tr
  = (Throw (WorksectionApiError
              ("Failed to reach Worksection API: " +:+ message) None),
     tr1 ++ [buildRequest config action options payloads]).
Proof.
  intros Hprep Hnet. rewrite call_run, Hprep. cbv zeta. rewrite Hnet.
  reflexivity.
Qed.

Lemma transport_failure_is_reported_witness :
  call (fun _ _ _ => Rejected "getaddrinfo ENOTFOUND acme.worksection.com")
    sample_config "get_users" None []
  = (Throw (WorksectionApiError
              "Failed to reach Worksection API: getaddrinfo ENOTFOUND acme.worksection.com"
              None),
     [buildRequest sample_config "get_users" None []]).
Proof.
  exact (transport_failure_is_reported
           (fun _ _ _ => Rejected "getaddrinfo ENOTFOUND acme.worksection.com")
           sample_config "get_users" None [] [] []
           "getaddrinfo ENOTFOUND acme.worksection.com" eq_refl eq_refl).
Defined.

(** X2. When the API answers with a 2xx response whose body cannot be
    parsed as JSON, [call] throws what [response.json()] rejected with, as
    it is: the error is not wrapped into the client's own error and has no
    status code. *)
Theorem unparsable_body_is_not_wrapped
  (net : Network) (config : WorksectionConfig) (action : string)
  (options : option CallOptions.t) (tr tr1 : Trace)
  (payloads : list AttachmentPayload.t) (response : Response.t)
  (message : string) :
  prepareAttachments net config (options ≫= CallOptions.attachments) tr
  = (Return payloads, tr1) ->
  net tr1 (fst (buildRequest config action options payloads))
    (snd (buildRequest config action options payloads))
  = Resolved response ->
  Response.ok response = true ->
  Response.json response = JsonRejected message ->
  call net config action options tr
  = (Throw (SyntaxError message),
     tr1 ++ [buildRequest config action options payloads]).
Proof.
  intros Hprep Hnet Hok Hjson. rewrite call_run, Hprep. cbv zeta.
  rewrite Hnet. unfold interpretResponse. now rewrite Hok, Hjson.
Qed.

Lemma unparsable_body_is_not_wrapped_witness :
  call sample_file_server sample_config "get_users" None []
  = (Throw (SyntaxError "Unexpected token"),
     [buildRequest sample_config "get_users" None []]).
Proof.
  exact (unparsable_body_is_not_wrapped sample_file_server sample_config
           "get_users" None [] [] []
           {| Response.status := 200; Response.statusText := "OK";
              Response.text := Return EmptyString;
              Response.json := JsonRejected "Unexpected token";
              Response.arrayBuffer := Return [7] |}
           "Unexpected token" eq_refl eq_refl eq_refl eq_refl).
Defined.

(** ** Attachments that resolve without the network *)

Lemma resolveAttachment_inline (net : Network) (config : WorksectionConfig)
  (attachment : AttachmentInput.t) (tr : Trace) :
  inline attachment = true ->
  resolveAttachment net config attachment tr
  = (Return (inlinePayload attachment), tr).
Proof.
  unfold inline, resolveAttachment, inlinePayload, payloadOf, bind, ret.
  destruct (AttachmentInput.data attachment) as [data|];
    destruct (Js.truthy (AttachmentInput.sourceUrl attachment));
    cbn; intros H; try discriminate H; reflexivity.
Qed.

Lemma resolveAll_inline (net : Network) (config : WorksectionConfig)
  (attachments : list AttachmentInput.t) (tr : Trace) :
  List.forallb inline attachments = true ->
  forall acc,
    resolveAll net config attachments acc tr
    = (Return (acc ++ List.map inlinePayload attachments), tr).
Proof.
  induction attachments as [|a rest IH]; intros H acc.
  - cbn. now rewrite app_nil_r.
  - cbn [forallb] in H. apply andb_prop in H as [Ha Hrest].
    cbn [resolveAll List.map]. unfold bind.
    rewrite resolveAttachment_inline by exact Ha.
    rewrite IH by exact Hrest. now rewrite <- app_assoc.
Qed.

(** X3. Attachments that all carry inline data and no source URL are
    resolved without any HTTP request, whatever the network would answer:
    each payload keeps the field, the file name and the bytes of its
    descriptor, in the order given, and the call then issues exactly one
    request, the API request built from them. *)
Theorem inline_attachments_resolve_offline
  (net : Network) (config : WorksectionConfig) (action : string)
  (options : option CallOptions.t) (attachments : list AttachmentInput.t)
  (tr : Trace) :
  options ≫= CallOptions.attachments = Some attachments ->
  List.forallb inline attachments = true ->
  prepareAttachments net config (Some attachments) tr
  = (Return (List.map inlinePayload attachments), tr)
  /\ snd (call net config action options tr)
     = tr ++ [buildRequest config action options
                (List.map inlinePayload attachments)].
Proof.
  intros Hopt Hin.
  assert (Hprep : prepareAttachments net config (Some attachments) tr
                  = (Return (List.map inlinePayload attachments), tr)).
  { unfold prepareAttachments. destruct attachments as [|a rest] eqn:E;
      [reflexivity|].
    rewrite <- E in *. now rewrite resolveAll_inline. }
  split; [exact Hprep|].
  apply call_trace. now rewrite Hopt.
Qed.

Lemma inline_attachments_resolve_offline_witness :
  prepareAttachments sample_not_found sample_config (Some [sample_inline]) []
  = (Return [{| AttachmentPayload.field := "attach[0]";
                AttachmentPayload.filename := "notes.txt";
                AttachmentPayload.data := [104; 105];
                AttachmentPayload.contentType := Some "text/plain" |}], []).
Proof.
  exact (proj1 (inline_attachments_resolve_offline sample_not_found
                  sample_config "post_task" (sample_attachments [sample_inline])
                  [sample_inline] [] eq_refl eq_refl)).
Defined.

(** ** A download feeds the upload *)

Lemma resolveAttachment_remote (net : Network) (config : WorksectionConfig)
  (attachment : AttachmentInput.t) (url : string) (tr : Trace) :
  AttachmentInput.data attachment = None ->
  AttachmentInput.sourceUrl attachment = Some url ->
  url <> EmptyString ->
  resolveAttachment net config attachment tr
  = match fetchRemoteAttachment net config url tr with
    | (Return bytes, tr') => (Return (payloadOf attachment bytes), tr')
    | (Throw e, tr') => (Throw e, tr')
    end.
Proof.
  intros Hd Hu Hne. unfold resolveAttachment, payloadOf, bind, ret.
  rewrite Hd, Hu. destruct url as [|c url]; [now destruct Hne|].
  cbn -[fetchRemoteAttachment].
  destruct (fetchRemoteAttachment net config (String c url) tr)
    as [[bytes|e] tr']; reflexivity.
Qed.

(** X4. A call with one remote attachment whose download succeeds (a 2xx
    answer whose body is read and has at least one byte) issues two
    requests, the download first and the API request second; the file part
    of the multipart body holds exactly the bytes the download answered,
    under the descriptor's field and file name.  The part's type is the
    generic binary one when the descriptor names none; otherwise it is the
    descriptor's content type as [new Blob] keeps it: in lower case, and
    empty when it has a character outside U+0020..U+007E. *)
Theorem downloaded_bytes_are_uploaded
  (net : Network) (config : WorksectionConfig) (action : string)
  (options : option CallOptions.t) (attachment : AttachmentInput.t)
  (url : string) (response : Response.t) (bytes : list Z) (tr : Trace) :
  options ≫= CallOptions.attachments = Some [attachment] ->
  AttachmentInput.data attachment = None ->
  AttachmentInput.sourceUrl attachment = Some url ->
  url <> EmptyString ->
  net tr (fst (downloadRequest config url)) (snd (downloadRequest config url))
  = Resolved response ->
  refused (Resolved response) = false ->
  Response.arrayBuffer response = Return bytes ->
  let payload := payloadOf attachment bytes in
  snd (call net config action options tr)
  = tr ++ [downloadRequest config url;
           buildRequest config action options [payload]]
  /\ exists fields,
       RequestInit.body (snd (buildRequest config action options [payload]))
       = Some (BodyForm
                 (fields
                  ++ [FormFile (AttachmentInput.field attachment)
                        {| Blob.bytes := bytes;
                           Blob.type :=
                             if Js.truthy (AttachmentInput.contentType attachment)
                             then Blob.normalize
                                    (default EmptyString
                                       (AttachmentInput.contentType attachment))
                             else "application/octet-stream" |}
                        (AttachmentInput.filename attachment)])).
Proof.
  intros Hopt Hd Hu Hne Hnet Hok Hbytes payload.
  assert (Hfetch : fetchRemoteAttachment net config url tr
                   = (Return bytes, tr ++ [downloadRequest config url])).
  { destruct (fetchRemoteAttachment_outcomes net config url tr) as [Ht Ho].
    rewrite Hnet in Ho. cbn [refused] in Hok. rewrite Hbytes in Hok, Ho.
    apply orb_false_elim in Hok as [Hok Hlen].
    apply negb_false_iff in Hok. rewrite Hok in Ho.
    destruct bytes as [|b bytes]; [discriminate Hlen|].
    destruct (fetchRemoteAttachment net config url tr) as [out tr'].
    cbn [fst snd] in *. now subst. }
  split.
  - change (tr ++ [downloadRequest config url;
                   buildRequest config action options [payload]])
      with (tr ++ [downloadRequest config url]
            ++ [buildRequest config action options [payload]]).
    rewrite app_assoc. apply call_trace. rewrite Hopt.
    unfold prepareAttachments. cbn [resolveAll]. unfold bind.
    rewrite (resolveAttachment_remote net config attachment url tr Hd Hu Hne).
    rewrite Hfetch. reflexivity.
  - rewrite buildRequest_spec. cbn [spec_request snd RequestInit.body].
    exists (formFields (signParams config action (options ≫= CallOptions.params))).
    unfold buildForm. cbn [List.map]. unfold formFile, payload, payloadOf.
    cbn [AttachmentPayload.field AttachmentPayload.filename
         AttachmentPayload.data AttachmentPayload.contentType].
    destruct (AttachmentInput.contentType attachment) as [[|c t]|];
      reflexivity.
Qed.

Lemma downloaded_bytes_are_uploaded_witness :
  snd (call sample_file_server sample_config "post_task"
         (sample_attachments [sample_remote_png]) [])
  = [downloadRequest sample_config "https://files.example.com/a.png";
     buildRequest sample_config "post_task"
       (sample_attachments [sample_remote_png])
       [payloadOf sample_remote_png [7]]]
  /\ exists fields,
       RequestInit.body
         (snd (buildRequest sample_config "post_task"
                 (sample_attachments [sample_remote_png])
                 [payloadOf sample_remote_png [7]]))
       = Some (BodyForm
                 (fields
                  ++ [FormFile "attach[0]"
                        {| Blob.bytes := [7]; Blob.type := "image/png" |}
                        "a.png"])).
Proof.
  exact (downloaded_bytes_are_uploaded sample_file_server sample_config
           "post_task" (sample_attachments [sample_remote_png])
           sample_remote_png "https://files.example.com/a.png"
           {| Response.status := 200; Response.statusText := "OK";
              Response.text := Return EmptyString;
              Response.json := JsonRejected "Unexpected token";
              Response.arrayBuffer := Return [7] |}
           [7] [] eq_refl eq_refl eq_refl ltac:(discriminate)
           eq_refl eq_refl eq_refl).
Defined.

(** The type of a [Blob]: lower case for a printable type, empty for any
    other. *)
Example Blob_normalize_samples :
  Blob.normalize "Image/PNG" = "image/png"
  /\ Blob.normalize "Text/Plain; Charset=UTF-8" = "text/plain; charset=utf-8"
  /\ Blob.normalize "application/octet-stream" = "application/octet-stream"
  /\ Blob.normalize ("text/" +:+ String (ascii_of_nat 9) "plain") = EmptyString.
Proof. vm_compute. auto. Qed.

(** ** A refused download *)

Lemma fetchRemoteAttachment_refused (net : Network) (config : WorksectionConfig)
  (url : string) (tr : Trace) :
  refused (net tr (fst (downloadRequest config url))
             (snd (downloadRequest config url))) = true ->
  exists e,
    fetchRemoteAttachment net config url tr
    = (Throw e, tr ++ [downloadRequest config url]).
Proof.
  intros H.
  destruct (fetchRemoteAttachment_outcomes net config url tr) as [Ht Ho].
  destruct (fetchRemoteAttachment net config url tr) as [out tr'].
  cbn [fst snd] in *. subst tr'.
  destruct (net tr _ _) as [message|response]; [subst; eauto|].
  cbn [refused] in H.
  destruct (Response.ok response); cbn in H; [|subst; eauto].
  destruct (Response.arrayBuffer response) as [[|b bytes]|e];
    [subst; eauto | discriminate H | subst; eauto].
Qed.

Lemma resolveAll_app (net : Network) (config : WorksectionConfig)
  (before rest : list AttachmentInput.t) :
  forall (acc : list AttachmentPayload.t) (tr : Trace),
    resolveAll net config (before ++ rest) acc tr
    = match resolveAll net config before acc tr with
      | (Return payloads, tr1) => resolveAll net config rest payloads tr1
      | (Throw e, tr1) => (Throw e, tr1)
      end.
Proof.
  induction before as [|a before IH]; intros acc tr; [reflexivity|].
  cbn [app resolveAll]. unfold bind.
  destruct (resolveAttachment net config a tr) as [[payload|e] tr1];
    [apply IH | reflexivity].
Qed.

Lemma resolveAll_trace (net : Network) (config : WorksectionConfig)
  (attachments : list AttachmentInput.t) :
  forall (acc : list AttachmentPayload.t) (tr : Trace),
  exists out added,
    resolveAll net config attachments acc tr = (out, tr ++ added)
    /\ List.Forall (downloadOf config attachments) added
    /\ (List.forallb inline attachments = true -> added = []).
Proof.
  induction attachments as [|a rest IH]; intros acc tr.
  - exists (Return acc), []. rewrite app_nil_r. now repeat constructor.
  - cbn [resolveAll forallb]. unfold bind.
    destruct (resolveAttachment_trace net config a tr)
      as (out & added & -> & Hdl & Hin).
    assert (Hdl' : List.Forall (downloadOf config (a :: rest)) added).
    { eapply List.Forall_impl; [|exact Hdl].
      intros req. apply downloadOf_weaken. intros x [<-|[]]. now left. }
    destruct out as [payload|e].
    + destruct (IH (acc ++ [payload]) (tr ++ added))
        as (out & added' & -> & Hdl2 & Hin2).
      exists out, (added ++ added'). rewrite app_assoc.
      split; [reflexivity|]. split.
      * apply List.Forall_app. split; [exact Hdl'|].
        eapply List.Forall_impl; [|exact Hdl2].
        intros req. apply downloadOf_weaken. intros x Hx. now right.
      * intros H. apply andb_prop in H as [Ha Hb].
        destruct (Hin Ha) as [-> _]. now rewrite (Hin2 Hb).
    + exists (Throw e), added. split; [reflexivity|]. split; [exact Hdl'|].
      intros H. apply andb_prop in H as [Ha _].
      destruct (Hin Ha) as (_ & p & Hp). discriminate Hp.
Qed.

Lemma prepareAttachments_resolveAll (net : Network)
  (config : WorksectionConfig) (attachments : list AttachmentInput.t)
  (tr : Trace) :
  prepareAttachments net config (Some attachments) tr
  = resolveAll net config attachments [] tr.
Proof. now destruct attachments. Qed.

(** X5. When the download of a remote attachment is refused (the request
    rejected, a status outside 200..299, a body that cannot be read, or an
    empty body) at the point where it is made, that is once the attachments
    listed before it have resolved, [call] throws and sends nothing to the
    API: the only requests made are downloads of that attachment and of
    remote attachments listed before it, none of those listed after it;
    when the attachments before it are all inline, the refused download is
    the only request. *)
Theorem refused_download_stops_call
  (net : Network) (config : WorksectionConfig) (action : string)
  (options : option CallOptions.t)
  (before after : list AttachmentInput.t) (attachment : AttachmentInput.t)
  (url : string) (tr : Trace) :
  options ≫= CallOptions.attachments = Some (before ++ attachment :: after) ->
  AttachmentInput.data attachment = None ->
  AttachmentInput.sourceUrl attachment = Some url ->
  url <> EmptyString ->
  (forall payloads tr1,
     prepareAttachments net config (Some before) tr = (Return payloads, tr1) ->
     refused (net tr1 (fst (downloadRequest config url))
                (snd (downloadRequest config url))) = true) ->
  exists e added,
    call net config action options tr = (Throw e, tr ++ added)
    /\ List.Forall (downloadOf config (before ++ [attachment])) added
    /\ (List.forallb inline before = true ->
        added = [downloadRequest config url]).
Proof.
  intros Hopt Hd Hu Hne Hnet. rewrite call_run, Hopt.
  rewrite prepareAttachments_resolveAll, resolveAll_app.
  rewrite prepareAttachments_resolveAll in Hnet.
  destruct (resolveAll_trace net config before [] tr)
    as (out & added & Hres & Hdl & Hin).
  rewrite Hres in Hnet |- *.
  assert (Hdl' : List.Forall (downloadOf config (before ++ [attachment])) added).
  { eapply List.Forall_impl; [|exact Hdl].
    intros req. apply downloadOf_weaken. intros x Hx.
    apply in_or_app. now left. }
  destruct out as [payloads|e].
  - cbn [resolveAll]. unfold bind.
    rewrite (resolveAttachment_remote net config attachment url _ Hd Hu Hne).
    destruct (fetchRemoteAttachment_refused net config url (tr ++ added)
                (Hnet payloads (tr ++ added) eq_refl)) as [e ->].
    exists e, (added ++ [downloadRequest config url]). rewrite app_assoc.
    split; [reflexivity|]. split.
    + apply List.Forall_app. split; [exact Hdl'|].
      constructor; [|constructor].
      exists attachment, url. split; [|auto].
      apply in_or_app. right. now left.
    + intros H. now rewrite (Hin H).
  - exists e, added. split; [reflexivity|]. split; [exact Hdl'|].
    intros H. rewrite (Hin H) in Hres.
    rewrite app_nil_r in Hres.
    rewrite (resolveAll_inline net config before tr H []) in Hres.
    discriminate Hres.
Qed.

Lemma refused_download_stops_call_witness :
  (exists e,
     call sample_not_found sample_config "post_task"
       (sample_attachments [sample_inline; sample_remote; sample_inline]) []
     = (Throw e,
        [downloadRequest sample_config "https://files.example.com/a.png"]))
  /\ (exists e added,
        call sample_once sample_config "post_task"
          (sample_attachments [sample_remote; sample_remote]) []
        = (Throw e, added)
        /\ List.Forall
             (downloadOf sample_config [sample_remote; sample_remote]) added).
Proof.
  split.
  - destruct (refused_download_stops_call sample_not_found sample_config
                "post_task"
                (sample_attachments
                   [sample_inline; sample_remote; sample_inline])
                [sample_inline] [sample_inline] sample_remote
                "https://files.example.com/a.png" []
                eq_refl eq_refl eq_refl ltac:(discriminate)
                (fun _ _ _ => eq_refl))
      as (e & added & Hcall & _ & Hin).
    exists e. rewrite <- (Hin eq_refl). exact Hcall.
  - destruct (refused_download_stops_call sample_once sample_config
                "post_task"
                (sample_attachments [sample_remote; sample_remote])
                [sample_remote] [] sample_remote
                "https://files.example.com/a.png" []
                eq_refl eq_refl eq_refl ltac:(discriminate)
                ltac:(intros payloads tr1 H; vm_compute in H;
                      injection H as _ <-; reflexivity))
      as (e & added & Hcall & Hdl & _).
    exists e, added. split; [exact Hcall | exact Hdl].
Defined.

(** ** The two credentials *)

(** X6. The two credentials never meet.  What a download does depends on
    the bearer token only, not on the API key or the account URL; the API
    request does not depend on the bearer token, and none of its headers is
    an [Authorization] header. *)
Theorem credentials_stay_apart
  (net : Network) (base base' key key' : string) (token token' : option string)
  (url action : string) (options : option CallOptions.t)
  (payloads : list AttachmentPayload.t) (tr : Trace) :
  fetchRemoteAttachment net
    {| accountUrl := base; apiKey := key; slackBotToken := token |} url tr
  = fetchRemoteAttachment net
      {| accountUrl := base'; apiKey := key'; slackBotToken := token |} url tr
  /\ buildRequest
       {| accountUrl := base; apiKey := key; slackBotToken := token |}
       action options payloads
     = buildRequest
         {| accountUrl := base; apiKey := key; slackBotToken := token' |}
         action options payloads
  /\ List.Forall (fun header => fst header <> "Authorization")
       (RequestInit.headers
          (snd (buildRequest
                  {| accountUrl := base; apiKey := key; slackBotToken := token |}
                  action options payloads))).
Proof.
  split; [reflexivity|]. split; [reflexivity|].
  rewrite buildRequest_spec. unfold spec_request.
  destruct payloads as [|p ps];
    [destruct (default GET (options ≫= CallOptions.method))|];
    cbn [snd RequestInit.headers];
    repeat constructor; cbn; discriminate.
Qed.

(** ** The query string on the wire *)

Lemma concat_snoc (sep last : string) (items : list string) :
  items <> [] ->
  String.concat sep (items ++ [last])
  = String.concat sep items +:+ sep +:+ last.
Proof.
  induction items as [|x items IH]; [congruence|]. intros _.
  destruct items as [|y items].
  - reflexivity.
  - change ((x :: y :: items) ++ [last]) with (x :: (y :: items) ++ [last]).
    change (String.concat sep (x :: (y :: items) ++ [last]))
      with (x +:+ sep +:+ String.concat sep ((y :: items) ++ [last])).
    rewrite IH by congruence.
    change (String.concat sep (x :: y :: items))
      with (x +:+ sep +:+ String.concat sep (y :: items)).
    now rewrite !append_assoc.
Qed.

Lemma urlencode_append (s t : string) :
  URLSearchParams.urlencode (s +:+ t)
  = URLSearchParams.urlencode s +:+ URLSearchParams.urlencode t.
Proof.
  induction s as [|c s IH]; [reflexivity|].
  cbn [String.append URLSearchParams.urlencode].
  now rewrite IH, append_assoc.
Qed.

Lemma hex_byte_plain (b : Z) :
  0 <= b < 256 ->
  URLSearchParams.urlencode (Bytes.hex_byte false b) = Bytes.hex_byte false b.
Proof.
  intros Hb.
  assert (H : forallb
                (fun n =>
                   String.eqb
                     (URLSearchParams.urlencode
                        (Bytes.hex_byte false (Z.of_nat n)))
                     (Bytes.hex_byte false (Z.of_nat n)))
                (List.seq 0 256) = true) by (vm_compute; reflexivity).
  rewrite forallb_forall in H. specialize (H (Z.to_nat b)).
  rewrite Z2Nat.id in H by lia. apply String.eqb_eq, H, in_seq. lia.
Qed.

Lemma hex_plain (bs : list Z) :
  List.Forall (fun b => 0 <= b < 256) bs ->
  URLSearchParams.urlencode (Bytes.hex bs) = Bytes.hex bs.
Proof.
  induction 1 as [|b bs Hb _ IH]; [reflexivity|].
  cbn [Bytes.hex]. now rewrite urlencode_append, hex_byte_plain, IH.
Qed.

Lemma le_bytes32_range (w : Z) :
  List.Forall (fun b => 0 <= b < 256) (MD5.le_bytes32 w).
Proof.
  unfold MD5.le_bytes32. repeat constructor;
    change 255 with (Z.ones 8); rewrite Z.land_ones by lia;
    apply Z.mod_pos_bound; lia.
Qed.

Lemma digest_range (msg : list Z) :
  List.Forall (fun b => 0 <= b < 256) (MD5.digest msg).
Proof.
  unfold MD5.digest.
  destruct (fold_left _ _ _) as [a b c d].
  repeat (apply List.Forall_app; split); apply le_bytes32_range.
Qed.

Lemma hexdigest_plain (s : string) :
  URLSearchParams.urlencode (MD5.hexdigest s) = MD5.hexdigest s.
Proof. apply hex_plain, digest_range. Qed.

(** X25. The query string the client sends is the signed string followed
    by [&hash=] and the digest: the digest is made of characters the
    serializer leaves as they are. *)
Theorem query_is_canonical_plus_hash (config : WorksectionConfig)
  (action : string) (params : option RequestParams) :
  let raw := snd (buildParamState action (prepareParams params)) in
  URLSearchParams.toString (signParams config action params)
  = raw +:+ "&hash=" +:+ MD5.hexdigest (raw +:+ apiKey config).
Proof.
  cbv zeta. rewrite signParams_shape, buildParamState_raw.
  unfold URLSearchParams.toString at 1. rewrite List.map_app.
  cbn [List.map]. rewrite concat_snoc.
  - unfold URLSearchParams.encode_pair at 2. cbn [fst snd].
    rewrite hexdigest_plain.
    change (URLSearchParams.urlencode "hash") with "hash".
    fold (URLSearchParams.toString
            (fst (buildParamState action (prepareParams params)))).
    reflexivity.
  - rewrite buildParamState_pairs. discriminate.
Qed.


(** *** Reading a query string back *)

Lemma urldecode_encode_byte (c : ascii) (rest : string) :
  urldecode (URLSearchParams.encode_byte (Bytes.byte_of_ascii c) +:+ rest)
  = String c (urldecode rest).
Proof. destruct c as [[] [] [] [] [] [] [] []]; reflexivity. Qed.

Lemma urldecode_urlencode (s : string) :
  urldecode (URLSearchParams.urlencode s) = s.
Proof.
  induction s as [|c s IH]; [reflexivity|].
  cbn [URLSearchParams.urlencode]. now rewrite urldecode_encode_byte, IH.
Qed.

Lemma splitOn_plain (sep : ascii) (s : string) :
  string_forall (differs sep) s = true -> splitOn sep s = [s].
Proof.
  induction s as [|c s IH]; [reflexivity|].
  cbn [string_forall splitOn]. intros H. apply andb_prop in H as [Hc Hs].
  unfold differs in Hc. apply negb_true_iff in Hc. rewrite Hc.
  now rewrite IH.
Qed.

Lemma splitOn_append (sep : ascii) (s t : string) :
  string_forall (differs sep) s = true ->
  splitOn sep (s +:+ String sep t) = s :: splitOn sep t.
Proof.
  induction s as [|c s IH]; intros H.
  - cbn [String.append splitOn]. now rewrite Ascii.eqb_refl.
  - cbn [string_forall] in H. apply andb_prop in H as [Hc Hs].
    unfold differs in Hc. apply negb_true_iff in Hc.
    cbn [String.append splitOn]. rewrite Hc. now rewrite IH.
Qed.

Lemma string_forall_impl (P Q : ascii -> bool) (s : string) :
  (forall c, P c = true -> Q c = true) ->
  string_forall P s = true -> string_forall Q s = true.
Proof.
  intros HPQ. induction s as [|c s IH]; [reflexivity|].
  cbn [string_forall]. intros H. apply andb_prop in H as [Hc Hs].
  now rewrite (HPQ c Hc), IH.
Qed.

Lemma component_char_differs (c : ascii) :
  component_char c = true ->
  differs "&" c = true /\ differs "=" c = true.
Proof.
  destruct c as [[] [] [] [] [] [] [] []]; vm_compute; intros H;
    first [discriminate H | split; reflexivity].
Qed.

Lemma urlencode_differs (sep : ascii) (s : string) :
  sep = "&"%char \/ sep = "="%char ->
  string_forall (differs sep) (URLSearchParams.urlencode s) = true.
Proof.
  intros Hsep. eapply string_forall_impl; [|apply urlencode_component].
  intros c Hc. apply component_char_differs in Hc as [Ha He].
  now destruct Hsep as [-> | ->].
Qed.

Lemma parsePair_encode_pair (kv : string * string) :
  parsePair (URLSearchParams.encode_pair kv) = kv.
Proof.
  destruct kv as [k v]. unfold parsePair, URLSearchParams.encode_pair.
  cbn [fst snd].
  change (URLSearchParams.urlencode k +:+ "=" +:+ URLSearchParams.urlencode v)
    with (URLSearchParams.urlencode k
          +:+ String "=" (URLSearchParams.urlencode v)).
  rewrite splitOn_append by (apply urlencode_differs; now right).
  rewrite splitOn_plain by (apply urlencode_differs; now right).
  now rewrite !urldecode_urlencode.
Qed.

Lemma encode_pair_differs (kv : string * string) :
  string_forall (differs "&") (URLSearchParams.encode_pair kv) = true.
Proof.
  unfold URLSearchParams.encode_pair.
  rewrite !string_forall_append.
  rewrite !urlencode_differs by now left. reflexivity.
Qed.

Lemma splitOn_concat (components : list string) :
  components <> [] ->
  List.Forall (fun s => string_forall (differs "&") s = true) components ->
  splitOn "&" (String.concat "&" components) = components.
Proof.
  induction components as [|x rest IH]; [congruence|].
  intros _ Hall. apply List.Forall_cons_iff in Hall as [Hx Hrest].
  destruct rest as [|y rest].
  - now apply splitOn_plain.
  - change (String.concat "&" (x :: y :: rest))
      with (x +:+ String "&" (String.concat "&" (y :: rest))).
    rewrite splitOn_append by exact Hx.
    now rewrite IH by (congruence || exact Hrest).
Qed.

Lemma parseQuery_toString (pairs : list (string * string)) :
  parseQuery (URLSearchParams.toString pairs) = pairs.
Proof.
  destruct pairs as [|kv pairs]; [reflexivity|].
  unfold parseQuery, URLSearchParams.toString.
  assert (Hsplit : splitOn "&"
                     (String.concat "&"
                        (List.map URLSearchParams.encode_pair (kv :: pairs)))
                   = List.map URLSearchParams.encode_pair (kv :: pairs)).
  { apply splitOn_concat; [discriminate|].
    apply List.Forall_forall. intros s Hs.
    apply List.in_map_iff in Hs as (x & <- & _). apply encode_pair_differs. }
  destruct (String.concat "&" _) as [|c query] eqn:E.
  - destruct kv as [k v]. exfalso.
    apply (f_equal String.length) in E. cbn [List.map] in E.
    destruct pairs as [|kv' pairs]; cbn [String.concat List.map] in E;
      unfold URLSearchParams.encode_pair in E;
      rewrite ?length_append in E; cbn in E; lia.
  - rewrite Hsplit, List.map_map.
    rewrite <- (List.map_id (kv :: pairs)) at 2.
    apply List.map_ext. intros x. apply parsePair_encode_pair.
Qed.

(** X26. The signed string determines the pairs: splitting it at [&] and
    [=] and percent-decoding the components gives back the pairs that were
    serialized, so two calls that sign the same string send the same
    pairs. *)
Theorem canonical_query_reads_back (action : string) (params : RequestParams) :
  parseQuery (snd (buildParamState action params))
  = fst (buildParamState action params)
  /\ forall (action' : string) (params' : RequestParams),
       snd (buildParamState action params)
       = snd (buildParamState action' params') ->
       fst (buildParamState action params)
       = fst (buildParamState action' params').
Proof.
  assert (H : forall a p,
            parseQuery (snd (buildParamState a p)) = fst (buildParamState a p)).
  { intros a p. rewrite buildParamState_raw. apply parseQuery_toString. }
  split; [apply H|].
  intros action' params' Hraw. rewrite <- !H. now rewrite Hraw.
Qed.

(** ** The fields of [post_task] *)

Lemma spec_expand_opt_string (key : string) (value : option string) :
  spec_expand (key, PostTask.opt_string value) = spec_optional key value.
Proof. now destruct value. Qed.

Lemma spec_expand_opt_number (key : string) (value : option Js.Number) :
  spec_expand (key, PostTask.opt_number value)
  = spec_optional key (Js.Number_toString <$> value).
Proof. now destruct value. Qed.

Lemma commaSeparated_spec (values : option (list string)) :
  PostTask.commaSeparated values = spec_list values.
Proof.
  destruct values as [[|first others]|]; try reflexivity.
  unfold PostTask.commaSeparated, spec_list. f_equal.
  revert first. induction others as [|second rest IH]; intros first;
    [reflexivity|].
  change (first +:+ ", " +:+ String.concat ", " (second :: rest)
          = first +:+ ", " +:+ spec_joined second rest).
  now rewrite IH.
Qed.

Lemma imap_map {A B C} (f : nat -> B -> C) (g : A -> B) (l : list A) :
  imap f (List.map g l) = imap (fun i x => f i (g x)) l.
Proof.
  revert f. induction l as [|x l IH]; intros f; [reflexivity|].
  cbn [List.map imap]. f_equal. apply IH.
Qed.

Lemma spec_expand_checklist (key : string) (checklist : option (list string)) :
  spec_expand
    (key,
     match checklist with
     | Some (c :: cs) => VArray (List.map PString (c :: cs))
     | _ => VUndefined
     end)
  = imap (fun i item => (spec_indexed_key key i, item)) (default [] checklist).
Proof.
  destruct checklist as [[|c cs]|]; try reflexivity.
  unfold spec_expand. cbn [fst snd default]. now rewrite imap_map.
Qed.

Lemma buildParams_named (args : PostTask.CreateTaskArgs) :
  List.Forall (fun e => Js.is_array_index (fst e) = false)
    (PostTask.buildParams args).
Proof. unfold PostTask.buildParams. repeat constructor. Qed.

Lemma buildParams_pairs (args : PostTask.CreateTaskArgs) :
  fst (buildParamState "post_task"
         (prepareParams (Some (PostTask.buildParams args))))
  = spec_taskFields args.
Proof.
  rewrite buildParamState_pairs. unfold prepareParams, Js.spread.
  cbn [from_option id]. rewrite Object_entries_idempotent.
  rewrite Object_entries_named by apply buildParams_named.
  unfold spec_canonicalPairs, PostTask.buildParams, spec_taskFields.
  cbn [flat_map from_option id].
  rewrite !spec_expand_opt_string, !spec_expand_opt_number,
    spec_expand_checklist, !commaSeparated_spec.
  rewrite app_nil_r. reflexivity.
Qed.

(** X7. The pairs [post_task] has signed are, in this order: the action,
    [id_project], [title], then each optional field that is set, under
    its wire name ([text], [id_parent], [email_user_to], [priority],
    [datestart], [dateend], [subscribe], [hidden], [mention], [max_time],
    [max_money], [tags]), and last one pair [todo[i]] per checklist item; a
    field that is not set contributes nothing.  A list of addresses or of
    tags gives one value, its items separated by [", "] (a comma and a
    space), and no pair when it is empty; a number is sent in the decimal
    form JavaScript prints it in, fractions and exponents included.  The
    [hash] pair that follows is the digest of these pairs serialized,
    followed by the API key. *)
Theorem post_task_signed_fields (config : WorksectionConfig)
  (args : PostTask.CreateTaskArgs) :
  signParams config "post_task" (Some (PostTask.buildParams args))
  = spec_taskFields args
    ++ [("hash",
         MD5.hexdigest
           (URLSearchParams.toString (spec_taskFields args)
            +:+ apiKey config))].
Proof. rewrite signParams_shape. now rewrite buildParams_pairs. Qed.

(** The fields of a task with two tags, three subscribers, an estimate of
    an hour and a half and a budget of 1e21. *)
Example post_task_signed_fields_sample :
  spec_taskFields sample_estimated_task
  = [("action", "post_task"); ("id_project", "12"); ("title", "Report");
     ("priority", "5"); ("subscribe", "a@x.io, b@x.io, c@x.io");
     ("max_time", "1.5"); ("max_money", "1e+21"); ("tags", "a, b");
     ("todo[0]", "draft"); ("todo[1]", "review")].
Proof. vm_compute. reflexivity. Qed.

(** ** Dates *)

(** X8. A date that, once trimmed, has the form [yyyy-mm-dd] (four, two
    and two decimal digits) is sent as [dd.mm.yyyy], the same digits
    reordered; the digits are not checked to denote a real date. *)
Theorem iso_date_is_reordered (raw : string) (y1 y2 y3 y4 m1 m2 d1 d2 : ascii) :
  forallb PostTask.is_digit [y1; y2; y3; y4; m1; m2; d1; d2] = true ->
  Js.trim raw = isoDate y1 y2 y3 y4 m1 m2 d1 d2 ->
  PostTask.formatWsDate (Some raw)
  = Some (dottedDate y1 y2 y3 y4 m1 m2 d1 d2).
Proof.
  intros Hdigits Htrim. unfold PostTask.formatWsDate.
  destruct raw as [|c raw]; [discriminate Htrim|].
  cbn [Js.truthy negb from_option id]. rewrite Htrim.
  unfold PostTask.isoMatch, isoDate.
  rewrite list_ascii_of_string_of_list_ascii.
  rewrite Hdigits. reflexivity.
Qed.

Lemma iso_date_is_reordered_witness :
  PostTask.formatWsDate (Some "  2025-03-01 ") = Some "01.03.2025".
Proof.
  exact (iso_date_is_reordered "  2025-03-01 "
           "2" "0" "2" "5" "0" "3" "0" "1" eq_refl eq_refl).
Defined.

Lemma in_spec_optional (key value : string) (o : option string) :
  o = Some value -> In (key, value) (spec_optional key o).
Proof. intros ->. now left. Qed.

(** X9. A start date made of white space only is not dropped: it is
    formatted to the empty string, and [post_task] signs and sends the pair
    [datestart] with an empty value. *)
Theorem blank_date_is_sent_empty (args : PostTask.CreateTaskArgs)
  (raw : string) :
  PostTask.startDate args = Some raw ->
  raw <> EmptyString ->
  Js.trim raw = EmptyString ->
  PostTask.formatWsDate (Some raw) = Some EmptyString
  /\ In ("datestart", EmptyString)
       (fst (buildParamState "post_task"
               (prepareParams (Some (PostTask.buildParams args))))).
Proof.
  intros Hstart Hne Htrim.
  assert (H : PostTask.formatWsDate (Some raw) = Some EmptyString).
  { unfold PostTask.formatWsDate. destruct raw as [|c raw]; [now destruct Hne|].
    cbn [Js.truthy negb from_option id]. now rewrite Htrim. }
  split; [exact H|].
  rewrite buildParams_pairs. unfold spec_taskFields. rewrite Hstart.
  rewrite !in_app_iff. do 5 right. left. now apply in_spec_optional.
Qed.

Lemma blank_date_is_sent_empty_witness :
  In ("datestart", EmptyString)
    (fst (buildParamState "post_task"
            (prepareParams
               (Some (PostTask.buildParams (sample_dated_task "  ")))))).
Proof.
  exact (proj2 (blank_date_is_sent_empty (sample_dated_task "  ") "  "
                  eq_refl ltac:(discriminate) eq_refl)).
Defined.

(** X10. Whatever date it is given, [formatWsDate] never answers a string
    of the form [yyyy-mm-dd]. *)
Theorem no_iso_date_is_sent (raw : option string) (out : string) :
  PostTask.formatWsDate raw = Some out ->
  PostTask.isoMatch out = None.
Proof.
  unfold PostTask.formatWsDate.
  destruct (negb (Js.truthy raw)); [discriminate|].
  destruct (PostTask.isoMatch (Js.trim (default EmptyString raw)))
    as [formatted|] eqn:E; intros [= <-]; [|exact E].
  unfold PostTask.isoMatch in E.
  destruct (list_ascii_of_string _)
    as [|y1 [|y2 [|y3 [|y4 [|d1 [|m1 [|m2 [|d2 [|a1 [|a2 [|x l]]]]]]]]]]];
    try discriminate E.
  destruct (forallb PostTask.is_digit _ && _ && _); [|discriminate E].
  injection E as <-. unfold PostTask.isoMatch.
  cbn [list_ascii_of_string string_of_list_ascii forallb].
  change (PostTask.is_digit "."%char) with false.
  now rewrite !andb_false_r.
Qed.

Lemma no_iso_date_is_sent_witness :
  PostTask.isoMatch "01.03.2025" = None.
Proof.
  exact (no_iso_date_is_sent (Some "2025-03-01") "01.03.2025" eq_refl).
Defined.

(** ** The descriptors [post_task] hands to the client *)

Section Descriptors.
Variable Buffer_from_base64 : string -> option (list Z).
Variable net : Network.
Variable config : WorksectionConfig.

Lemma convertAttachment_usable (attachment : PostTask.AttachmentArg)
  (index : nat) :
  usable Buffer_from_base64 attachment = true ->
  PostTask.convertAttachment Buffer_from_base64 attachment index
  = Return (spec_descriptor Buffer_from_base64 index attachment).
Proof.
  unfold usable, PostTask.convertAttachment, spec_descriptor.
  destruct (PostTask.data attachment) as [[|c text]|];
    cbn [Js.truthy from_option id].
  - intros ->. now destruct (PostTask.contentType attachment) as [[|d t]|].
  - destruct (Buffer_from_base64 (String c text)) as [[|b bytes]|];
      try discriminate.
    intros _. now destruct (PostTask.contentType attachment) as [[|d t]|].
  - intros ->. now destruct (PostTask.contentType attachment) as [[|d t]|].
Qed.

Lemma convertAttachments_usable (attachments : list PostTask.AttachmentArg) :
  List.forallb (usable Buffer_from_base64) attachments = true ->
  forall index,
    PostTask.convertAttachments Buffer_from_base64 attachments index
    = Return (imap (fun i => spec_descriptor Buffer_from_base64 (index + i))
                attachments).
Proof.
  induction attachments as [|attachment rest IH]; intros H index;
    [reflexivity|].
  cbn [forallb] in H. apply andb_prop in H as [Ha Hrest].
  cbn [PostTask.convertAttachments imap].
  rewrite (convertAttachment_usable _ _ Ha), (IH Hrest).
  rewrite Nat.add_0_r. do 2 f_equal.
  apply imap_ext. intros i x _. cbn. now rewrite Nat.add_succ_r.
Qed.

Lemma spec_descriptor_sendable (attachment : PostTask.AttachmentArg)
  (index : nat) :
  usable Buffer_from_base64 attachment = true ->
  unsendable (spec_descriptor Buffer_from_base64 index attachment) = false
  /\ forall text,
       PostTask.data attachment = Some text ->
       text <> EmptyString ->
       exists bytes,
         Buffer_from_base64 text = Some bytes
         /\ bytes <> []
         /\ AttachmentInput.data
              (spec_descriptor Buffer_from_base64 index attachment)
            = Some bytes
         /\ AttachmentInput.sourceUrl
              (spec_descriptor Buffer_from_base64 index attachment)
            = None.
Proof.
  unfold usable, spec_descriptor, unsendable, ambiguous, unresolvable.
  cbn [AttachmentInput.data AttachmentInput.sourceUrl].
  destruct (PostTask.data attachment) as [[|c text]|].
  - intros ->. split; [reflexivity|]. intros text [= <-] Hne.
    now destruct Hne.
  - destruct (Buffer_from_base64 (String c text)) as [[|b bytes]|] eqn:E;
      try discriminate.
    intros _. split; [reflexivity|]. intros t [= <-] _.
    exists (b :: bytes). now rewrite E.
  - intros ->. split; [reflexivity|]. discriminate.
Qed.

Lemma descriptors_sendable (attachments : list PostTask.AttachmentArg) :
  List.forallb (usable Buffer_from_base64) attachments = true ->
  forall index,
    List.Forall2
      (fun attachment input =>
         unsendable input = false
         /\ forall text,
              PostTask.data attachment = Some text ->
              text <> EmptyString ->
              exists bytes,
                Buffer_from_base64 text = Some bytes
                /\ bytes <> []
                /\ AttachmentInput.data input = Some bytes
                /\ AttachmentInput.sourceUrl input = None)
      attachments
      (imap (fun i => spec_descriptor Buffer_from_base64 (index + i))
         attachments).
Proof.
  induction attachments as [|attachment rest IH]; intros H index;
    [constructor|].
  cbn [forallb] in H. apply andb_prop in H as [Ha Hrest].
  cbn [imap]. constructor.
  - now apply spec_descriptor_sendable.
  - rewrite (imap_ext _ (fun i => spec_descriptor Buffer_from_base64
                                    (S index + i))).
    + now apply IH.
    + intros i x _. cbn. now rewrite Nat.add_succ_r.
Qed.

(** X11. When every attachment of [post_task] can be used (its data, when
    it gives any, decodes to at least one byte, and it names a source URL
    otherwise), the handler makes one call of the client, a POST of the
    task's parameters whose attachments are one descriptor per attachment,
    in their order: the one at position [i] has the field [attach[i]], the
    file name of its attachment and its content type when it names one;
    when the attachment gives data, the descriptor carries the decoded
    bytes and no source URL, and otherwise the source URL and no data.  So
    the client finds no descriptor ambiguous or unresolvable. *)
Theorem post_task_descriptors (args : PostTask.CreateTaskArgs)
  (first : PostTask.AttachmentArg) (others : list PostTask.AttachmentArg)
  (tr : Trace) :
  PostTask.attachments args = Some (first :: others) ->
  List.forallb (usable Buffer_from_base64) (first :: others) = true ->
  let inputs :=
    imap (spec_descriptor Buffer_from_base64) (first :: others) in
  PostTask.post_task_body Buffer_from_base64 net config args tr
  = (let* response :=
       call net config "post_task"
         (Some {| CallOptions.method := Some POST;
                  CallOptions.params := Some (PostTask.buildParams args);
                  CallOptions.attachments := Some inputs |}) in
     ret (PostTask.respondTask response)) tr
  /\ List.Forall2
       (fun attachment input =>
          unsendable input = false
          /\ forall text,
               PostTask.data attachment = Some text ->
               text <> EmptyString ->
               exists bytes,
                 Buffer_from_base64 text = Some bytes
                 /\ bytes <> []
                 /\ AttachmentInput.data input = Some bytes
                 /\ AttachmentInput.sourceUrl input = None)
       (first :: others) inputs.
Proof.
  intros Hatt Husable inputs. split.
  - unfold PostTask.post_task_body. rewrite Hatt.
    rewrite (convertAttachments_usable _ Husable 0).
    reflexivity.
  - exact (descriptors_sendable _ Husable 0).
Qed.

End Descriptors.

Lemma post_task_descriptors_witness :
  PostTask.post_task_body sample_base64 sample_api sample_config
    (sample_task [sample_both_arg; sample_remote_arg]) []
  = (let* response :=
       call sample_api sample_config "post_task"
         (Some {| CallOptions.method := Some POST;
                  CallOptions.params :=
                    Some (PostTask.buildParams
                            (sample_task [sample_both_arg; sample_remote_arg]));
                  CallOptions.attachments :=
                    Some [ {| AttachmentInput.field := "attach[0]";
                              AttachmentInput.filename := "hello.txt";
                              AttachmentInput.contentType := Some "text/plain";
                              AttachmentInput.data :=
                                Some (Bytes.of_string "hello");
                              AttachmentInput.sourceUrl := None |};
                           {| AttachmentInput.field := "attach[1]";
                              AttachmentInput.filename := "a.png";
                              AttachmentInput.contentType := None;
                              AttachmentInput.data := None;
                              AttachmentInput.sourceUrl :=
                                Some "https://files.example.com/a.png" |} ]
               |}) in
     ret (PostTask.respondTask response)) [].
Proof.
  exact (proj1 (post_task_descriptors sample_base64 sample_api sample_config
                  (sample_task [sample_both_arg; sample_remote_arg])
                  sample_both_arg [sample_remote_arg] [] eq_refl eq_refl)).
Defined.

(** ** The tools *)

Lemma buildRequest_GET (config : WorksectionConfig) (action : string)
  (params : option RequestParams) :
  buildRequest config action
    (match params with
     | Some params => Tools.withParams params
     | None => None
     end) []
  = adminGET config
      (URLSearchParams.toString (signParams config action params)).
Proof.
  rewrite buildRequest_spec. unfold spec_request, adminGET.
  destruct params as [params|]; reflexivity.
Qed.

Lemma handle_call_trace (net : Network) (config : WorksectionConfig)
  (action : string) (options : option CallOptions.t)
  (answer : Envelope.t -> PostTask.ToolResult) (tr : Trace) :
  snd (Tools.handle
         (let* response := call net config action options in
          ret (answer response)) tr)
  = snd (call net config action options tr).
Proof.
  unfold Tools.handle, bind, ret.
  now destruct (call net config action options tr) as [[json|e] tr'].
Qed.

Lemma handle_call_inv (net : Network) (config : WorksectionConfig)
  (action : string) (options : option CallOptions.t)
  (answer : Envelope.t -> Json) (tr tr' : Trace) (data : Json) :
  Tools.handle
    (let* response := call net config action options in
     ret (PostTask.Responded (answer response))) tr
  = (PostTask.Responded data, tr') ->
  exists json, call net config action options tr = (Return json, tr').
Proof.
  unfold Tools.handle, bind, ret.
  destruct (call net config action options tr) as [[json|e] tr1]; cbn.
  - intros [= _ <-]. eauto.
  - discriminate.
Qed.

Section ToolFacts.

Variable Buffer_from_base64 : string -> option (list Z).
Variable net : Network.
Variable config : WorksectionConfig.
Variable totalsOf : Envelope.t -> Json.

#[local] Abbreviation invoke :=
  (Tools.invoke Buffer_from_base64 net config totalsOf).

Lemma call_GET_trace (action : string) (params : option RequestParams)
  (tr : Trace) :
  snd (call net config action
         (match params with
          | Some params => Tools.withParams params
          | None => None
          end) tr)
  = tr ++ [adminGET config
             (URLSearchParams.toString (signParams config action params))].
Proof.
  rewrite <- buildRequest_GET. apply call_trace.
  now destruct params.
Qed.

Lemma post_task_plain (args : PostTask.CreateTaskArgs) (tr : Trace) :
  absent (PostTask.attachments args) = true ->
  PostTask.post_task Buffer_from_base64 net config args tr
  = Tools.handle
      (let* response :=
         call net config "post_task"
           (Tools.withParams (PostTask.buildParams args)) in
       ret (PostTask.respondTask response)) tr.
Proof.
  intros H. unfold PostTask.post_task, PostTask.post_task_body, Tools.handle,
    Tools.respondError, bind, ret.
  destruct (PostTask.attachments args) as [[|a rest]|];
    [reflexivity | discriminate H | reflexivity].
Qed.

(** X12. A tool invoked without attachments sends at most one HTTP request:
    none when its handler declines the arguments (a comment without text
    and checklist, a cost query without any filter), and otherwise exactly
    one GET to the admin endpoint of the account, without a body, whose
    query string holds the signed parameters of the tool's action.  This
    includes the tools that write: [post_comment], and [post_task] without
    attachments. *)
Theorem tools_send_one_signed_GET (tool : Tools.Invocation) (tr : Trace) :
  withoutAttachments tool = true ->
  snd (invoke tool tr)
  = if declined tool then tr
    else tr ++ [adminGET config
                  (URLSearchParams.toString
                     (signParams config (actionOf tool) (paramsOf tool)))].
Proof.
  intros Hplain.
  destruct tool as [|args|args|args|args|args|args|args|args|args|];
    cbn [Tools.invoke declined actionOf paramsOf withoutAttachments] in *.
  - unfold Tools.get_users. cbv zeta. rewrite handle_call_trace.
    apply (call_GET_trace "get_users" None).
  - unfold Tools.get_projects. cbv zeta. rewrite handle_call_trace.
    apply (call_GET_trace "get_projects" (Some _)).
  - unfold Tools.get_project. cbv zeta. rewrite handle_call_trace.
    apply (call_GET_trace "get_project" (Some _)).
  - unfold Tools.get_tasks. cbv zeta. rewrite handle_call_trace.
    apply (call_GET_trace "get_tasks" (Some _)).
  - unfold Tools.get_task. cbv zeta. rewrite handle_call_trace.
    apply (call_GET_trace "get_task" (Some _)).
  - rewrite post_task_plain by exact Hplain. rewrite handle_call_trace.
    apply (call_GET_trace "post_task" (Some _)).
  - unfold Tools.post_comment.
    fold (absent (Tools.AddCommentArgs.checklist args)).
    destruct (negb _ && absent _); [reflexivity|].
    cbv zeta. rewrite handle_call_trace.
    apply (call_GET_trace "post_comment" (Some _)).
  - unfold Tools.get_comments. cbv zeta. rewrite handle_call_trace.
    apply (call_GET_trace "get_comments" (Some _)).
  - unfold Tools.get_costs, Tools.unbounded.
    destruct (_ && _ && _ && _ && _); [reflexivity|].
    cbv zeta. rewrite handle_call_trace.
    apply (call_GET_trace "get_costs" (Some _)).
  - unfold Tools.get_costs_total, Tools.unbounded.
    destruct (_ && _ && _ && _ && _); [reflexivity|].
    cbv zeta. rewrite handle_call_trace.
    apply (call_GET_trace "get_costs_total" (Some _)).
  - unfold Tools.get_timers. cbv zeta. rewrite handle_call_trace.
    apply (call_GET_trace "get_timers" None).
Qed.


Lemma call_success (action : string) (options : option CallOptions.t)
  (tr tr' : Trace) (json : Envelope.t) :
  call net config action options tr = (Return json, tr') ->
  exists tr1 request response,
    tr' = tr1 ++ [request]
    /\ net tr1 (fst request) (snd request) = Resolved response
    /\ Response.ok response = true
    /\ Response.json response = JsonParsed json
    /\ Envelope.status json = Some "ok".
Proof.
  intros H.
  apply call_return_inv in H
    as (payloads & tr1 & response & _ & -> & Hnet & Hok & Hjson & Hst).
  now exists tr1, (buildRequest config action options payloads), response.
Qed.

Ltac tool_success H :=
  cbv zeta in H; unfold Tools.respond in H;
  apply handle_call_inv in H as [json H];
  apply call_success in H as (tr1 & request & response & H);
  exists tr1, request, response, json; exact H.

(** X13. A tool answers with a result (not an error) only when the last
    request it made was answered by a 2xx response whose parsed envelope
    has status ["ok"]. *)
Theorem tool_success_needs_ok (tool : Tools.Invocation) (tr tr' : Trace)
  (data : Json) :
  invoke tool tr = (PostTask.Responded data, tr') ->
  exists tr1 request response json,
    tr' = tr1 ++ [request]
    /\ net tr1 (fst request) (snd request) = Resolved response
    /\ Response.ok response = true
    /\ Response.json response = JsonParsed json
    /\ Envelope.status json = Some "ok".
Proof.
  destruct tool as [|args|args|args|args|args|args|args|args|args|];
    cbn [Tools.invoke]; intros H.
  - unfold Tools.get_users in H. tool_success H.
  - unfold Tools.get_projects in H. tool_success H.
  - unfold Tools.get_project in H. tool_success H.
  - unfold Tools.get_tasks in H. tool_success H.
  - unfold Tools.get_task in H. tool_success H.
  - unfold PostTask.post_task, PostTask.post_task_body, bind, ret, throw in H.
    destruct (PostTask.attachments args) as [[|a rest]|];
      try (destruct (PostTask.convertAttachments _ _ _) as [[|i inputs]|e];
           [| |discriminate H]);
      (destruct (call net config "post_task" _ tr) as [[json|e] tr1] eqn:E;
       [|discriminate H]);
      injection H as _ <-;
      apply call_success in E as (tr0 & request & response & E);
      exists tr0, request, response, json; exact E.
  - unfold Tools.post_comment in H.
    destruct (negb _ && _); [discriminate H|]. tool_success H.
  - unfold Tools.get_comments in H. tool_success H.
  - unfold Tools.get_costs in H.
    destruct (Tools.unbounded _ _ _ _ _); [discriminate H|]. tool_success H.
  - unfold Tools.get_costs_total in H.
    destruct (Tools.unbounded _ _ _ _ _); [discriminate H|]. tool_success H.
  - unfold Tools.get_timers in H. tool_success H.
Qed.

(** X14. [post_comment] with no text (absent or empty) and no checklist
    item (absent or empty list) answers the error asking for one of them,
    and sends no HTTP request. *)
Theorem empty_comment_is_declined (args : Tools.AddCommentArgs.t) (tr : Trace) :
  Js.truthy (Tools.AddCommentArgs.text args) = false ->
  absent (Tools.AddCommentArgs.checklist args) = true ->
  Tools.post_comment net config args tr
  = (PostTask.RespondedError
       "Provide comment text or at least one checklist item.", tr).
Proof.
  intros Htext Hlist. unfold Tools.post_comment.
  fold (absent (Tools.AddCommentArgs.checklist args)).
  now rewrite Htext, Hlist.
Qed.

(** X15. [get_costs] and [get_costs_total] called with none of project,
    task, start date, end date and filter answer the error asking for a
    filter, and send no HTTP request; the timer flag and the requested
    extras do not count as a filter. *)
Theorem unbounded_cost_query_is_declined
  (costs : Tools.GetCostsArgs.t) (totals : Tools.GetCostsTotalArgs.t)
  (tr : Trace) :
  (Js.truthy (Tools.GetCostsArgs.projectId costs) = false ->
   Js.truthy (Tools.GetCostsArgs.taskId costs) = false ->
   Js.truthy (Tools.GetCostsArgs.startDate costs) = false ->
   Js.truthy (Tools.GetCostsArgs.endDate costs) = false ->
   Js.truthy (Tools.GetCostsArgs.filter costs) = false ->
   Tools.get_costs net config costs tr
   = (PostTask.RespondedError Tools.unboundedMessage, tr))
  /\ (Js.truthy (Tools.GetCostsTotalArgs.projectId totals) = false ->
      Js.truthy (Tools.GetCostsTotalArgs.taskId totals) = false ->
      Js.truthy (Tools.GetCostsTotalArgs.startDate totals) = false ->
      Js.truthy (Tools.GetCostsTotalArgs.endDate totals) = false ->
      Js.truthy (Tools.GetCostsTotalArgs.filter totals) = false ->
      Tools.get_costs_total net config totalsOf totals tr
      = (PostTask.RespondedError Tools.unboundedMessage, tr)).
Proof.
  split; intros Hp Ht Hs He Hf.
  - unfold Tools.get_costs, Tools.unbounded. now rewrite Hp, Ht, Hs, He, Hf.
  - unfold Tools.get_costs_total, Tools.unbounded.
    now rewrite Hp, Ht, Hs, He, Hf.
Qed.


(** *** The breakdown [get_costs_total] asks for *)

Lemma no_extra_whenSet (key : string) (value : option string) :
  String.eqb key "extra" = false ->
  List.filter isExtra (List.flat_map spec_expand (Tools.whenSet key value)) = [].
Proof.
  intros H. unfold Tools.whenSet. destruct (Js.truthy value); [|reflexivity].
  cbn. unfold isExtra. cbn. now rewrite H.
Qed.

Lemma no_extra_dateWhenSet (key : string) (date : option string) :
  String.eqb key "extra" = false ->
  List.filter isExtra (List.flat_map spec_expand (Tools.dateWhenSet key date))
  = [].
Proof.
  intros H. unfold Tools.dateWhenSet. destruct (Js.truthy date); [|reflexivity].
  cbn [flat_map]. rewrite spec_expand_opt_string, app_nil_r.
  destruct (PostTask.formatWsDate date); [|reflexivity].
  cbn. unfold isExtra. cbn. now rewrite H.
Qed.

Lemma no_extra_costFilters (projectId taskId startDate endDate : option string)
  (isTimer : option bool) (filter : option string) :
  List.filter isExtra
    (List.flat_map spec_expand
       (Tools.costFilters projectId taskId startDate endDate isTimer filter))
  = [].
Proof.
  unfold Tools.costFilters.
  rewrite !flat_map_app, !List.filter_app.
  rewrite !no_extra_whenSet, !no_extra_dateWhenSet by reflexivity.
  now destruct isTimer.
Qed.

Lemma whenSet_named (key : string) (value : option string) :
  Js.is_array_index key = false ->
  List.Forall (fun e => Js.is_array_index (fst e) = false)
    (Tools.whenSet key value).
Proof.
  intros H. unfold Tools.whenSet.
  destruct (Js.truthy value); repeat constructor. exact H.
Qed.

Lemma dateWhenSet_named (key : string) (date : option string) :
  Js.is_array_index key = false ->
  List.Forall (fun e => Js.is_array_index (fst e) = false)
    (Tools.dateWhenSet key date).
Proof.
  intros H. unfold Tools.dateWhenSet.
  destruct (Js.truthy date); repeat constructor. exact H.
Qed.

Lemma costsTotalParams_named (args : Tools.GetCostsTotalArgs.t) :
  List.Forall (fun e => Js.is_array_index (fst e) = false)
    (Tools.costsTotalParams args).
Proof.
  unfold Tools.costsTotalParams, Tools.costFilters.
  repeat (apply List.Forall_app; split);
    try (apply whenSet_named; reflexivity);
    try (apply dateWhenSet_named; reflexivity).
  - destruct (Tools.GetCostsTotalArgs.isTimer args); repeat constructor.
  - destruct (Tools.extraParts args); repeat constructor.
Qed.

(** X16. Among the pairs [get_costs_total] has signed there is at most one
    under the key [extra]: the extras the caller asks for, joined by a
    comma and a space, when it asks for some; otherwise ["projects"] when a
    project is given and no task; otherwise none. *)
Theorem cost_totals_default_breakdown (args : Tools.GetCostsTotalArgs.t) :
  let pairs :=
    fst (buildParamState "get_costs_total"
           (prepareParams (Some (Tools.costsTotalParams args)))) in
  List.filter isExtra pairs
  = match Tools.GetCostsTotalArgs.include args with
    | Some (first :: others) =>
        [("extra", String.concat ", " (first :: others))]
    | _ =>
        if Js.truthy (Tools.GetCostsTotalArgs.projectId args)
           && negb (Js.truthy (Tools.GetCostsTotalArgs.taskId args))
        then [("extra", "projects")]
        else []
    end.
Proof.
  cbv zeta. rewrite buildParamState_pairs. unfold prepareParams, Js.spread.
  cbn [from_option id]. rewrite Object_entries_idempotent.
  rewrite Object_entries_named by apply costsTotalParams_named.
  unfold spec_canonicalPairs, Tools.costsTotalParams.
  cbn [List.filter isExtra fst String.eqb Ascii.eqb Bool.eqb].
  rewrite flat_map_app, List.filter_app, no_extra_costFilters.
  cbn [app]. unfold Tools.extraParts.
  destruct (Tools.GetCostsTotalArgs.include args) as [[|first others]|];
    try reflexivity;
    destruct (Js.truthy (Tools.GetCostsTotalArgs.projectId args)
              && negb (Js.truthy (Tools.GetCostsTotalArgs.taskId args)));
    reflexivity.
Qed.

(** *** Completing a project id *)

(** X17. [completeProjectIds] answers at most 25 identifiers; none is
    empty and each starts with the value being completed; it makes exactly
    one request, the signed GET of [get_projects], and answers a list
    whether that request succeeds or not. *)
Theorem completions_are_bounded (value : string) (tr : Trace) :
  let ids := fst (Tools.completeProjectIds net config value tr) in
  (List.length ids <= 25)%nat
  /\ List.Forall
       (fun id => Js.startsWith id value = true /\ id <> EmptyString) ids
  /\ snd (Tools.completeProjectIds net config value tr)
     = tr ++ [adminGET config
                (URLSearchParams.toString
                   (signParams config "get_projects" None))].
Proof.
  cbv zeta. unfold Tools.completeProjectIds.
  pose proof (call_GET_trace "get_projects" None tr) as Htrace.
  cbv beta iota in Htrace.
  destruct (call net config "get_projects" None tr) as [[response|e] tr'];
    cbn [fst snd] in *;
    [|split; [cbn; lia|]; split; [constructor | exact Htrace]].
  destruct (mapM Tools.idOf (Tools.dataArray response)) as [ids|];
    cbn [fst snd];
    [|split; [cbn; lia|]; split; [constructor | exact Htrace]].
  split; [apply List.firstn_le_length|]. split; [|exact Htrace].
  apply List.Forall_forall. intros id Hin.
  assert (Hin' : In id (if negb (String.eqb value EmptyString)
                        then List.filter (fun id => Js.startsWith id value)
                               (List.filter
                                  (fun id => negb (String.eqb id EmptyString))
                                  ids)
                        else List.filter
                               (fun id => negb (String.eqb id EmptyString))
                               ids)).
  { rewrite <- (List.firstn_skipn 25). apply in_or_app. left. exact Hin. }
  clear Hin. rename Hin' into Hin.
  destruct (negb (String.eqb value EmptyString)) eqn:Ev.
  - apply List.filter_In in Hin as [Hin Hpre].
    apply List.filter_In in Hin as [_ Hne].
    split; [exact Hpre|]. intros ->. discriminate Hne.
  - apply negb_false_iff, String.eqb_eq in Ev. subst value.
    apply List.filter_In in Hin as [_ Hne].
    split; [now destruct id|]. intros ->. discriminate Hne.
Qed.


(** *** Errors of the API as answers of the tools *)




(** X24. When the project list the API answers holds a [null] among the
    projects, [completeProjectIds] offers no completion at all, not even
    for the projects listed before it. *)
Theorem null_project_gives_no_completion (value : string) (tr tr' : Trace)
  (response : Envelope.t) :
  call net config "get_projects" None tr = (Return response, tr') ->
  In JNull (Tools.dataArray response) ->
  Tools.completeProjectIds net config value tr = ([], tr').
Proof.
  intros Hcall Hin. unfold Tools.completeProjectIds. rewrite Hcall.
  assert (H : mapM Tools.idOf (Tools.dataArray response) = None).
  { induction (Tools.dataArray response) as [|project rest IH];
      [destruct Hin|].
    destruct Hin as [->|Hin]; [reflexivity|].
    cbn. destruct (Tools.idOf project); [|reflexivity].
    cbn. now rewrite (IH Hin). }
  now rewrite H.
Qed.

End ToolFacts.

Lemma tools_send_one_signed_GET_witness :
  snd (Tools.invoke sample_base64 sample_api sample_config (fun _ => JNull)
         (Tools.CallPostComment (sample_comment (Some "done") None)) [])
  = [adminGET sample_config
       "action=post_comment&id_task=77&text=done&hash=61b35fb7baf1abe41e9882e0e6dffb40"].
Proof.
  rewrite (tools_send_one_signed_GET sample_base64 sample_api sample_config
             (fun _ => JNull)
             (Tools.CallPostComment (sample_comment (Some "done") None)) []
             eq_refl).
  vm_compute. reflexivity.
Defined.

Lemma tool_success_needs_ok_witness :
  exists tr1 request response json,
    [adminGET sample_config
       "action=get_users&hash=bbf427be95c4e6ac078142914d5bbd20"]
    = tr1 ++ [request]
    /\ sample_api tr1 (fst request) (snd request) = Resolved response
    /\ Response.ok response = true
    /\ Response.json response = JsonParsed json
    /\ Envelope.status json = Some "ok".
Proof.
  apply (tool_success_needs_ok sample_base64 sample_api sample_config
           (fun _ => JNull) Tools.CallGetUsers []
           [adminGET sample_config
              "action=get_users&hash=bbf427be95c4e6ac078142914d5bbd20"]
           (JObject [("count", JNumber (Js.Number_of_Z 1));
                     ("users", JArray [JObject [("id", JString "1")]])])).
  vm_compute. reflexivity.
Defined.

Lemma empty_comment_is_declined_witness :
  Tools.post_comment sample_api sample_config
    (sample_comment (Some EmptyString) (Some [])) []
  = (PostTask.RespondedError
       "Provide comment text or at least one checklist item.", []).
Proof.
  exact (empty_comment_is_declined sample_api sample_config
           (sample_comment (Some EmptyString) (Some [])) [] eq_refl eq_refl).
Defined.

Lemma unbounded_cost_query_is_declined_witness :
  Tools.get_costs_total sample_api sample_config (fun _ => JNull)
    (sample_costs None (Some EmptyString) (Some ["projects"])) []
  = (PostTask.RespondedError Tools.unboundedMessage, []).
Proof.
  exact (proj2 (unbounded_cost_query_is_declined sample_api sample_config
                  (fun _ => JNull)
                  {| Tools.GetCostsArgs.projectId := None;
                     Tools.GetCostsArgs.taskId := None;
                     Tools.GetCostsArgs.startDate := None;
                     Tools.GetCostsArgs.endDate := None;
                     Tools.GetCostsArgs.isTimer := Some false;
                     Tools.GetCostsArgs.filter := None |}
                  (sample_costs None (Some EmptyString) (Some ["projects"])) [])
           eq_refl eq_refl eq_refl eq_refl eq_refl).
Defined.

Example cost_totals_query :
  snd (Tools.get_costs_total sample_api sample_config (fun _ => JNull)
         (sample_costs (Some "12") None None) [])
  = [adminGET sample_config
       "action=get_costs_total&id_project=12&is_timer=1&extra=projects&hash=99e5eca35b08262752abad3166871840"].
Proof. vm_compute. reflexivity. Qed.


Lemma null_project_gives_no_completion_witness :
  fst (Tools.completeProjectIds sample_null_project sample_config "1" []) = [].
Proof.
  rewrite (null_project_gives_no_completion sample_null_project sample_config
             "1" []
             [adminGET sample_config
                "action=get_projects&hash=f244347406c26a4c4d2238ceb1df6ff0"]
             sample_null_envelope);
    [reflexivity | vm_compute; reflexivity | right; left; reflexivity].
Defined.

(** ** Loading the configuration *)

Lemma endsWith_refl (s : string) : Js.endsWith s s = true.
Proof. destruct s; cbn [Js.endsWith]; now rewrite String.eqb_refl. Qed.

Lemma endsWith_append (s suffix : string) :
  Js.endsWith (s +:+ suffix) suffix = true.
Proof.
  induction s as [|c s IH]; [apply endsWith_refl|].
  cbn [String.append Js.endsWith]. rewrite IH. apply orb_true_r.
Qed.

Lemma truthy_not_empty (s : option string) :
  Js.truthy s = true -> s <> Some EmptyString.
Proof. now destruct s as [[|c s]|]. Qed.

Section ConfigFacts.

Variable URL_href : string -> option string.
Variable z_url : string -> bool.
Variable JSON_parse : string -> Json + string.
Variable null_read : string.

#[local] Abbreviation loadConfig :=
  (Config.loadConfig URL_href z_url JSON_parse null_read).
#[local] Abbreviation extractSlackBotToken :=
  (Config.extractSlackBotToken JSON_parse null_read).

Lemma extractSlackBotToken_not_empty (env : Config.Env)
  (token : option string) :
  extractSlackBotToken env = Config.Loaded token ->
  token <> Some EmptyString.
Proof.
  unfold Config.extractSlackBotToken.
  destruct (Js.truthy (Js.trim <$> env "SLACK_FILE_BEARER_TOKEN")) eqn:Ed.
  - intros [= <-]. now apply truthy_not_empty.
  - destruct (negb (Js.truthy (env "SLACK_APP_JETBASE_AGENT_PM_TEST")));
      [intros [= <-]; discriminate|].
    destruct (JSON_parse _) as [parsed|message]; [|discriminate].
    set (candidate := match parsed with JNull => _ | _ => _ end).
    assert (H : forall trimmed : option string,
              (if Js.truthy trimmed then trimmed else None)
              <> Some EmptyString).
    { intros trimmed. destruct (Js.truthy trimmed) eqn:E;
        [now apply truthy_not_empty | discriminate]. }
    subst candidate.
    destruct parsed; try discriminate; intros [= <-];
      first [apply H | discriminate].
Qed.

(** X18. Whenever [loadConfig] returns a configuration, its API key is the
    trimmed value of [WORKSECTION_ADMIN_API_KEY] and is not empty, its
    account URL ends with a slash and passed the schema's URL check, and
    its bearer token is either absent or not empty. *)
Theorem loaded_config_is_normalized (env : Config.Env)
  (config : WorksectionConfig) :
  loadConfig env = Config.Loaded config ->
  Some (apiKey config) = Js.trim <$> env "WORKSECTION_ADMIN_API_KEY"
  /\ apiKey config <> EmptyString
  /\ Js.endsWith (accountUrl config) "/" = true
  /\ z_url (accountUrl config) = true
  /\ slackBotToken config <> Some EmptyString.
Proof.
  unfold Config.loadConfig.
  destruct (negb (Js.truthy (env "WORKSECTION_ACCOUNT_URL"))); [discriminate|].
  destruct (Js.trim <$> env "WORKSECTION_ADMIN_API_KEY") as [[|c key]|] eqn:Ek;
    cbn [Js.truthy negb]; try discriminate.
  unfold Config.normalizeAccountUrl.
  destruct (URL_href _) as [serialized|]; [|discriminate].
  destruct (extractSlackBotToken env) as [token|e] eqn:Et; [|discriminate].
  destruct (z_url _) eqn:Ez; [|discriminate].
  intros [= <-]. cbn [apiKey accountUrl slackBotToken from_option id].
  split; [reflexivity|]. split; [discriminate|].
  split; [|split; [exact Ez | eapply extractSlackBotToken_not_empty; exact Et]].
  destruct (Js.endsWith serialized "/") eqn:Es; [exact Es|].
  apply endsWith_append.
Qed.

(** X19. [loadConfig] reports a missing or empty [WORKSECTION_ACCOUNT_URL]
    first; with an account URL set, it reports an API key that is missing
    or made of white space only, and it does so before the account URL is
    parsed, so also when that URL is not valid. *)
Theorem missing_settings_are_reported (env : Config.Env) :
  (Js.truthy (env "WORKSECTION_ACCOUNT_URL") = false ->
   loadConfig env
   = Config.Failed
       (Config.ThrownError
          "Set WORKSECTION_ACCOUNT_URL to your Worksection workspace url, e.g. https://company.worksection.com"))
  /\ (Js.truthy (env "WORKSECTION_ACCOUNT_URL") = true ->
      Js.truthy (Js.trim <$> env "WORKSECTION_ADMIN_API_KEY") = false ->
      loadConfig env
      = Config.Failed
          (Config.ThrownError
             "Set WORKSECTION_ADMIN_API_KEY to authenticate the MCP server.")).
Proof.
  unfold Config.loadConfig. split.
  - now intros ->.
  - now intros -> ->.
Qed.

(** X20. When [SLACK_FILE_BEARER_TOKEN] holds more than white space, the
    bearer token is its trimmed value and the application blob is not
    read: the result is the same whether or not the blob is set or can be
    parsed. *)
Theorem direct_token_wins (env : Config.Env) (raw : string) :
  env "SLACK_FILE_BEARER_TOKEN" = Some raw ->
  Js.trim raw <> EmptyString ->
  extractSlackBotToken env = Config.Loaded (Some (Js.trim raw)).
Proof.
  intros Hraw Hne. unfold Config.extractSlackBotToken. rewrite Hraw.
  cbn [fmap option_fmap option_map].
  destruct (Js.trim raw) as [|c t]; [now destruct Hne|]. reflexivity.
Qed.

(** X21. Without a direct token, when the blob is an object whose
    [OAUTH_TOKENS.BOT_USER_OAUTH_TOKEN] is a string, the bearer token is
    that string trimmed, or none when it trims to the empty string; the
    top-level [BOT_USER_OAUTH_TOKEN] is not consulted, even when it holds a
    usable token. *)
Theorem nested_token_hides_fallback (env : Config.Env) (blob token : string)
  (props tokens : list (string * Json)) :
  Js.truthy (Js.trim <$> env "SLACK_FILE_BEARER_TOKEN") = false ->
  env "SLACK_APP_JETBASE_AGENT_PM_TEST" = Some blob ->
  blob <> EmptyString ->
  JSON_parse blob = inl (JObject props) ->
  PostTask.lookup_prop "OAUTH_TOKENS" props = Some (JObject tokens) ->
  PostTask.lookup_prop "BOT_USER_OAUTH_TOKEN" tokens = Some (JString token) ->
  extractSlackBotToken env
  = Config.Loaded match Js.trim token with
                  | EmptyString => None
                  | trimmed => Some trimmed
                  end.
Proof.
  intros Hd Hb Hne Hp Ht Hn. unfold Config.extractSlackBotToken.
  rewrite Hd, Hb. destruct blob as [|c blob]; [now destruct Hne|].
  cbn [Js.truthy negb from_option id]. rewrite Hp.
  unfold Config.property. rewrite Ht, Hn.
  cbn [fmap option_fmap option_map].
  now destruct (Js.trim token).
Qed.

(** X22. Without a direct token, a blob that is the JSON value [null] makes
    [extractSlackBotToken] throw the error "Failed to parse
    SLACK_APP_JETBASE_AGENT_PM_TEST" although the text is valid JSON, the
    message being that of the property read on [null]; [loadConfig] then
    fails with that error when the account URL and the API key are
    usable. *)
Theorem null_blob_is_reported_as_unparsable (env : Config.Env) (blob : string) :
  Js.truthy (Js.trim <$> env "SLACK_FILE_BEARER_TOKEN") = false ->
  env "SLACK_APP_JETBASE_AGENT_PM_TEST" = Some blob ->
  blob <> EmptyString ->
  JSON_parse blob = inl JNull ->
  extractSlackBotToken env = Config.Failed (Config.blobError null_read)
  /\ (Js.truthy (env "WORKSECTION_ACCOUNT_URL") = true ->
      Js.truthy (Js.trim <$> env "WORKSECTION_ADMIN_API_KEY") = true ->
      URL_href (default EmptyString (env "WORKSECTION_ACCOUNT_URL")) <> None ->
      loadConfig env = Config.Failed (Config.blobError null_read)).
Proof.
  intros Hd Hb Hne Hp.
  assert (H : extractSlackBotToken env
              = Config.Failed (Config.blobError null_read)).
  { unfold Config.extractSlackBotToken.
    rewrite Hd, Hb. destruct blob as [|c blob]; [now destruct Hne|].
    cbn [Js.truthy negb from_option id]. now rewrite Hp. }
  split; [exact H|].
  intros Hu Hk Hhref. unfold Config.loadConfig, Config.normalizeAccountUrl.
  rewrite Hu, Hk. cbn [negb].
  destruct (URL_href _); [|now destruct Hhref]. now rewrite H.
Qed.

End ConfigFacts.

Lemma loaded_config_is_normalized_witness :
  Config.loadConfig sample_href (fun _ => true) sample_parse sample_null_read
    (sample_env (Some " xoxb-9 ") (Some "null"))
  = Config.Loaded
      {| accountUrl := "https://acme.worksection.com/"; apiKey := "secret";
         slackBotToken := Some "xoxb-9" |}
  /\ Js.endsWith "https://acme.worksection.com/" "/" = true.
Proof.
  split; [vm_compute; reflexivity|].
  exact (proj1 (proj2 (proj2
           (loaded_config_is_normalized sample_href (fun _ => true)
              sample_parse sample_null_read
              (sample_env (Some " xoxb-9 ") (Some "null"))
              {| accountUrl := "https://acme.worksection.com/";
                 apiKey := "secret"; slackBotToken := Some "xoxb-9" |}
              eq_refl)))).
Defined.

Lemma missing_settings_are_reported_witness :
  Config.loadConfig sample_href (fun _ => true) sample_parse sample_null_read
    sample_keyless_env
  = Config.Failed
      (Config.ThrownError
         "Set WORKSECTION_ADMIN_API_KEY to authenticate the MCP server.").
Proof.
  exact (proj2 (missing_settings_are_reported sample_href (fun _ => true)
                  sample_parse sample_null_read sample_keyless_env)
           eq_refl eq_refl).
Defined.

Lemma direct_token_wins_witness :
  Config.extractSlackBotToken sample_parse sample_null_read
    (sample_env (Some " xoxb-9 ") (Some "not json"))
  = Config.Loaded (Some "xoxb-9").
Proof.
  exact (direct_token_wins sample_parse sample_null_read
           (sample_env (Some " xoxb-9 ") (Some "not json")) " xoxb-9 "
           eq_refl ltac:(discriminate)).
Defined.

Lemma nested_token_hides_fallback_witness :
  Config.extractSlackBotToken sample_parse sample_null_read
    (sample_env None (Some sample_blob))
  = Config.Loaded None.
Proof.
  exact (nested_token_hides_fallback sample_parse sample_null_read
           (sample_env None (Some sample_blob)) sample_blob "  "
           [("OAUTH_TOKENS", JObject [("BOT_USER_OAUTH_TOKEN", JString "  ")]);
            ("BOT_USER_OAUTH_TOKEN", JString "xoxb-1")]
           [("BOT_USER_OAUTH_TOKEN", JString "  ")]
           eq_refl eq_refl ltac:(discriminate) eq_refl eq_refl eq_refl).
Defined.

Lemma null_blob_is_reported_as_unparsable_witness :
  Config.loadConfig sample_href (fun _ => true) sample_parse sample_null_read
    (sample_env None (Some "null"))
  = Config.Failed
      (Config.ThrownError
         ("Failed to parse SLACK_APP_JETBASE_AGENT_PM_TEST: "
          +:+ "Cannot read properties of null (reading 'BOT_USER_OAUTH_TOKEN')"
          +:+ ". Provide a JSON blob with OAUTH_TOKENS.BOT_USER_OAUTH_TOKEN or use SLACK_FILE_BEARER_TOKEN.")).
Proof.
  exact (proj2 (null_blob_is_reported_as_unparsable sample_href (fun _ => true)
                  sample_parse sample_null_read
                  (sample_env None (Some "null")) "null"
                  eq_refl eq_refl ltac:(discriminate) eq_refl)
           eq_refl eq_refl ltac:(discriminate)).
Defined.
